(** * Faithfulness sweeps: a shallow embedding of [src/sweeps.py]

    The result records, their [best]/[by_layer] queries, the
    relation/trial/layer/beta loops of [sweep_faithfulness] and the
    activation precompute [_precompute_hs], together with the properties
    the specification states about them.

    Conventions of the embedding:
    - Python [int]s are [Z]; list indexing follows Python (negative
      indices count from the end, out of range raises [IndexError]).
    - Python [float]s are exact rationals [Q]; rounding and NaN are
      outside the model.
    - Exceptions are values of [exn]; a computation that raises keeps the
      side effects it performed before raising.
    - Tensors that the code mutates in place live in a heap of locations;
      tensors that are only read are plain lists. *)

From Stdlib Require Import ZArith QArith List String Lia Bool.
From stdpp Require Import base gmap strings list fin_maps.
Import ListNotations.
Close Scope Q_scope.

(** ** Python exceptions and results *)

Inductive exn :=
| IndexError | ValueError | KeyError | AssertionError | LookupError | RuntimeError.

Inductive result (A : Type) :=
| Ok (a : A)
| Raise (e : exn).
Arguments Ok {A} a.
Arguments Raise {A} e.

Definition rbind {A B} (r : result A) (f : A -> result B) : result B :=
  match r with
  | Ok a => f a
  | Raise e => Raise e
  end.

Notation "'let?' x := e 'in' k" := (rbind e (fun x => k))
  (at level 10, x pattern, e at level 100, k at level 200).

Fixpoint rmap {A B} (f : A -> result B) (l : list A) : result (list B) :=
  match l with
  | [] => Ok []
  | x :: l' => let? y := f x in let? ys := rmap f l' in Ok (y :: ys)
  end.

Fixpoint rfold {A B} (f : B -> A -> result B) (acc : B) (l : list A) : result B :=
  match l with
  | [] => Ok acc
  | x :: l' => let? acc' := f acc x in rfold f acc' l'
  end.

(** ** Python built-ins used by the sweep *)

(** [l[i]] *)
Definition py_index {A} (l : list A) (i : Z) : result A :=
  let n := Z.of_nat (length l) in
  let j := if (i <? 0)%Z then (i + n)%Z else i in
  if ((0 <=? j)%Z && (j <? n)%Z)%bool then
    match nth_error l (Z.to_nat j) with
    | Some x => Ok x
    | None => Raise IndexError
    end
  else Raise IndexError.

(** [l[:-1]] *)
Definition py_drop_last {A} (l : list A) : list A := removelast l.

(** [a > b] on floats *)
Definition Qgtb (a b : Q) : bool := negb (Qle_bool a b).

(** [max(l, key=key)]: the keys are computed in list order; an item
    replaces the running maximum only when its key is strictly greater;
    an empty argument raises [ValueError]. *)
Fixpoint max_loop {A} (key : A -> result Q) (maxval : A) (maxkey : Q)
    (l : list A) : result A :=
  match l with
  | [] => Ok maxval
  | item :: l' =>
      let? k := key item in
      if Qgtb k maxkey then max_loop key item k l'
      else max_loop key maxval maxkey l'
  end.

Definition py_max {A} (l : list A) (key : A -> result Q) : result A :=
  match l with
  | [] => Raise ValueError
  | item :: l' => let? k := key item in max_loop key item k l'
  end.

(** A [dict] whose iteration order matters is an association list in
    insertion order with unique keys. *)
Definition dict (V : Type) := list (Z * V).

Fixpoint dict_get {V} (d : dict V) (key : Z) : result V :=
  match d with
  | [] => Raise KeyError
  | (k', v) :: d' => if (k' =? key)%Z then Ok v else dict_get d' key
  end.

(** [d[key].append(v)] on a [defaultdict(list)] *)
Fixpoint defaultdict_append {V} (d : dict (list V)) (key : Z) (v : V)
    : dict (list V) :=
  match d with
  | [] => [(key, [v])]
  | (k', vs) :: d' =>
      if (k' =? key)%Z then (k', vs ++ [v]) :: d'
      else (k', vs) :: defaultdict_append d' key v
  end.

Definition dict_keys {V} (d : dict V) : list Z := map fst d.

(** ** Data model *)

(** Modelled from the spec: the sample and relation records belong to
    the data module, which is not part of the sources at hand. A sample
    is a (subject, object) pair; a relation has a name, an ordered list
    of prompt templates and a list of samples. *)
Record RelationSample := {
  subject : string;
  object : string;
}.

(** Modelled from the spec: a relation of the data module, see
    [RelationSample]. *)
Record Relation := {
  name : string;
  prompt_templates : list string;
  samples : list RelationSample;
}.

(** Modelled from the spec: a dataset of the data module is read only
    through its list of relations. *)
Record RelationDataset := {
  relations : list Relation;
}.

Record SweepFaithfulnessBetaResults := {
  br_beta : Q;
  br_recall : list Q;
}.

Record SweepFaithfulnessTrainResults := {
  tr_samples : list RelationSample;
  tr_betas : list SweepFaithfulnessBetaResults;
}.

Record SweepFaithfulnessLayerResults := {
  lr_layer : Z;
  lr_result : SweepFaithfulnessTrainResults;
}.

Record SweepFaithfulnessTrialResults := {
  trial_prompt_template : string;
  trial_train_samples : list RelationSample;
  trial_layers : list SweepFaithfulnessLayerResults;
}.

(** Modelled from the spec: [metrics.AggregateMetric] is not part of the
    sources at hand; the by-layer summary is described as the mean and
    variance of the aggregated values. [aggregate] is only applied to
    non-empty lists by [by_layer]. *)
Record AggregateMetric := {
  mean : Q;
  variance : Q;
}.

Definition Qsum (l : list Q) : Q := fold_right Qplus (0 # 1)%Q l.

Definition aggregate (values : list Q) : AggregateMetric :=
  let n := (Z.of_nat (length values) # 1)%Q in
  let m := (Qsum values / n)%Q in
  {| mean := m;
     variance := (Qsum (map (fun x => (x - m) * (x - m))%Q values) / n)%Q |}.

Record SweepFaithfulnessLayerSummary := {
  ls_layer : Z;
  ls_beta : AggregateMetric;
  ls_recall : AggregateMetric;
}.

Record SweepFaithfulnessRelationResults := {
  relation_name : string;
  trials : list SweepFaithfulnessTrialResults;
}.

Record SweepFaithfulnessResuts := {
  sweep_relations : list SweepFaithfulnessRelationResults;
}.

(** ** Queries on the result records *)

(** [SweepFaithfulnessTrainResults.best]:
    [max(self.betas, key=lambda x: x.recall[k - 1])] *)
Definition SweepFaithfulnessTrainResults_best
    (self : SweepFaithfulnessTrainResults) (k : Z)
    : result SweepFaithfulnessBetaResults :=
  py_max (tr_betas self) (fun x => py_index (br_recall x) (k - 1)).

(** [SweepFaithfulnessRelationResults.by_layer]. The best beta of each
    layer result is chosen by [best()], that is at recall position 1;
    its recall is then read at position [k]. *)
Definition by_layer_collect (k : Z)
    (acc : dict (list (Z * Q * Q))) (layer : SweepFaithfulnessLayerResults)
    : result (dict (list (Z * Q * Q))) :=
  let? best := SweepFaithfulnessTrainResults_best (lr_result layer) 1 in
  let? r := py_index (br_recall best) (k - 1) in
  Ok (defaultdict_append acc (lr_layer layer) (lr_layer layer, br_beta best, r)).

Definition SweepFaithfulnessRelationResults_by_layer
    (self : SweepFaithfulnessRelationResults) (k : Z)
    : result (dict SweepFaithfulnessLayerSummary) :=
  let? results_by_layer :=
    rfold (fun acc trial => rfold (by_layer_collect k) acc (trial_layers trial))
          [] (trials self) in
  let recalls_by_layer :=
    map (fun '(layer, results) => (layer, aggregate (map snd results)))
        results_by_layer in
  let betas_by_layer :=
    map (fun '(layer, results) =>
           (layer, aggregate (map (fun x => snd (fst x)) results)))
        results_by_layer in
  rmap (fun layer =>
          let? b := dict_get betas_by_layer layer in
          let? r := dict_get recalls_by_layer layer in
          Ok (layer, {| ls_layer := layer; ls_beta := b; ls_recall := r |}))
       (dict_keys recalls_by_layer).

(** [SweepFaithfulnessRelationResults.best]. The argument [k] is
    accepted and not forwarded: [self.by_layer()] runs with its default
    [k = 1]. *)
Definition SweepFaithfulnessRelationResults_best
    (self : SweepFaithfulnessRelationResults) (k : Z)
    : result SweepFaithfulnessLayerSummary :=
  let? results_by_layer := SweepFaithfulnessRelationResults_by_layer self 1 in
  let? best_layer :=
    py_max (dict_keys results_by_layer)
           (fun x => let? s := dict_get results_by_layer x in
                     Ok (mean (ls_recall s))) in
  dict_get results_by_layer best_layer.

(** ** Log records *)

Inductive level := INFO | WARNING | DEBUG.

(** One constructor per logging call of the module, carrying the values
    its format string interpolates. *)
Inductive message :=
| BeginSweep
| BeginRelation (relation : string) (index total : Z)
| LoadedPrevious (relation : string)
| BeginTrial (index total : Z)
| NotEnoughSamples (n_samples : Z) (relation : string) (n_train_samples : Z)
| WillTrainUsing (train_samples : list RelationSample)
| WillDoIcl (train_icl_samples : list RelationSample)
| BeginLayer (h_layer : Z)
| TrainSummary (beta recall1 : Q) (train_samples : list RelationSample)
| SummarizingResults (relation : string)
| LayerSummaryLine (layer : Z) (beta recall : AggregateMetric) (k : Z).

(** ** Tensors *)

(** [range(0, n, step)] *)
Fixpoint range_from (fuel : nat) (i n step : nat) : list nat :=
  match fuel with
  | O => []
  | S fuel' => if (i <? n)%nat then i :: range_from fuel' (i + step) n step else []
  end.

Definition py_range_step (n : nat) (step : Z) : result (list nat) :=
  if (step =? 0)%Z then Raise ValueError
  else if (step <? 0)%Z then Ok []
  else Ok (range_from n 0 n (Z.to_nat step)).

(** [l[i : i + size]] for [0 <= i] and [0 < size] *)
Definition py_slice {A} (l : list A) (i : nat) (size : Z) : list A :=
  firstn (Z.to_nat size) (skipn i l).

(** [torch.stack(ts)]: refuses an empty sequence. *)
Definition torch_stack {A} (ts : list A) : result (list A) :=
  match ts with
  | [] => Raise RuntimeError
  | _ => Ok ts
  end.

Fixpoint zip_app {A} (t1 t2 : list (list A)) : list (list A) :=
  match t1, t2 with
  | x :: t1', y :: t2' => (x ++ y) :: zip_app t1' t2'
  | _, _ => []
  end.

(** [torch.cat(ts, dim=1)] on tensors indexed (layer, row, position):
    refuses an empty list and tensors that disagree on the number of
    layers. *)
Fixpoint torch_cat_dim1 {A} (ts : list (list (list A))) : result (list (list A)) :=
  match ts with
  | [] => Raise RuntimeError
  | [t] => Ok t
  | t :: ts' =>
      let? rest := torch_cat_dim1 ts' in
      if (length t =? length rest)%nat then Ok (zip_app t rest)
      else Raise RuntimeError
  end.

(** The tokenizer's batch encoding: one row per prompt in each field. *)
Record BatchEncoding := {
  input_ids : list (list Z);
  attention_mask : list (list Z);
  offset_mapping : list (list (Z * Z));
}.

(** ** External collaborators

    The model and tokenizer handle [mt], the estimator, the fitted
    operator's prediction call, the recall metric, the prompt renderer,
    the token-range locator and the sample splitter are not part of
    [sweeps.py]; the sweep is written against this interface. *)

Class Collaborators := {
  (** a hidden-state vector *)
  hvec : Type;
  (** everything an operator holds besides its bias *)
  weight : Type;
  (** the state of the random generator *)
  rng : Type;
  (** [models.determine_layers(mt)] *)
  determine_layers : list Z;
  (** [functional.make_prompt(mt=, prompt_template=, subject=, examples=)] *)
  make_prompt : string -> string -> option (list RelationSample) -> string;
  (** [mt.tokenizer(prompts, padding="longest", return_offsets_mapping=True)] *)
  tokenizer : list string -> BatchEncoding;
  (** [mt.model(input_ids, attention_mask=, output_hidden_states=True)
      .hidden_states]: one tensor (row, position) per hidden layer, the
      embedding layer first *)
  mt_model : list (list Z) -> list (list Z) -> list (list (list hvec));
  (** [tokenizer_utils.find_token_range(prompt, subject, offset_mapping=)] *)
  find_token_range : string -> string -> list (Z * Z) -> result (Z * Z);
  (** [operators.JacobianIclMeanEstimator(mt=, h_layer=, **kwargs)(relation)]:
      the fitted weight and bias *)
  estimator : Z -> Relation -> result (weight * option (list Q));
  (** [operator(subject, h=, k=)] as a function of the operator's weight
      and current bias; the tokens of the predictions *)
  predict : weight -> option (list Q) -> string -> hvec -> Z -> list string;
  (** [metrics.recall(predictions, targets)] *)
  recall : list (list string) -> list string -> list Q;
  (** the random draw behind [Relation.split] *)
  draw_split :
    rng -> list RelationSample -> Z ->
    result (list RelationSample * list RelationSample) * rng;
}.

(** ** The sweep *)

Section Sweep.

Context {C : Collaborators}.

(** *** State, events and the sweep monad *)

(** A fitted operator; its bias is a mutable tensor on the heap. *)
Record Operator := {
  op_weight : weight;
  op_bias : option nat;
}.

Record world := {
  checkpoints : gmap string SweepFaithfulnessRelationResults;
  random : rng;
  heap : gmap nat (list Q);
  next_loc : nat;
}.

(** What a run does that is visible from outside: log records and calls
    to the collaborators, with their arguments. *)
Inductive event :=
| Log (lvl : level) (msg : message)
| CallSplit (relation_samples : list RelationSample) (n : Z)
| CallMakePrompt (prompt_template subject : string)
                 (examples : option (list RelationSample))
| CallTokenizer (prompts : list string)
| CallModel (ids mask : list (list Z))
| CallFindTokenRange (prompt subject : string) (offsets : list (Z * Z))
| CallEstimator (h_layer : Z) (relation : Relation)
| CallOperator (bias : option (list Q)) (subject : string) (h : hvec) (k : Z)
| CallRecall (predictions : list (list string)) (targets : list string)
| CallLoad (relation : string) (resume : bool)
| CallSave (relation : string) (results : SweepFaithfulnessRelationResults).

Record outcome (A : Type) := {
  res : result A;
  final : world;
  trace : list event;
}.
Arguments res {A} o.
Arguments final {A} o.
Arguments trace {A} o.

Definition M (A : Type) := world -> outcome A.

Definition ret {A} (a : A) : M A :=
  fun w => {| res := Ok a; final := w; trace := [] |}.

Definition bind {A B} (m : M A) (f : A -> M B) : M B :=
  fun w =>
    let o := m w in
    match res o with
    | Ok a =>
        let o' := f a (final o) in
        {| res := res o'; final := final o'; trace := trace o ++ trace o' |}
    | Raise e => {| res := Raise e; final := final o; trace := trace o |}
    end.

Notation "x <- m ;; k" := (bind m (fun x => k))
  (at level 20, m at level 99, k at level 200).
Notation "' pat <- m ;; k" := (bind m (fun x => match x with pat => k end))
  (at level 20, pat pattern, m at level 99, k at level 200).
Notation "m ;;; k" := (bind m (fun _ => k))
  (at level 100, k at level 200, right associativity).

Definition lift {A} (r : result A) : M A :=
  fun w => {| res := r; final := w; trace := [] |}.

Definition emit (ev : event) : M unit :=
  fun w => {| res := Ok tt; final := w; trace := [ev] |}.

Definition log (lvl : level) (msg : message) : M unit := emit (Log lvl msg).

(** [for x in l: out.append(body(x))] *)
Fixpoint for_each {A B} (body : A -> M B) (l : list A) : M (list B) :=
  match l with
  | [] => ret []
  | x :: l' => y <- body x ;; ys <- for_each body l' ;; ret (y :: ys)
  end.

(** The same loop when the body may [continue] before appending. *)
Fixpoint for_each_opt {A B} (body : A -> M (option B)) (l : list A) : M (list B) :=
  match l with
  | [] => ret []
  | x :: l' =>
      y <- body x ;;
      ys <- for_each_opt body l' ;;
      ret (match y with Some y' => y' :: ys | None => ys end)
  end.

(** [for x in l: acc = body(acc, x)] *)
Fixpoint fold_each {A B} (body : B -> A -> M B) (acc : B) (l : list A) : M B :=
  match l with
  | [] => ret acc
  | x :: l' => acc' <- body acc x ;; fold_each body acc' l'
  end.

(** *** Heap tensors *)

Definition tensor_alloc (t : list Q) : M nat :=
  fun w =>
    {| res := Ok (next_loc w);
       final := {| checkpoints := checkpoints w; random := random w;
                   heap := <[next_loc w := t]> (heap w);
                   next_loc := S (next_loc w) |};
       trace := [] |}.

Definition tensor_read (l : nat) : M (list Q) :=
  fun w =>
    {| res := match heap w !! l with Some t => Ok t | None => Raise RuntimeError end;
       final := w; trace := [] |}.

(** [dst[:] = t] *)
Definition tensor_write (dst : nat) (t : list Q) : M unit :=
  fun w =>
    {| res := Ok tt;
       final := {| checkpoints := checkpoints w; random := random w;
                   heap := <[dst := t]> (heap w);
                   next_loc := next_loc w |};
       trace := [] |}.

(** [t.clone()] *)
Definition tensor_clone (l : nat) : M nat :=
  t <- tensor_read l ;; tensor_alloc t.

(** [bias * beta] *)
Definition tensor_scale (t : list Q) (beta : Q) : list Q :=
  map (fun x => (x * beta)%Q) t.

(** *** Calls to the collaborators *)

(** Modelled from the spec: [Relation.set] belongs to the data module,
    which is not part of the sources at hand; it replaces the named
    fields and keeps the others. *)
Definition Relation_set (self : Relation) (new_samples : list RelationSample)
    (new_templates : list string) : Relation :=
  {| name := name self; prompt_templates := new_templates;
     samples := new_samples |}.

(** Modelled from the spec: [Relation.split] belongs to the data module,
    which is not part of the sources at hand. [split(n)] partitions the
    samples into a train and a test part, drawn at random, and keeps the
    other fields of the relation. *)
Definition Relation_split (self : Relation) (n : Z) : M (Relation * Relation) :=
  fun w =>
    let '(drawn, g) := draw_split (random w) (samples self) n in
    {| res :=
         (let? (train, test) := drawn in
          Ok (Relation_set self train (prompt_templates self),
              Relation_set self test (prompt_templates self)));
       final := {| checkpoints := checkpoints w; random := g;
                   heap := heap w; next_loc := next_loc w |};
       trace := [CallSplit (samples self) n] |}.

(** Modelled from the spec: [experiment_utils.load_results_file] is not
    part of the sources at hand. The checkpoint store of a results
    directory is keyed by relation name; [load] answers the stored result
    when resuming and nothing otherwise. *)
Definition load_results_file (relation : string) (resume : bool)
    : M (option SweepFaithfulnessRelationResults) :=
  fun w =>
    {| res := Ok (if resume then checkpoints w !! relation else None);
       final := w;
       trace := [CallLoad relation resume] |}.

(** Modelled from the spec: [experiment_utils.save_results_file] is not
    part of the sources at hand; [save] stores the result under the
    relation's name, over any earlier result. *)
Definition save_results_file (relation : string)
    (results : SweepFaithfulnessRelationResults) : M unit :=
  fun w =>
    {| res := Ok tt;
       final := {| checkpoints := <[relation := results]> (checkpoints w);
                   random := random w; heap := heap w;
                   next_loc := next_loc w |};
       trace := [CallSave relation results] |}.

Definition call_make_prompt (prompt_template subj : string)
    (examples : option (list RelationSample)) : M string :=
  emit (CallMakePrompt prompt_template subj examples) ;;;
  ret (make_prompt prompt_template subj examples).

Definition call_tokenizer (prompts : list string) : M BatchEncoding :=
  emit (CallTokenizer prompts) ;;; ret (tokenizer prompts).

Definition call_model (ids mask : list (list Z)) : M (list (list (list hvec))) :=
  emit (CallModel ids mask) ;;; ret (mt_model ids mask).

Definition call_find_token_range (prompt subj : string) (offsets : list (Z * Z))
    : M (Z * Z) :=
  emit (CallFindTokenRange prompt subj offsets) ;;;
  lift (find_token_range prompt subj offsets).

(** The estimator returns a fresh operator; its bias, when it has one, is
    a fresh tensor. *)
Definition call_estimator (h_layer : Z) (relation : Relation) : M Operator :=
  emit (CallEstimator h_layer relation) ;;;
  ' (wt, fitted_bias) <- lift (estimator h_layer relation) ;;
  match fitted_bias with
  | None => ret {| op_weight := wt; op_bias := None |}
  | Some t => l <- tensor_alloc t ;; ret {| op_weight := wt; op_bias := Some l |}
  end.

(** [operator(subj, h=h, k=k)] reads the operator's bias as it is at the
    time of the call. *)
Definition call_operator (operator : Operator) (subj : string) (h : hvec) (k : Z)
    : M (list string) :=
  b <- match op_bias operator with
       | None => ret None
       | Some l => t <- tensor_read l ;; ret (Some t)
       end ;;
  emit (CallOperator b subj h k) ;;;
  ret (predict (op_weight operator) b subj h k).

Definition call_recall (predictions : list (list string)) (targets : list string)
    : M (list Q) :=
  emit (CallRecall predictions targets) ;;; ret (recall predictions targets).

(** *** [summarize] of the result records *)

(** [SweepFaithfulnessTrainResults.summarize]: the log record is built
    from [self.best()] and its recall at position 1. *)
Definition SweepFaithfulnessTrainResults_summarize
    (self : SweepFaithfulnessTrainResults) : M unit :=
  best <- lift (SweepFaithfulnessTrainResults_best self 1) ;;
  r1 <- lift (py_index (br_recall best) 0) ;;
  log DEBUG (TrainSummary (br_beta best) r1 (tr_samples self)).

(** [SweepFaithfulnessRelationResults.summarize] *)
Definition SweepFaithfulnessRelationResults_summarize
    (self : SweepFaithfulnessRelationResults) (k : Z) : M unit :=
  results_by_layer <- lift (SweepFaithfulnessRelationResults_by_layer self k) ;;
  log DEBUG (SummarizingResults (relation_name self)) ;;;
  for_each (fun '(la, summ) =>
              log DEBUG (LayerSummaryLine la (ls_beta summ) (ls_recall summ) k))
           results_by_layer ;;;
  ret tt.

(** *** [_precompute_hs] *)

(** One inference batch: rows [i : i + batch_size] of the encoding, the
    hidden states stacked and the embedding layer dropped. *)
Definition forward_batch (inputs : BatchEncoding) (batch_size : Z) (i : nat)
    : M (list (list (list hvec))) :=
  hidden <- call_model (py_slice (input_ids inputs) i batch_size)
                       (py_slice (attention_mask inputs) i batch_size) ;;
  stacked <- lift (torch_stack hidden) ;;
  ret (tl stacked).

(** One entry of the cache: the hidden states of row [i] at the last
    token of the subject, at every layer. *)
Definition cache_subject (hidden_states : list (list (list hvec)))
    (offsets : list (list (Z * Z)))
    (hs_by_subj : gmap string (list hvec)) (item : nat * (string * string))
    : M (gmap string (list hvec)) :=
  let '(i, (subj, prompt)) := item in
  offsets_i <- lift (py_index offsets (Z.of_nat i)) ;;
  ' (_, h_index) <- call_find_token_range prompt subj offsets_i ;;
  let h_index := (h_index - 1)%Z in
  h <- lift (rmap (fun layer =>
                     let? row := py_index layer (Z.of_nat i) in
                     py_index row h_index)
                  hidden_states) ;;
  ret (<[subj := h]> hs_by_subj).

Definition enumerate {A} (l : list A) : list (nat * A) :=
  combine (seq 0 (length l)) l.

Definition _precompute_hs (prompt_template : string) (subjects : list string)
    (examples : option (list RelationSample)) (batch_size : Z)
    : M (gmap string (list hvec)) :=
  prompts <- for_each (fun subj => call_make_prompt prompt_template subj examples)
                      subjects ;;
  inputs <- call_tokenizer prompts ;;
  let offsets := offset_mapping inputs in
  starts <- lift (py_range_step (length (input_ids inputs)) batch_size) ;;
  batched_hidden_states <- for_each (forward_batch inputs batch_size) starts ;;
  hidden_states <- lift (torch_cat_dim1 batched_hidden_states) ;;
  fold_each (cache_subject hidden_states offsets) ∅
            (enumerate (combine subjects prompts)).

(** *** The beta grid, the layer loop and the trial loop *)

(** The body of [for beta in betas]. [lb] is the operator's bias tensor,
    [bias] the clone taken before the loop. The list [recalls_by_beta]
    of the source is written and never read; it is left out. *)
Definition beta_body (operator : Operator) (lb bias : nat)
    (test_subjects : list string) (test_hs : list hvec)
    (test_objects : list string) (recall_k : Z) (beta : Q)
    : M SweepFaithfulnessBetaResults :=
  original <- tensor_read bias ;;
  tensor_write lb (tensor_scale original beta) ;;;
  pred_objects <- for_each (fun '(subj, h) => call_operator operator subj h recall_k)
                           (combine test_subjects test_hs) ;;
  r <- call_recall pred_objects test_objects ;;
  ret {| br_beta := beta; br_recall := r |}.

Definition beta_loop (operator : Operator) (lb bias : nat)
    (test_subjects : list string) (test_hs : list hvec)
    (test_objects : list string) (recall_k : Z) (betas : list Q)
    : M (list SweepFaithfulnessBetaResults) :=
  for_each (beta_body operator lb bias test_subjects test_hs test_objects recall_k)
           betas.

(** [hs_by_subj[x.subject][h_layer, None]] *)
Definition cache_lookup (hs_by_subj : gmap string (list hvec)) (h_layer : Z)
    (x : RelationSample) : result hvec :=
  match hs_by_subj !! subject x with
  | None => Raise KeyError
  | Some h => py_index h h_layer
  end.

(** Lines 209 to 231: the assertion on the fitted bias, its clone, the
    test inputs and the beta grid. *)
Definition evaluate_operator (operator : Operator)
    (test_relation : Relation) (hs_by_subj : gmap string (list hvec))
    (h_layer recall_k : Z) (betas : list Q)
    : M (list SweepFaithfulnessBetaResults) :=
  lb <- lift (match op_bias operator with
              | Some l => Ok l
              | None => Raise AssertionError
              end) ;;
  bias <- tensor_clone lb ;;
  let test_samples := samples test_relation in
  let test_subjects := map subject test_samples in
  test_hs <- lift (rmap (cache_lookup hs_by_subj h_layer) test_samples) ;;
  let test_objects := map object test_samples in
  beta_loop operator lb bias test_subjects test_hs test_objects recall_k betas.

(** The body of [for h_layer in h_layers]. *)
Definition layer_body (relation : Relation) (prompt_template : string)
    (train_samples : list RelationSample) (test_relation : Relation)
    (hs_by_subj : gmap string (list hvec)) (recall_k : Z) (betas : list Q)
    (h_layer : Z) : M SweepFaithfulnessLayerResults :=
  log INFO (BeginLayer h_layer) ;;;
  operator <- call_estimator h_layer
                (Relation_set relation train_samples [prompt_template]) ;;
  results_by_beta <- evaluate_operator operator test_relation hs_by_subj
                       h_layer recall_k betas ;;
  let train_result :=
    {| tr_samples := train_samples; tr_betas := results_by_beta |} in
  SweepFaithfulnessTrainResults_summarize train_result ;;;
  ret {| lr_layer := h_layer; lr_result := train_result |}.

Definition layer_loop (relation : Relation) (prompt_template : string)
    (train_samples : list RelationSample) (test_relation : Relation)
    (hs_by_subj : gmap string (list hvec)) (recall_k : Z) (betas : list Q)
    (h_layers : list Z) : M (list SweepFaithfulnessLayerResults) :=
  for_each (layer_body relation prompt_template train_samples test_relation
              hs_by_subj recall_k betas)
           h_layers.

(** The body of [for trial in range(n_trials)]; [None] is [continue]. *)
Definition trial_body (relation : Relation) (prompt_template : string)
    (h_layers : list Z) (betas : list Q)
    (n_trials n_train_samples recall_k batch_size : Z) (trial : Z)
    : M (option SweepFaithfulnessTrialResults) :=
  log INFO (BeginTrial (trial + 1) n_trials) ;;;
  if (Z.of_nat (length (samples relation)) <=? n_train_samples)%Z then
    log WARNING (NotEnoughSamples (Z.of_nat (length (samples relation)))
                                  (name relation) n_train_samples) ;;;
    ret None
  else
    ' (train_relation, test_relation) <- Relation_split relation n_train_samples ;;
    let train_samples := samples train_relation in
    let train_icl_samples := py_drop_last train_samples in
    log INFO (WillTrainUsing train_samples) ;;;
    log INFO (WillDoIcl train_icl_samples) ;;;
    hs_by_subj <- _precompute_hs prompt_template
                    (map subject (samples relation))
                    (Some train_icl_samples) batch_size ;;
    layer_results <- layer_loop relation prompt_template train_samples
                       test_relation hs_by_subj recall_k betas h_layers ;;
    ret (Some {| trial_prompt_template := prompt_template;
                 trial_train_samples := train_samples;
                 trial_layers := layer_results |}).

(** [range(n)] *)
Definition py_range (n : Z) : list Z := map Z.of_nat (seq 0 (Z.to_nat n)).

Definition trial_loop (relation : Relation) (prompt_template : string)
    (h_layers : list Z) (betas : list Q)
    (n_trials n_train_samples recall_k batch_size : Z)
    : M (list SweepFaithfulnessTrialResults) :=
  for_each_opt (trial_body relation prompt_template h_layers betas
                  n_trials n_train_samples recall_k batch_size)
               (py_range n_trials).

(** *** The relation sweep driver *)

(** Lines 161 to 256: what the driver does for a relation that was not
    loaded from the checkpoint store. *)
Definition sweep_relation (relation : Relation)
    (h_layers : list Z) (betas : list Q)
    (n_trials n_train_samples recall_k batch_size : Z)
    : M SweepFaithfulnessRelationResults :=
  prompt_template <- lift (py_index (prompt_templates relation) 0) ;;
  trial_results <- trial_loop relation prompt_template h_layers betas
                     n_trials n_train_samples recall_k batch_size ;;
  let relation_result :=
    {| relation_name := name relation; trials := trial_results |} in
  SweepFaithfulnessRelationResults_summarize relation_result 1 ;;;
  save_results_file (name relation) relation_result ;;;
  ret relation_result.

(** The body of [for ri, relation in enumerate(dataset.relations)]. *)
Definition relation_body (n_relations : nat)
    (h_layers : list Z) (betas : list Q)
    (n_trials n_train_samples recall_k batch_size : Z) (resume : bool)
    (item : nat * Relation) : M SweepFaithfulnessRelationResults :=
  let '(ri, relation) := item in
  log INFO (BeginRelation (name relation) (Z.of_nat ri + 1) (Z.of_nat n_relations)) ;;;
  loaded <- load_results_file (name relation) resume ;;
  match loaded with
  | Some relation_result =>
      log INFO (LoadedPrevious (name relation)) ;;;
      ret relation_result
  | None =>
      sweep_relation relation h_layers betas
        n_trials n_train_samples recall_k batch_size
  end.

(** [torch.linspace(0, 1, steps=21).tolist()] *)
Definition default_betas : list Q :=
  map (fun i => (Z.of_nat i # 20)%Q) (seq 0 21).

Definition sweep_faithfulness (dataset : RelationDataset)
    (h_layers : option (list Z)) (betas : option (list Q))
    (n_trials n_train_samples recall_k batch_size : Z) (resume : bool)
    : M SweepFaithfulnessResuts :=
  let h_layers := match h_layers with Some l => l | None => determine_layers end in
  let betas := match betas with Some l => l | None => default_betas end in
  log INFO BeginSweep ;;;
  relation_results <-
    for_each (relation_body (length (relations dataset)) h_layers betas
                n_trials n_train_samples recall_k batch_size resume)
             (enumerate (relations dataset)) ;;
  ret {| sweep_relations := relation_results |}.

End Sweep.

Arguments res {C A} o.
Arguments final {C A} o.
Arguments trace {C A} o.

Notation "x <- m ;; k" := (bind m (fun x => k))
  (at level 20, m at level 99, k at level 200).
Notation "' pat <- m ;; k" := (bind m (fun x => match x with pat => k end))
  (at level 20, pat pattern, m at level 99, k at level 200).
Notation "m ;;; k" := (bind m (fun _ => k))
  (at level 100, k at level 200, right associativity).

(** ** Vocabulary of the properties *)

(** Recall at position [k], counted from 1, of a beta result that
    recorded at least [k] positions. *)
Definition recall_at (k : Z) (x : SweepFaithfulnessBetaResults) : Q :=
  nth (Z.to_nat (k - 1)) (br_recall x) (0 # 1)%Q.

(** A computation [m] satisfies [sat I E Q] when, from every world, the
    world it ends in is related to the initial one by [I], every event it
    emits is in [E], and its value, when it returns one, is in [Q]. The
    first two hold whether or not [m] raises. *)
Definition sat {C : Collaborators} {A} (I : world -> world -> Prop)
    (E : event -> Prop) (Q : A -> Prop) (m : M A) : Prop :=
  forall w,
    I w (final (m w)) /\
    Forall E (trace (m w)) /\
    (forall a, res (m w) = Ok a -> Q a).

Definition any {A} : A -> Prop := fun _ => True.

(** World relations: nothing changes; the checkpoint store is kept. *)
Definition same_world {C : Collaborators} (w w' : world) : Prop := w' = w.
Definition same_checkpoints {C : Collaborators} (w w' : world) : Prop :=
  checkpoints w' = checkpoints w.

(** The result recorded for a relation none of whose trials ran. *)
Definition empty_results (relation : Relation) : SweepFaithfulnessRelationResults :=
  {| relation_name := name relation; trials := [] |}.

(** The calls to the prompt renderer, to the tokenizer and to the
    estimator found in a trace, in order, with their arguments. *)
Definition make_prompt_calls {C : Collaborators} (tr : list event)
    : list (string * string * option (list RelationSample)) :=
  flat_map (fun ev => match ev with
                      | CallMakePrompt t s ex => [(t, s, ex)]
                      | _ => []
                      end) tr.

Definition tokenizer_calls {C : Collaborators} (tr : list event)
    : list (list string) :=
  flat_map (fun ev => match ev with
                      | CallTokenizer prompts => [prompts]
                      | _ => []
                      end) tr.

Definition estimator_calls {C : Collaborators} (tr : list event)
    : list (Z * Relation) :=
  flat_map (fun ev => match ev with
                      | CallEstimator h rel => [(h, rel)]
                      | _ => []
                      end) tr.

(** An event that renders a prompt or fits an estimator does so with
    the template [t] and no other. *)
Definition uses_template {C : Collaborators} (t : string) (ev : event) : Prop :=
  match ev with
  | CallMakePrompt pt _ _ => pt = t
  | CallEstimator _ rel => prompt_templates rel = [t]
  | _ => True
  end.

(** Events of the driver that involve no trial computation: log records
    and reads of the checkpoint store. *)
Definition is_bookkeeping {C : Collaborators} (ev : event) : Prop :=
  match ev with
  | Log _ _ | CallLoad _ _ => True
  | _ => False
  end.

(** The events of a trial after its prompts were rendered and
    tokenized: no further rendering or tokenizing, and every estimator
    call is on the relation [rel]. *)
Definition after_tokenizing {C : Collaborators} (rel : Relation) (ev : event)
    : Prop :=
  match ev with
  | CallMakePrompt _ _ _ | CallTokenizer _ => False
  | CallEstimator _ rel' => rel' = rel
  | _ => True
  end.

(** Events other than estimator calls. *)
Definition fits_nothing {C : Collaborators} (ev : event) : Prop :=
  match ev with
  | CallEstimator _ _ => False
  | _ => True
  end.

(** The world after [operator.bias[:] = t]. *)
Definition with_bias {C : Collaborators} (w : world) (lb : nat) (t : list Q) : world :=
  {| checkpoints := checkpoints w; random := random w;
     heap := <[lb := t]> (heap w); next_loc := next_loc w |}.

(** What the beta grid is expected to produce for one beta when the
    untouched fitted bias is [b0]: the predictions of the operator with
    bias [b0 * beta] on every test subject, their recall, and the calls
    that compute them. *)
Definition predictions_at {C : Collaborators} (operator : Operator)
    (b0 : list Q) (test_subjects : list string) (test_hs : list hvec)
    (recall_k : Z) (beta : Q) : list (list string) :=
  map (fun '(subj, h) =>
         predict (op_weight operator) (Some (tensor_scale b0 beta))
                 subj h recall_k)
      (combine test_subjects test_hs).

Definition beta_result_at {C : Collaborators} (operator : Operator)
    (b0 : list Q) (test_subjects : list string) (test_hs : list hvec)
    (test_objects : list string) (recall_k : Z) (beta : Q)
    : SweepFaithfulnessBetaResults :=
  {| br_beta := beta;
     br_recall :=
       recall (predictions_at operator b0 test_subjects test_hs recall_k beta)
              test_objects |}.

Definition beta_events_at {C : Collaborators} (operator : Operator)
    (b0 : list Q) (test_subjects : list string) (test_hs : list hvec)
    (test_objects : list string) (recall_k : Z) (beta : Q) : list event :=
  map (fun '(subj, h) =>
         CallOperator (Some (tensor_scale b0 beta)) subj h recall_k)
      (combine test_subjects test_hs)
  ++ [CallRecall (predictions_at operator b0 test_subjects test_hs recall_k beta)
                 test_objects].

(** The forward pass treats the rows of a batch independently: layer
    [l] of the output on a batch is [layer_hs l] mapped over its rows. *)
Definition rowwise_model {C : Collaborators} (n_hidden : nat)
    (layer_hs : nat -> list Z * list Z -> list hvec) : Prop :=
  forall ids mask,
    mt_model ids mask =
    map (fun l => map (layer_hs l) (combine ids mask)) (seq 0 n_hidden).

(** ** A small concrete setting

    Collaborators simple enough to run the sweep by evaluation: the
    splitter takes the first [n] samples, the model adds the layer number
    to every token id, every operator is fitted with bias [[2; 4]]. *)

Definition toy_model (ids mask : list (list Z)) : list (list (list Z)) :=
  map (fun l => map (fun '(r, _) => map (fun t => (t + Z.of_nat l)%Z) r)
                    (combine ids mask))
      (seq 0 3).

Definition toy : Collaborators := {|
  hvec := Z;
  weight := unit;
  rng := nat;
  determine_layers := [0; 1]%Z;
  make_prompt := fun t s _ => String.append t s;
  tokenizer := fun prompts =>
    {| input_ids := map (fun p => [Z.of_nat (String.length p); 7%Z]) prompts;
       attention_mask := map (fun _ => [1; 1]%Z) prompts;
       offset_mapping := map (fun _ => [(0, 1); (1, 2)]%Z) prompts |};
  mt_model := toy_model;
  find_token_range := fun _ _ _ => Ok (0, 1)%Z;
  estimator := fun _ _ => Ok (tt, Some [2 # 1; 4 # 1]%Q);
  predict := fun _ _ s _ _ => [s];
  recall := fun preds _ => [(Z.of_nat (length preds) # 1)%Q];
  draw_split := fun g l n =>
    (Ok (firstn (Z.to_nat n) l, skipn (Z.to_nat n) l), S g);
|}.

Definition toy_world : world (C := toy) :=
  @Build_world toy ∅ 0%nat ∅ 0%nat.

Definition sample (s o : string) : RelationSample :=
  {| subject := s; object := o |}.

(** A relation result with one trial and two layers: layer 3 is ahead at
    recall position 1, layer 5 at recall position 2. *)
Definition two_layer_results : SweepFaithfulnessRelationResults :=
  {| relation_name := "capital of";
     trials :=
       [ {| trial_prompt_template := "{} is the capital of";
            trial_train_samples := [sample "Paris" "France"];
            trial_layers :=
              [ {| lr_layer := 3;
                   lr_result :=
                     {| tr_samples := [sample "Paris" "France"];
                        tr_betas := [ {| br_beta := 1 # 1;
                                         br_recall := [1 # 2; 1 # 2]%Q |} ] |} |};
                {| lr_layer := 5;
                   lr_result :=
                     {| tr_samples := [sample "Paris" "France"];
                        tr_betas := [ {| br_beta := 1 # 1;
                                         br_recall := [2 # 5; 9 # 10]%Q |} ] |} |} ]
         |} ] |}.

(** A relation with three samples and two prompt templates; the same
    relation with another second template; and a one-sample relation
    that bears the same name. *)
Definition capitals : Relation :=
  {| name := "capital of";
     prompt_templates := ["{} is the capital of"; "The capital city {} lies in"];
     samples := [sample "Paris" "France"; sample "Rome" "Italy";
                 sample "Madrid" "Spain"] |}.

Definition capitals_reworded : Relation :=
  {| name := "capital of";
     prompt_templates := ["{} is the capital of"; "{}, capital of"];
     samples := samples capitals |}.

Definition capitals_stub : Relation :=
  {| name := "capital of";
     prompt_templates := ["{} is the capital of"];
     samples := [sample "Lima" "Peru"] |}.

(** A fitted operator whose bias tensor sits at location 0 and holds
    [[2; 4]], one test sample and its cached hidden states. *)
Definition toy_operator : Operator (C := toy) :=
  @Build_Operator toy tt (Some 0%nat).

Definition fitted_world : world (C := toy) :=
  @Build_world toy ∅ 0%nat {[ 0%nat := [2 # 1; 4 # 1]%Q ]} 1%nat.

Definition rome_only : Relation :=
  {| name := "capital of";
     prompt_templates := ["{} is the capital of"];
     samples := [sample "Rome" "Italy"] |}.

Definition rome_cache : gmap string (list Z) :=
  {[ "Rome"%string := [5; 6]%Z ]}.

(** Layer [l] of [toy_model] on one row. *)
Definition toy_layer_hs (l : nat) (row : list Z * list Z) : list Z :=
  map (fun t => (t + Z.of_nat l)%Z) (fst row).

(** ** Vocabulary of the further properties *)

(** What one layer result contributes to [by_layer(k)]: its layer, the
    beta of its best beta result (best at recall position 1) and that
    result's recall at position [k]. *)
Definition layer_contribution (k : Z) (lr : SweepFaithfulnessLayerResults)
    : result (Z * Q * Q) :=
  let? best := SweepFaithfulnessTrainResults_best (lr_result lr) 1 in
  let? r := py_index (br_recall best) (k - 1) in
  Ok (lr_layer lr, br_beta best, r).

(** The layer results of all trials, trial after trial. *)
Definition all_layer_results (self : SweepFaithfulnessRelationResults)
    : list SweepFaithfulnessLayerResults :=
  flat_map trial_layers (trials self).

(** The elements of a list without repetition, each at the place of its
    first occurrence. *)
Fixpoint first_occurrences (l : list Z) : list Z :=
  match l with
  | [] => []
  | x :: l' => x :: List.filter (fun y => negb (y =? x)%Z) (first_occurrences l')
  end.

Definition contribution_layer (c : Z * Q * Q) : Z := fst (fst c).

(** The contributions to one layer, in order. *)
Definition contributions_to (layer : Z) (cs : list (Z * Q * Q))
    : list (Z * Q * Q) :=
  List.filter (fun c => (contribution_layer c =? layer)%Z) cs.

Definition layer_summary_of (cs : list (Z * Q * Q)) (layer : Z)
    : SweepFaithfulnessLayerSummary :=
  {| ls_layer := layer;
     ls_beta := aggregate (map (fun c => snd (fst c)) (contributions_to layer cs));
     ls_recall := aggregate (map snd (contributions_to layer cs)) |}.

(** A trial result has the shape of the sweep's grid: one layer result
    per layer of [h_layers], in order, each with one beta result per
    beta of [betas], in order, and with the trial's train samples. *)
Definition grid_shaped (h_layers : list Z) (betas : list Q)
    (t : SweepFaithfulnessTrialResults) : Prop :=
  map lr_layer (trial_layers t) = h_layers /\
  Forall (fun lr =>
            map br_beta (tr_betas (lr_result lr)) = betas /\
            tr_samples (lr_result lr) = trial_train_samples t)
         (trial_layers t).

(** Every result of the checkpoint store is stored under its own
    relation name. *)
Definition named_after_keys {C : Collaborators} (w : world) : Prop :=
  forall key rr, checkpoints w !! key = Some rr -> relation_name rr = key.

(** * Properties *)

(** ** Indexing and [max] *)

Lemma py_index_in_range {A} (l : list A) (i : Z) :
  (0 <= i < Z.of_nat (length l))%Z ->
  exists x, py_index l i = Ok x /\ nth_error l (Z.to_nat i) = Some x.
Proof.
  intros Hi. unfold py_index.
  destruct (Z.ltb_spec i 0) as [Hneg|_]; [lia|].
  destruct (Z.leb_spec 0 i) as [_|Hneg]; [|lia].
  destruct (Z.ltb_spec i (Z.of_nat (length l))) as [_|Hge]; [|lia].
  simpl. destruct (nth_error l (Z.to_nat i)) as [x|] eqn:Hx.
  - exists x. auto.
  - apply nth_error_None in Hx. lia.
Qed.

Lemma py_index_head {A} (x : A) (l : list A) : py_index (x :: l) 0 = Ok x.
Proof.
  destruct (@py_index_in_range A (x :: l) 0%Z) as [y [Hy Hn]].
  - simpl length. lia.
  - simpl in Hn. congruence.
Qed.

Lemma py_index_nil {A} (i : Z) : py_index (@nil A) i = Raise IndexError.
Proof.
  unfold py_index. simpl length. change (Z.of_nat 0) with 0%Z.
  destruct (Z.ltb_spec i 0) as [Hi|Hi].
  - destruct (Z.leb_spec 0 (i + 0)) as [Hj|Hj]; [lia|reflexivity].
  - destruct (Z.ltb_spec i 0) as [Hj|Hj]; [lia|].
    rewrite andb_false_r. reflexivity.
Qed.

Lemma Forall_map_all {A B} (P : B -> Prop) (f : A -> B) (l : list A) :
  (forall x, P (f x)) -> Forall P (map f l).
Proof. intros H. induction l; simpl; constructor; auto. Qed.

Lemma Qgtb_true (a b : Q) : Qgtb a b = true <-> (b < a)%Q.
Proof.
  unfold Qgtb. rewrite negb_true_iff. split.
  - intros H. apply Qnot_le_lt. intros Hle.
    apply Qle_bool_iff in Hle. congruence.
  - intros H. destruct (Qle_bool a b) eqn:E; [|reflexivity].
    apply Qle_bool_iff in E. exfalso. exact (Qlt_not_le _ _ H E).
Qed.

Lemma Qgtb_false (a b : Q) : Qgtb a b = false <-> (a <= b)%Q.
Proof.
  unfold Qgtb. rewrite negb_false_iff. apply Qle_bool_iff.
Qed.

(** The running maximum of [max_loop] ends on the first item of
    [maxval :: l] whose key is the greatest. *)
Lemma max_loop_first_greatest {A} (key : A -> result Q) (f : A -> Q) :
  forall (l : list A) (m : A),
    (forall x, In x l -> key x = Ok (f x)) ->
    exists (i : nat) (b : A),
      max_loop key m (f m) l = Ok b /\
      nth_error (m :: l) i = Some b /\
      (forall x, In x (m :: l) -> (f x <= f b)%Q) /\
      (forall j x, (j < i)%nat -> nth_error (m :: l) j = Some x -> (f x < f b)%Q).
Proof.
  induction l as [|item l IH]; intros m Hkey.
  - exists 0%nat, m. simpl. repeat split.
    + intros x [<-|[]]. apply Qle_refl.
    + intros j x Hj. lia.
  - simpl. rewrite (Hkey item (or_introl eq_refl)). simpl.
    assert (Hl : forall x, In x l -> key x = Ok (f x))
      by (intros x Hx; apply Hkey; right; exact Hx).
    destruct (Qgtb (f item) (f m)) eqn:Hgt.
    + apply Qgtb_true in Hgt.
      destruct (IH item Hl) as (i & b & Hres & Hnth & Hmax & Hfirst).
      exists (S i), b. repeat split; auto.
      * intros x [<-|Hx].
        -- apply Qlt_le_weak. eapply Qlt_le_trans; [exact Hgt|].
           apply Hmax. left. reflexivity.
        -- apply Hmax. exact Hx.
      * intros [|j] x Hj Hx; simpl in Hx.
        -- injection Hx as <-. eapply Qlt_le_trans; [exact Hgt|].
           apply Hmax. left. reflexivity.
        -- apply (Hfirst j x); [lia|exact Hx].
    + apply Qgtb_false in Hgt.
      destruct (IH m Hl) as (i & b & Hres & Hnth & Hmax & Hfirst).
      destruct i as [|i].
      * exists 0%nat, b. simpl in Hnth. repeat split; auto.
        -- intros x [<-|[<-|Hx]].
           ++ apply Hmax. left. reflexivity.
           ++ injection Hnth as <-. exact Hgt.
           ++ apply Hmax. right. exact Hx.
        -- intros j x Hj. lia.
      * exists (S (S i)), b. simpl in Hnth. repeat split; auto.
        -- intros x [<-|[<-|Hx]].
           ++ apply Hmax. left. reflexivity.
           ++ eapply Qle_trans; [exact Hgt|]. apply Hmax. left. reflexivity.
           ++ apply Hmax. right. exact Hx.
        -- intros [|[|j]] x Hj Hx; simpl in Hx.
           ++ injection Hx as <-. apply (Hfirst 0%nat); [lia|reflexivity].
           ++ injection Hx as <-. eapply Qle_lt_trans; [exact Hgt|].
              apply (Hfirst 0%nat); [lia|reflexivity].
           ++ apply (Hfirst (S j) x); [lia|exact Hx].
Qed.

Lemma recall_at_index (k : Z) (x : SweepFaithfulnessBetaResults) :
  (1 <= k <= Z.of_nat (length (br_recall x)))%Z ->
  py_index (br_recall x) (k - 1) = Ok (recall_at k x).
Proof.
  intros Hk.
  destruct (@py_index_in_range Q (br_recall x) (k - 1)%Z) as [y [Hy Hn]]; [lia|].
  rewrite Hy. unfold recall_at. f_equal.
  symmetry. apply nth_error_nth. exact Hn.
Qed.

(** C3. For [k >= 1] and a non-empty list of beta results that all
    recorded recall up to position [k], [TrainResults.best(k)] returns a
    beta result of the list whose recall\@k is maximal among all betas
    tried, and it is the first such one in list order: every earlier
    beta has a strictly smaller recall\@k. *)
Theorem TrainResults_best_first_argmax
    (self : SweepFaithfulnessTrainResults) (k : Z) :
  (1 <= k)%Z ->
  tr_betas self <> [] ->
  (forall x, In x (tr_betas self) -> (k <= Z.of_nat (length (br_recall x)))%Z) ->
  exists (i : nat) (b : SweepFaithfulnessBetaResults),
    SweepFaithfulnessTrainResults_best self k = Ok b /\
    nth_error (tr_betas self) i = Some b /\
    (forall x, In x (tr_betas self) -> (recall_at k x <= recall_at k b)%Q) /\
    (forall j x, (j < i)%nat -> nth_error (tr_betas self) j = Some x ->
                 (recall_at k x < recall_at k b)%Q).
Proof.
  intros Hk Hne Hlen. unfold SweepFaithfulnessTrainResults_best.
  destruct (tr_betas self) as [|m l]; [congruence|].
  unfold py_max.
  assert (Hkey : forall x, In x (m :: l) ->
                 py_index (br_recall x) (k - 1) = Ok (recall_at k x)).
  { intros x Hx. apply recall_at_index. split; [exact Hk|apply Hlen, Hx]. }
  rewrite (Hkey m (or_introl eq_refl)). simpl.
  apply max_loop_first_greatest.
  intros x Hx. apply Hkey. right. exact Hx.
Qed.

(** Without any beta result there is no best one. *)
Lemma TrainResults_best_empty (self : SweepFaithfulnessTrainResults) (k : Z) :
  tr_betas self = [] ->
  SweepFaithfulnessTrainResults_best self k = Raise ValueError.
Proof.
  intros Hnone. unfold SweepFaithfulnessTrainResults_best. rewrite Hnone.
  reflexivity.
Qed.

(** ** [RelationResults.best] *)

(** [best] never looks at its argument [k]. *)
Lemma RelationResults_best_ignores_k
    (self : SweepFaithfulnessRelationResults) (k k' : Z) :
  SweepFaithfulnessRelationResults_best self k =
  SweepFaithfulnessRelationResults_best self k'.
Proof. reflexivity. Qed.

(** C1. On [two_layer_results], [RelationResults.best(2)] returns the
    summary of layer 3, whose aggregated recall is the recall\@1 of that
    layer, although by [by_layer(2)] layer 5 has the strictly greater
    mean recall\@2: the layer returned for [k = 2] is not the one with
    maximal mean recall\@2. *)
Theorem RelationResults_best_not_argmax_at_2 :
  exists s3 by2 s3' s5,
    SweepFaithfulnessRelationResults_best two_layer_results 2 = Ok s3 /\
    ls_layer s3 = 3%Z /\
    (mean (ls_recall s3) == 1 # 2)%Q /\
    SweepFaithfulnessRelationResults_by_layer two_layer_results 2 = Ok by2 /\
    dict_get by2 3 = Ok s3' /\
    dict_get by2 5 = Ok s5 /\
    (mean (ls_recall s3') < mean (ls_recall s5))%Q.
Proof.
  do 4 eexists. repeat split; try (vm_compute; reflexivity).
Qed.

(** ** Reasoning about the sweep monad *)

Section Monad.

Context {C : Collaborators}.

Lemma bind_ok {A B} (m : M A) (f : A -> M B) (w : world) (a : A) :
  res (m w) = Ok a ->
  bind m f w =
  {| res := res (f a (final (m w)));
     final := final (f a (final (m w)));
     trace := trace (m w) ++ trace (f a (final (m w))) |}.
Proof. intros H. unfold bind. rewrite H. reflexivity. Qed.

Lemma bind_raise {A B} (m : M A) (f : A -> M B) (w : world) (e : exn) :
  res (m w) = Raise e ->
  bind m f w = {| res := Raise e; final := final (m w); trace := trace (m w) |}.
Proof. intros H. unfold bind. rewrite H. reflexivity. Qed.

Lemma bind_run {A B} (m : M A) (f : A -> M B) (w w' : world) (a : A)
    (tr : list event) :
  m w = {| res := Ok a; final := w'; trace := tr |} ->
  bind m f w =
  {| res := res (f a w'); final := final (f a w'); trace := tr ++ trace (f a w') |}.
Proof. intros H. unfold bind. rewrite H. reflexivity. Qed.

(** The events of [m] always open the trace of [bind m f]. *)
Lemma trace_bind_prefix {A B} (m : M A) (f : A -> M B) (w : world) :
  exists rest, trace (bind m f w) = trace (m w) ++ rest /\
    (rest = [] \/ exists a, res (m w) = Ok a /\ rest = trace (f a (final (m w)))).
Proof.
  destruct (res (m w)) as [a|e] eqn:R.
  - rewrite (bind_ok m f w a R). simpl. eexists. split; [reflexivity|].
    right. exists a. auto.
  - rewrite (bind_raise m f w e R). simpl. exists []. rewrite app_nil_r. auto.
Qed.

Section Sat.

Variable I : world -> world -> Prop.
Variable E : event -> Prop.
Hypothesis I_refl : forall w, I w w.
Hypothesis I_trans : forall w1 w2 w3, I w1 w2 -> I w2 w3 -> I w1 w3.

Lemma sat_ret {A} (Q : A -> Prop) (a : A) : Q a -> sat I E Q (ret a).
Proof.
  intros Ha w. simpl. repeat split; auto.
  intros a' [= <-]. exact Ha.
Qed.

Lemma sat_lift {A} (Q : A -> Prop) (r : result A) :
  (forall a, r = Ok a -> Q a) -> sat I E Q (lift r).
Proof. intros Hr w. simpl. repeat split; auto. Qed.

Lemma sat_emit (ev : event) : E ev -> sat I E any (emit ev).
Proof.
  intros Hev w. simpl. repeat split; auto.
Qed.

Lemma sat_weaken {A} (Q Q' : A -> Prop) (m : M A) :
  sat I E Q m -> (forall a, Q a -> Q' a) -> sat I E Q' m.
Proof.
  intros Hm HQ w. destruct (Hm w) as (HI & HE & Hres).
  repeat split; auto.
Qed.

Lemma sat_bind {A B} (QA : A -> Prop) (QB : B -> Prop) (m : M A) (f : A -> M B) :
  sat I E QA m -> (forall a, QA a -> sat I E QB (f a)) -> sat I E QB (bind m f).
Proof.
  intros Hm Hf w. destruct (Hm w) as (HI & HE & Hres).
  destruct (res (m w)) as [a|e] eqn:R.
  - rewrite (bind_ok m f w a R). simpl.
    destruct (Hf a (Hres a eq_refl) (final (m w))) as (HI' & HE' & Hres').
    repeat split.
    + eapply I_trans; eassumption.
    + apply Forall_app. split; assumption.
    + exact Hres'.
  - rewrite (bind_raise m f w e R). simpl. repeat split; auto.
    intros a [=].
Qed.

Lemma sat_for_each {A B} (Q : B -> Prop) (body : A -> M B) (l : list A) :
  (forall x, In x l -> sat I E Q (body x)) ->
  sat I E (Forall Q) (for_each body l).
Proof.
  induction l as [|x l IH]; intros Hbody; simpl.
  - apply sat_ret. constructor.
  - eapply sat_bind; [apply Hbody; left; reflexivity|].
    intros y Hy. eapply sat_bind.
    + apply IH. intros x' Hx'. apply Hbody. right. exact Hx'.
    + intros ys Hys. apply sat_ret. constructor; assumption.
Qed.

Lemma sat_for_each_opt {A B} (Q : B -> Prop) (body : A -> M (option B))
    (l : list A) :
  (forall x, In x l -> sat I E (fun o => forall y, o = Some y -> Q y) (body x)) ->
  sat I E (Forall Q) (for_each_opt body l).
Proof.
  induction l as [|x l IH]; intros Hbody; simpl.
  - apply sat_ret. constructor.
  - eapply sat_bind; [apply Hbody; left; reflexivity|].
    intros y Hy. eapply sat_bind.
    + apply IH. intros x' Hx'. apply Hbody. right. exact Hx'.
    + intros ys Hys. apply sat_ret.
      destruct y as [y'|]; [constructor; auto|exact Hys].
Qed.

Lemma sat_fold_each {A B} (body : B -> A -> M B) (l : list A) :
  (forall acc x, In x l -> sat I E any (body acc x)) ->
  forall acc, sat I E any (fold_each body acc l).
Proof.
  induction l as [|x l IH]; intros Hbody acc; simpl.
  - apply sat_ret. exact Logic.I.
  - eapply sat_bind; [apply Hbody; left; reflexivity|].
    intros acc' _. apply IH. intros a x' Hx'. apply Hbody. right. exact Hx'.
Qed.

End Sat.

End Monad.

(** ** What each stage of the sweep may do

    For every stage, one lemma bounds the change of the world and the
    events emitted, for any world relation [I] closed under the updates
    the stage performs and any event set [E] containing the events it
    emits. *)

Section Stages.

Context {C : Collaborators}.

Variable I : world -> world -> Prop.
Variable E : event -> Prop.
Hypothesis I_refl : forall w, I w w.
Hypothesis I_trans : forall w1 w2 w3, I w1 w2 -> I w2 w3 -> I w1 w3.

Lemma sat_any {A} (Q : A -> Prop) (m : M A) : sat I E Q m -> sat I E any m.
Proof. intros H. eapply sat_weaken; [exact H|]. intros; exact Logic.I. Qed.

Ltac sbind := eapply (sat_bind I E I_trans any); [ | intros ? _].
Ltac sret := apply (sat_ret I E I_refl); try exact Logic.I.
Ltac slift := apply (sat_lift I E I_refl); try (intros; exact Logic.I).
Ltac semit := apply (sat_emit I E I_refl); try solve [auto].
Ltac seach :=
  eapply sat_any; apply (sat_for_each I E I_refl I_trans any).
Ltac sfold := apply (sat_fold_each I E I_refl I_trans).


Section Precompute.

Hypothesis E_model : forall ids mask, E (CallModel ids mask).
Hypothesis E_find : forall p s o, E (CallFindTokenRange p s o).

Lemma forward_batch_sat (inputs : BatchEncoding) (batch_size : Z) (i : nat) :
  sat I E any (forward_batch inputs batch_size i).
Proof.
  unfold forward_batch, call_model.
  sbind. { sbind; [semit|sret]. }
  sbind; [slift|sret].
Qed.

Lemma cache_subject_sat hidden_states offsets hs_by_subj item :
  sat I E any (cache_subject hidden_states offsets hs_by_subj item).
Proof.
  unfold cache_subject, call_find_token_range.
  destruct item as [i [subj prompt]].
  sbind; [slift|].
  sbind. { sbind; [semit|slift]. }
  destruct a0 as [start h_index].
  sbind; [slift|sret].
Qed.

(** After the prompts are rendered and tokenized, [_precompute_hs] only
    runs the model and locates token ranges. *)
Lemma precompute_rest_sat (inputs : BatchEncoding) (batch_size : Z)
    (items : list (nat * (string * string))) :
  sat I E any
    (starts <- lift (py_range_step (length (input_ids inputs)) batch_size) ;;
     batched_hidden_states <- for_each (forward_batch inputs batch_size) starts ;;
     hidden_states <- lift (torch_cat_dim1 batched_hidden_states) ;;
     fold_each (cache_subject hidden_states (offset_mapping inputs)) ∅ items).
Proof.
  sbind; [slift|].
  sbind.
  { seach. intros x _. apply forward_batch_sat. }
  sbind; [slift|].
  sfold. intros acc x _. apply cache_subject_sat.
Qed.

Lemma make_prompts_run (prompt_template : string) (subjects : list string)
    (examples : option (list RelationSample)) (w : world) :
  for_each (fun subj => call_make_prompt prompt_template subj examples) subjects w =
  {| res := Ok (map (fun subj => make_prompt prompt_template subj examples) subjects);
     final := w;
     trace := map (fun subj => CallMakePrompt prompt_template subj examples) subjects |}.
Proof.
  induction subjects as [|s l IH]; [reflexivity|].
  simpl. erewrite bind_run; [|reflexivity].
  erewrite bind_run; [|apply IH]. simpl. rewrite app_nil_r. reflexivity.
Qed.

(** The trace of [_precompute_hs]: one prompt rendered per subject, in
    order, then one call to the tokenizer, then model and locator calls. *)
Lemma precompute_trace (prompt_template : string) (subjects : list string)
    (examples : option (list RelationSample)) (batch_size : Z) (w : world) :
  let o := _precompute_hs prompt_template subjects examples batch_size w in
  I w (final o) /\
  exists rest,
    trace o =
      map (fun subj => CallMakePrompt prompt_template subj examples) subjects ++
      CallTokenizer (map (fun subj => make_prompt prompt_template subj examples)
                         subjects) :: rest /\
    Forall E rest.
Proof.
  unfold _precompute_hs.
  erewrite bind_run; [|apply make_prompts_run].
  erewrite bind_run; [|reflexivity].
  cbv zeta. simpl res. simpl final. simpl trace.
  set (prompts := map (fun subj => make_prompt prompt_template subj examples) subjects).
  destruct (precompute_rest_sat (tokenizer prompts) batch_size
              (enumerate (combine subjects prompts)) w) as (HI & HE & _).
  split; [exact HI|].
  eexists. split; [reflexivity|exact HE].
Qed.

Lemma precompute_sat (prompt_template : string) (subjects : list string)
    (examples : option (list RelationSample)) (batch_size : Z) :
  (forall s, E (CallMakePrompt prompt_template s examples)) ->
  (forall prompts, E (CallTokenizer prompts)) ->
  sat I E any (_precompute_hs prompt_template subjects examples batch_size).
Proof.
  intros Hmp Htok w.
  destruct (precompute_trace prompt_template subjects examples batch_size w)
    as (HI & rest & Htr & Hrest).
  split; [exact HI|]. split; [|intros; exact Logic.I].
  rewrite Htr. apply Forall_app. split.
  - apply Forall_map_all. exact Hmp.
  - constructor; [apply Htok|exact Hrest].
Qed.

End Precompute.

Section Trial.

Hypothesis I_heap : forall w h n,
  I w {| checkpoints := checkpoints w; random := random w;
         heap := h; next_loc := n |}.
Hypothesis I_random : forall w g,
  I w {| checkpoints := checkpoints w; random := g;
         heap := heap w; next_loc := next_loc w |}.
Hypothesis E_log : forall lvl msg, E (Log lvl msg).
Hypothesis E_split : forall l n, E (CallSplit l n).
Hypothesis E_model : forall ids mask, E (CallModel ids mask).
Hypothesis E_find : forall p s o, E (CallFindTokenRange p s o).
Hypothesis E_operator : forall b s h k, E (CallOperator b s h k).
Hypothesis E_recall : forall p t, E (CallRecall p t).

Lemma tensor_alloc_sat (t : list Q) : sat I E any (tensor_alloc t).
Proof. intros w. simpl. repeat split; auto. Qed.

Lemma tensor_read_sat (l : nat) : sat I E any (tensor_read l).
Proof. intros w. simpl. repeat split; auto. Qed.

Lemma tensor_write_sat (l : nat) (t : list Q) : sat I E any (tensor_write l t).
Proof. intros w. simpl. repeat split; auto. Qed.

Lemma tensor_clone_sat (l : nat) : sat I E any (tensor_clone l).
Proof.
  unfold tensor_clone. sbind; [apply tensor_read_sat|apply tensor_alloc_sat].
Qed.

Lemma Relation_split_sat (relation : Relation) (n : Z) :
  sat I E any (Relation_split relation n).
Proof.
  intros w. unfold Relation_split.
  destruct (draw_split (random w) (samples relation) n) as [drawn g].
  simpl. repeat split; auto.
Qed.

Lemma call_estimator_sat (h_layer : Z) (relation : Relation) :
  E (CallEstimator h_layer relation) ->
  sat I E any (call_estimator h_layer relation).
Proof.
  intros He. unfold call_estimator.
  sbind; [semit|]. sbind; [slift|].
  destruct a0 as [wt [t|]].
  - sbind; [apply tensor_alloc_sat|sret].
  - sret.
Qed.

Lemma call_operator_sat (operator : Operator) (subj : string) (h : hvec) (k : Z) :
  sat I E any (call_operator operator subj h k).
Proof.
  unfold call_operator. sbind.
  - destruct (op_bias operator) as [l|]; [|sret].
    sbind; [apply tensor_read_sat|sret].
  - sbind; [semit|sret].
Qed.

Lemma call_recall_sat (predictions : list (list string)) (targets : list string) :
  sat I E any (call_recall predictions targets).
Proof. unfold call_recall. sbind; [semit|sret]. Qed.

Lemma TrainResults_summarize_sat (self : SweepFaithfulnessTrainResults) :
  sat I E any (SweepFaithfulnessTrainResults_summarize self).
Proof.
  unfold SweepFaithfulnessTrainResults_summarize, log.
  sbind; [slift|]. sbind; [slift|semit].
Qed.

Lemma RelationResults_summarize_sat (self : SweepFaithfulnessRelationResults)
    (k : Z) :
  sat I E any (SweepFaithfulnessRelationResults_summarize self k).
Proof.
  unfold SweepFaithfulnessRelationResults_summarize, log.
  sbind; [slift|]. sbind; [semit|]. sbind; [|sret].
  seach. intros [la summ] _. semit.
Qed.

Lemma beta_loop_sat operator lb bias test_subjects test_hs test_objects
    recall_k betas :
  sat I E any (beta_loop operator lb bias test_subjects test_hs test_objects
                 recall_k betas).
Proof.
  unfold beta_loop. seach. intros beta _.
  unfold beta_body.
  sbind; [apply tensor_read_sat|].
  sbind; [apply tensor_write_sat|].
  sbind.
  { seach. intros [subj h] _. apply call_operator_sat. }
  sbind; [apply call_recall_sat|sret].
Qed.

Lemma evaluate_operator_sat operator test_relation hs_by_subj h_layer recall_k
    betas :
  sat I E any (evaluate_operator operator test_relation hs_by_subj h_layer
                 recall_k betas).
Proof.
  unfold evaluate_operator.
  sbind; [slift|]. sbind; [apply tensor_clone_sat|].
  sbind; [slift|]. apply beta_loop_sat.
Qed.

Lemma layer_body_sat relation prompt_template train_samples test_relation
    hs_by_subj recall_k betas h_layer :
  E (CallEstimator h_layer
       (Relation_set relation train_samples [prompt_template])) ->
  sat I E (fun lr => lr_layer lr = h_layer)
    (layer_body relation prompt_template train_samples test_relation
       hs_by_subj recall_k betas h_layer).
Proof.
  intros He. unfold layer_body, log.
  sbind; [semit|]. sbind; [apply call_estimator_sat; exact He|].
  sbind; [apply evaluate_operator_sat|].
  sbind; [apply TrainResults_summarize_sat|].
  sret. reflexivity.
Qed.

Lemma layer_loop_sat relation prompt_template train_samples test_relation
    hs_by_subj recall_k betas h_layers :
  (forall h_layer,
     E (CallEstimator h_layer
          (Relation_set relation train_samples [prompt_template]))) ->
  sat I E any
    (layer_loop relation prompt_template train_samples test_relation
       hs_by_subj recall_k betas h_layers).
Proof.
  intros He. unfold layer_loop. seach. intros h_layer _.
  eapply sat_any. apply layer_body_sat. apply He.
Qed.

Lemma trial_body_sat relation prompt_template h_layers betas
    n_trials n_train_samples recall_k batch_size trial :
  (forall s examples, E (CallMakePrompt prompt_template s examples)) ->
  (forall prompts, E (CallTokenizer prompts)) ->
  (forall h_layer train_samples,
     E (CallEstimator h_layer
          (Relation_set relation train_samples [prompt_template]))) ->
  sat I E (fun o => forall y, o = Some y -> trial_prompt_template y = prompt_template)
    (trial_body relation prompt_template h_layers betas
       n_trials n_train_samples recall_k batch_size trial).
Proof.
  intros Hmp Htok Hest. unfold trial_body, log.
  sbind; [semit|].
  destruct (Z.of_nat (length (samples relation)) <=? n_train_samples)%Z.
  - sbind; [semit|]. sret. intros y [=].
  - sbind; [apply Relation_split_sat|].
    destruct a0 as [train_relation test_relation].
    sbind; [semit|]. sbind; [semit|].
    sbind; [apply precompute_sat; auto|].
    sbind; [apply layer_loop_sat; auto|].
    sret. intros y [= <-]. reflexivity.
Qed.

Lemma trial_loop_sat relation prompt_template h_layers betas
    n_trials n_train_samples recall_k batch_size :
  (forall s examples, E (CallMakePrompt prompt_template s examples)) ->
  (forall prompts, E (CallTokenizer prompts)) ->
  (forall h_layer train_samples,
     E (CallEstimator h_layer
          (Relation_set relation train_samples [prompt_template]))) ->
  sat I E (Forall (fun y => trial_prompt_template y = prompt_template))
    (trial_loop relation prompt_template h_layers betas
       n_trials n_train_samples recall_k batch_size).
Proof.
  intros Hmp Htok Hest. unfold trial_loop.
  apply (sat_for_each_opt I E I_refl I_trans). intros trial _.
  apply trial_body_sat; assumption.
Qed.

Lemma sweep_relation_sat relation h_layers betas
    n_trials n_train_samples recall_k batch_size :
  (forall w k v,
     I w {| checkpoints := <[k := v]> (checkpoints w); random := random w;
            heap := heap w; next_loc := next_loc w |}) ->
  (forall k v, E (CallSave k v)) ->
  (forall prompts, E (CallTokenizer prompts)) ->
  (forall pt, py_index (prompt_templates relation) 0 = Ok pt ->
     (forall s examples, E (CallMakePrompt pt s examples)) /\
     (forall h_layer train_samples,
        E (CallEstimator h_layer (Relation_set relation train_samples [pt])))) ->
  sat I E
    (fun rr => forall t, py_index (prompt_templates relation) 0 = Ok t ->
               Forall (fun y => trial_prompt_template y = t) (trials rr))
    (sweep_relation relation h_layers betas
       n_trials n_train_samples recall_k batch_size).
Proof.
  intros I_save E_save Htok Hpt. unfold sweep_relation.
  eapply (sat_bind I E I_trans
            (fun pt => py_index (prompt_templates relation) 0 = Ok pt)).
  { apply (sat_lift I E I_refl). auto. }
  intros pt Hhead. destruct (Hpt pt Hhead) as [Hmp Hest].
  eapply (sat_bind I E I_trans).
  { apply trial_loop_sat; assumption. }
  intros trs Htrs. simpl in Htrs.
  sbind; [apply RelationResults_summarize_sat|].
  sbind. { intros w. simpl. repeat split; auto. }
  sret. intros t Ht. rewrite Hhead in Ht. injection Ht as <-. exact Htrs.
Qed.

End Trial.

End Stages.

(** ** Loops, run step by step *)

Section Loops.

Context {C : Collaborators}.

Lemma bind_cases {A B} (m : M A) (f : A -> M B) (w : world) :
  (exists a, res (m w) = Ok a /\
     bind m f w =
     {| res := res (f a (final (m w)));
        final := final (f a (final (m w)));
        trace := trace (m w) ++ trace (f a (final (m w))) |}) \/
  (exists e, res (m w) = Raise e /\
     bind m f w =
     {| res := Raise e; final := final (m w); trace := trace (m w) |}).
Proof.
  destruct (res (m w)) as [a|e] eqn:R.
  - left. exists a. split; [reflexivity|]. apply bind_ok. exact R.
  - right. exists e. split; [reflexivity|]. apply bind_raise. exact R.
Qed.

(** A successful [for_each] ran its body successfully on the head and
    then the loop on the tail, from the world the head left. *)
Lemma for_each_cons_ok {A B} (body : A -> M B) (x : A) (l : list A)
    (w : world) (ys : list B) :
  res (for_each body (x :: l) w) = Ok ys ->
  exists y ys',
    ys = y :: ys' /\
    res (body x w) = Ok y /\
    res (for_each body l (final (body x w))) = Ok ys' /\
    final (for_each body (x :: l) w) = final (for_each body l (final (body x w))).
Proof.
  simpl. intros H.
  destruct (bind_cases (body x)
              (fun y => ys0 <- for_each body l;; ret (y :: ys0)) w)
    as [(y & Hy & Heq)|(e & He & Heq)]; rewrite Heq in H |- *; simpl in *;
    [|discriminate].
  destruct (bind_cases (for_each body l) (fun ys0 => ret (y :: ys0))
              (final (body x w)))
    as [(ys' & Hys & Heq')|(e & He & Heq')]; rewrite Heq' in H |- *; simpl in *;
    [|discriminate].
  injection H as <-. exists y, ys'. auto.
Qed.

Lemma for_each_Forall2 {A B} (R : A -> B -> Prop) (body : A -> M B) :
  (forall x w y, res (body x w) = Ok y -> R x y) ->
  forall l w ys, res (for_each body l w) = Ok ys -> Forall2 R l ys.
Proof.
  intros Hbody. induction l as [|x l IH]; intros w ys H.
  - simpl in H. injection H as <-. constructor.
  - apply for_each_cons_ok in H.
    destruct H as (y & ys' & -> & Hy & Hys & _).
    constructor; [eapply Hbody; exact Hy|eapply IH; exact Hys].
Qed.

End Loops.

(** ** The trial loop on a relation with too few samples *)

Section Driver.

Context {C : Collaborators}.

Ltac side :=
  unfold same_checkpoints, same_world, any; simpl; intros;
  try exact Logic.I; try congruence; auto.

Lemma trial_body_skips relation prompt_template h_layers betas
    n_trials n_train_samples recall_k batch_size trial w :
  (Z.of_nat (length (samples relation)) <= n_train_samples)%Z ->
  trial_body relation prompt_template h_layers betas
    n_trials n_train_samples recall_k batch_size trial w =
  {| res := Ok None; final := w;
     trace := [Log INFO (BeginTrial (trial + 1) n_trials);
               Log WARNING (NotEnoughSamples
                              (Z.of_nat (length (samples relation)))
                              (name relation) n_train_samples)] |}.
Proof.
  intros Hsmall. unfold trial_body.
  destruct (Z.leb_spec (Z.of_nat (length (samples relation))) n_train_samples);
    [reflexivity|lia].
Qed.

Lemma trial_loop_skips_run relation prompt_template h_layers betas
    n_trials n_train_samples recall_k batch_size w :
  (Z.of_nat (length (samples relation)) <= n_train_samples)%Z ->
  trial_loop relation prompt_template h_layers betas
    n_trials n_train_samples recall_k batch_size w =
  {| res := Ok []; final := w;
     trace :=
       flat_map
         (fun trial =>
            [Log INFO (BeginTrial (trial + 1) n_trials);
             Log WARNING (NotEnoughSamples
                            (Z.of_nat (length (samples relation)))
                            (name relation) n_train_samples)])
         (py_range n_trials) |}.
Proof.
  intros Hsmall. unfold trial_loop.
  induction (py_range n_trials) as [|trial l IH]; [reflexivity|].
  simpl. erewrite bind_run; [|apply trial_body_skips; exact Hsmall].
  erewrite bind_run; [|exact IH].
  simpl. rewrite app_nil_r. reflexivity.
Qed.

(** C5. When the relation has at most [n_train_samples] samples, every
    trial of the trial loop logs its start and a warning and moves on:
    the loop raises nothing, leaves the world as it was, calls no
    collaborator, and its trial list is empty, the skipped trials being
    left out of it. *)
Theorem trial_loop_skips_small_relation relation prompt_template h_layers betas
    n_trials n_train_samples recall_k batch_size w :
  (Z.of_nat (length (samples relation)) <= n_train_samples)%Z ->
  trial_loop relation prompt_template h_layers betas
    n_trials n_train_samples recall_k batch_size w =
  {| res := Ok []; final := w;
     trace :=
       flat_map
         (fun trial =>
            [Log INFO (BeginTrial (trial + 1) n_trials);
             Log WARNING (NotEnoughSamples
                            (Z.of_nat (length (samples relation)))
                            (name relation) n_train_samples)])
         (py_range n_trials) |}.
Proof. apply trial_loop_skips_run. Qed.

(** ** The driver and the checkpoint store *)

Lemma relation_body_loaded n_relations h_layers betas
    n_trials n_train_samples recall_k batch_size ri relation w rr :
  checkpoints w !! name relation = Some rr ->
  relation_body n_relations h_layers betas n_trials n_train_samples recall_k
    batch_size true (ri, relation) w =
  {| res := Ok rr; final := w;
     trace := [Log INFO (BeginRelation (name relation) (Z.of_nat ri + 1)
                           (Z.of_nat n_relations));
               CallLoad (name relation) true;
               Log INFO (LoadedPrevious (name relation))] |}.
Proof.
  intros Hrr. unfold relation_body.
  erewrite bind_run; [|reflexivity].
  erewrite bind_run; [|reflexivity].
  rewrite Hrr. reflexivity.
Qed.

Lemma relation_body_not_loaded n_relations h_layers betas
    n_trials n_train_samples recall_k batch_size resume ri relation w :
  resume = false \/ checkpoints w !! name relation = None ->
  let o := sweep_relation relation h_layers betas
             n_trials n_train_samples recall_k batch_size w in
  relation_body n_relations h_layers betas n_trials n_train_samples recall_k
    batch_size resume (ri, relation) w =
  {| res := res o; final := final o;
     trace := Log INFO (BeginRelation (name relation) (Z.of_nat ri + 1)
                          (Z.of_nat n_relations))
              :: CallLoad (name relation) resume :: trace o |}.
Proof.
  intros Hnone. unfold relation_body.
  erewrite bind_run; [|reflexivity].
  erewrite bind_run; [|reflexivity].
  assert (Hload : (if resume then checkpoints w !! name relation else None)
                  = None).
  { destruct Hnone as [->|Hnone]; [reflexivity|].
    destruct resume; [exact Hnone|reflexivity]. }
  rewrite Hload. reflexivity.
Qed.

(** A relation that is swept either raises before anything is saved, or
    returns a result that it has saved under the relation's name. *)
Lemma sweep_relation_store relation h_layers betas
    n_trials n_train_samples recall_k batch_size w :
  let o := sweep_relation relation h_layers betas
             n_trials n_train_samples recall_k batch_size w in
  (checkpoints (final o) = checkpoints w /\ exists e, res o = Raise e) \/
  (exists rr, res o = Ok rr /\
     checkpoints (final o) = <[name relation := rr]> (checkpoints w)).
Proof.
  unfold sweep_relation.
  match goal with |- context [bind ?m ?f w] =>
    destruct (bind_cases m f w) as [(pt & Hpt & ->)|(e & He & ->)] end;
    simpl; [|left; eauto].
  match goal with |- context [bind ?m ?f w] =>
    destruct (bind_cases m f w) as [(trs & Htrs & ->)|(e & He & ->)];
    destruct (trial_loop_sat same_checkpoints any
                ltac:(side) ltac:(side) ltac:(side) ltac:(side)
                ltac:(side) ltac:(side) ltac:(side) ltac:(side)
                ltac:(side) ltac:(side)
                relation pt h_layers betas n_trials n_train_samples
                recall_k batch_size ltac:(side) ltac:(side) ltac:(side) w)
      as (Hkeep & _ & _)
  end; simpl; [|left; eauto].
  unfold same_checkpoints in Hkeep.
  match goal with |- context [bind ?m ?f ?w'] =>
    destruct (bind_cases m f w') as [(u & Hu & ->)|(e & He & ->)];
    destruct (RelationResults_summarize_sat same_checkpoints any
                ltac:(side) ltac:(side) ltac:(side)
                {| relation_name := name relation; trials := trs |} 1 w')
      as (Hkeep' & _ & _)
  end; simpl; unfold same_checkpoints in Hkeep';
    [|left; split; [congruence|eauto]].
  right. eexists. split; [reflexivity|]. congruence.
Qed.

Lemma relation_body_other_keys n_relations h_layers betas
    n_trials n_train_samples recall_k batch_size resume item key w :
  key <> name (snd item) ->
  checkpoints
    (final (relation_body n_relations h_layers betas n_trials n_train_samples
              recall_k batch_size resume item w)) !! key
  = checkpoints w !! key.
Proof.
  intros Hne. destruct item as [ri relation]. simpl in Hne.
  destruct resume; [destruct (checkpoints w !! name relation) as [rr|] eqn:Hrr|].
  - erewrite relation_body_loaded by exact Hrr. reflexivity.
  - rewrite relation_body_not_loaded by (right; exact Hrr). simpl.
    destruct (sweep_relation_store relation h_layers betas n_trials
                n_train_samples recall_k batch_size w)
      as [[-> _]|(rr & _ & ->)]; [reflexivity|].
    apply lookup_insert_ne. congruence.
  - rewrite relation_body_not_loaded by (left; reflexivity). simpl.
    destruct (sweep_relation_store relation h_layers betas n_trials
                n_train_samples recall_k batch_size w)
      as [[-> _]|(rr & _ & ->)]; [reflexivity|].
    apply lookup_insert_ne. congruence.
Qed.

Lemma relation_body_keeps_entries n_relations h_layers betas
    n_trials n_train_samples recall_k batch_size item key v w :
  checkpoints w !! key = Some v ->
  checkpoints
    (final (relation_body n_relations h_layers betas n_trials n_train_samples
              recall_k batch_size true item w)) !! key
  = Some v.
Proof.
  intros Hv. destruct item as [ri relation].
  destruct (checkpoints w !! name relation) as [rr|] eqn:Hrr.
  - erewrite relation_body_loaded by exact Hrr. exact Hv.
  - rewrite <- Hv. apply relation_body_other_keys. simpl. congruence.
Qed.

Lemma relation_body_saved n_relations h_layers betas
    n_trials n_train_samples recall_k batch_size resume ri relation w rr :
  res (relation_body n_relations h_layers betas n_trials n_train_samples
         recall_k batch_size resume (ri, relation) w) = Ok rr ->
  checkpoints
    (final (relation_body n_relations h_layers betas n_trials n_train_samples
              recall_k batch_size resume (ri, relation) w)) !! name relation
  = Some rr.
Proof.
  assert (Hswept :
    res (sweep_relation relation h_layers betas n_trials n_train_samples
           recall_k batch_size w) = Ok rr ->
    checkpoints
      (final (sweep_relation relation h_layers betas n_trials n_train_samples
                recall_k batch_size w)) !! name relation = Some rr).
  { intros H.
    destruct (sweep_relation_store relation h_layers betas n_trials
                n_train_samples recall_k batch_size w)
      as [[_ [e He]]|(rr' & Hrr' & ->)]; [congruence|].
    rewrite Hrr' in H. injection H as ->. apply lookup_insert_eq. }
  destruct resume; [destruct (checkpoints w !! name relation) as [rr'|] eqn:Hrr|].
  - erewrite relation_body_loaded by exact Hrr. simpl. congruence.
  - rewrite relation_body_not_loaded by (right; exact Hrr). exact Hswept.
  - rewrite relation_body_not_loaded by (left; reflexivity). exact Hswept.
Qed.

(** ** A relation with too few samples, swept *)

(** A relation without any prompt template raises before its first
    trial, whatever its number of samples. *)
Lemma sweep_relation_without_template relation h_layers betas
    n_trials n_train_samples recall_k batch_size w :
  prompt_templates relation = [] ->
  sweep_relation relation h_layers betas
    n_trials n_train_samples recall_k batch_size w =
  {| res := Raise IndexError; final := w; trace := [] |}.
Proof.
  intros Hnone. unfold sweep_relation. rewrite Hnone, py_index_nil.
  reflexivity.
Qed.

Lemma sweep_relation_small relation h_layers betas
    n_trials n_train_samples recall_k batch_size w :
  (Z.of_nat (length (samples relation)) <= n_train_samples)%Z ->
  prompt_templates relation <> [] ->
  sweep_relation relation h_layers betas
    n_trials n_train_samples recall_k batch_size w =
  {| res := Ok (empty_results relation);
     final := {| checkpoints :=
                   <[name relation := empty_results relation]> (checkpoints w);
                 random := random w; heap := heap w; next_loc := next_loc w |};
     trace :=
       flat_map
         (fun trial =>
            [Log INFO (BeginTrial (trial + 1) n_trials);
             Log WARNING (NotEnoughSamples
                            (Z.of_nat (length (samples relation)))
                            (name relation) n_train_samples)])
         (py_range n_trials)
       ++ [Log DEBUG (SummarizingResults (name relation));
           CallSave (name relation) (empty_results relation)] |}.
Proof.
  intros Hsmall Htemplates. unfold sweep_relation.
  destruct (prompt_templates relation) as [|t rest]; [congruence|].
  rewrite py_index_head.
  erewrite bind_run; [|reflexivity].
  erewrite bind_run; [|apply trial_loop_skips_run; exact Hsmall].
  erewrite bind_run; [|reflexivity].
  erewrite bind_run; [|reflexivity].
  reflexivity.
Qed.

Lemma map_snd_combine_seq {A} (l : list A) (start : nat) :
  map snd (combine (seq start (length l)) l) = l.
Proof.
  revert start. induction l as [|x l IH]; intros start; simpl; [reflexivity|].
  rewrite IH. reflexivity.
Qed.

Lemma map_snd_enumerate {A} (l : list A) : map snd (enumerate l) = l.
Proof. apply map_snd_combine_seq. Qed.

(** In a successful run of the driver loop, a relation with too few
    samples that is not loaded from the store yields the empty result at
    its own position. *)
Lemma driver_loop_small_relation n_relations h_layers betas
    n_trials n_train_samples recall_k batch_size resume relation :
  (Z.of_nat (length (samples relation)) <= n_train_samples)%Z ->
  prompt_templates relation <> [] ->
  forall (items : list (nat * Relation)) (i : nat) (w : world) rrs,
    res (for_each (relation_body n_relations h_layers betas n_trials
                     n_train_samples recall_k batch_size resume) items w)
    = Ok rrs ->
    nth_error (map snd items) i = Some relation ->
    resume = false \/
    (checkpoints w !! name relation = None /\
     forall j r, (j < i)%nat -> nth_error (map snd items) j = Some r ->
                 name r <> name relation) ->
    nth_error rrs i = Some (empty_results relation).
Proof.
  intros Hsmall Htemplates.
  induction items as [|item items IH]; intros i w rrs Hrun Hnth Hfresh.
  - destruct i; discriminate.
  - apply for_each_cons_ok in Hrun.
    destruct Hrun as (rr & rrs' & -> & Hrr & Hrest & _).
    destruct i as [|i]; simpl in Hnth |- *.
    + destruct item as [ri relation']. simpl in Hnth. injection Hnth as ->.
      rewrite relation_body_not_loaded in Hrr
        by (destruct Hfresh as [->|[Hnone _]]; [left|right]; auto).
      rewrite sweep_relation_small in Hrr by assumption.
      simpl in Hrr. congruence.
    + eapply IH; [exact Hrest|exact Hnth|].
      destruct Hfresh as [->|[Hnone Hnames]]; [left; reflexivity|right].
      split.
      * rewrite relation_body_other_keys; [exact Hnone|].
        intros Heq. apply (Hnames 0%nat (snd item)); [lia|reflexivity|].
        symmetry. exact Heq.
      * intros j r Hj Hr. apply (Hnames (S j) r); [lia|exact Hr].
Qed.

Lemma sweep_faithfulness_results dataset h_layers betas
    n_trials n_train_samples recall_k batch_size resume w sr :
  res (sweep_faithfulness dataset h_layers betas n_trials n_train_samples
         recall_k batch_size resume w) = Ok sr ->
  res (for_each
         (relation_body (length (relations dataset))
            (match h_layers with Some l => l | None => determine_layers end)
            (match betas with Some l => l | None => default_betas end)
            n_trials n_train_samples recall_k batch_size resume)
         (enumerate (relations dataset)) w)
  = Ok (sweep_relations sr).
Proof.
  unfold sweep_faithfulness. cbv zeta.
  erewrite bind_run; [|reflexivity].
  match goal with |- context [bind ?m ?f w] =>
    destruct (bind_cases m f w) as [(rrs & Hrrs & ->)|(e & He & ->)] end;
    simpl; [|discriminate].
  intros [= <-]. exact Hrrs.
Qed.

(** C10. A relation with at most [n_train_samples] samples and at least
    one prompt template, for which the checkpoint store answers nothing
    (no resume, or no stored result under its name), gets a result with
    an empty trial list: the driver returns it, saves it under the
    relation's name, and a later load on resume answers it. In a
    successful sweep, that empty result sits in the returned list at the
    relation's position, provided the sweep does not resume or the store
    initially holds nothing under the relation's name and no earlier
    relation of the dataset bears that name. *)
Theorem small_relation_recorded_empty :
  (forall n_relations h_layers betas n_trials n_train_samples recall_k
          batch_size resume ri relation w,
     (Z.of_nat (length (samples relation)) <= n_train_samples)%Z ->
     prompt_templates relation <> [] ->
     resume = false \/ checkpoints w !! name relation = None ->
     let o := relation_body n_relations h_layers betas n_trials
                n_train_samples recall_k batch_size resume (ri, relation) w in
     res o = Ok (empty_results relation) /\
     checkpoints (final o) =
       <[name relation := empty_results relation]> (checkpoints w) /\
     In (CallSave (name relation) (empty_results relation)) (trace o) /\
     res (load_results_file (name relation) true (final o)) =
       Ok (Some (empty_results relation))) /\
  (forall dataset h_layers betas n_trials n_train_samples recall_k batch_size
          resume w sr i relation,
     res (sweep_faithfulness dataset h_layers betas n_trials n_train_samples
            recall_k batch_size resume w) = Ok sr ->
     nth_error (relations dataset) i = Some relation ->
     (Z.of_nat (length (samples relation)) <= n_train_samples)%Z ->
     prompt_templates relation <> [] ->
     resume = false \/
     (checkpoints w !! name relation = None /\
      forall j r, (j < i)%nat -> nth_error (relations dataset) j = Some r ->
                  name r <> name relation) ->
     nth_error (sweep_relations sr) i = Some (empty_results relation)).
Proof.
  split.
  - intros n_relations h_layers betas n_trials n_train_samples recall_k
      batch_size resume ri relation w Hsmall Htemplates Hnone o.
    subst o. rewrite relation_body_not_loaded by exact Hnone.
    rewrite sweep_relation_small by assumption. simpl.
    repeat split.
    + right. right. apply in_or_app. right. right. left. reflexivity.
    + rewrite lookup_insert_eq. reflexivity.
  - intros dataset h_layers betas n_trials n_train_samples recall_k batch_size
      resume w sr i relation Hrun Hnth Hsmall Htemplates Hfresh.
    apply sweep_faithfulness_results in Hrun.
    eapply driver_loop_small_relation;
      [exact Hsmall|exact Htemplates|exact Hrun| |];
      rewrite map_snd_enumerate; assumption.
Qed.

(** ** Resuming from the checkpoint store *)

Lemma Forall_any {A} (l : list A) : Forall any l.
Proof. induction l; constructor; auto. exact Logic.I. Qed.

Lemma driver_loop_other_keys n_relations h_layers betas
    n_trials n_train_samples recall_k batch_size resume key items w :
  (forall item, In item items -> key <> name (snd item)) ->
  checkpoints
    (final (for_each (relation_body n_relations h_layers betas n_trials
                        n_train_samples recall_k batch_size resume) items w))
    !! key
  = checkpoints w !! key.
Proof.
  intros Hkey.
  refine (proj1 (sat_for_each
            (fun w w' => checkpoints w' !! key = checkpoints w !! key) any
            _ _ any _ items _ w)).
  - reflexivity.
  - intros w1 w2 w3 H12 H23. congruence.
  - intros item Hitem w0. split; [|split; [apply Forall_any|side]].
    apply relation_body_other_keys. apply Hkey. exact Hitem.
Qed.

Lemma driver_loop_keeps_entries n_relations h_layers betas
    n_trials n_train_samples recall_k batch_size key v items w :
  checkpoints w !! key = Some v ->
  checkpoints
    (final (for_each (relation_body n_relations h_layers betas n_trials
                        n_train_samples recall_k batch_size true) items w))
    !! key
  = Some v.
Proof.
  refine (proj1 (sat_for_each
            (fun w w' => checkpoints w !! key = Some v ->
                         checkpoints w' !! key = Some v) any
            _ _ any _ items _ w)).
  - auto.
  - auto.
  - intros item Hitem w0. split; [|split; [apply Forall_any|side]].
    apply relation_body_keeps_entries.
Qed.

(** After a successful driver loop, every relation's result is in the
    store under the relation's name, provided a later relation cannot
    overwrite it: the loop resumes, or the names are pairwise distinct. *)
Lemma driver_loop_saved n_relations h_layers betas
    n_trials n_train_samples recall_k batch_size resume :
  forall (items : list (nat * Relation)) (w : world) rrs,
    resume = true \/ NoDup (map (fun item => name (snd item)) items) ->
    res (for_each (relation_body n_relations h_layers betas n_trials
                     n_train_samples recall_k batch_size resume) items w)
    = Ok rrs ->
    Forall2
      (fun item rr =>
         checkpoints
           (final (for_each (relation_body n_relations h_layers betas n_trials
                               n_train_samples recall_k batch_size resume)
                     items w))
           !! name (snd item) = Some rr)
      items rrs.
Proof.
  induction items as [|[ri relation] items IH]; intros w rrs Hnames Hrun.
  - simpl in Hrun. injection Hrun as <-. constructor.
  - apply for_each_cons_ok in Hrun.
    destruct Hrun as (rr & rrs' & -> & Hrr & Hrest & ->).
    apply relation_body_saved in Hrr.
    constructor.
    + simpl. destruct Hnames as [->|Hnodup].
      * apply driver_loop_keeps_entries. exact Hrr.
      * rewrite driver_loop_other_keys; [exact Hrr|].
        simpl in Hnodup. apply NoDup_cons_1_1 in Hnodup as Hnotin.
        intros item Hitem Heq. apply Hnotin. rewrite Heq.
        apply list_elem_of_In. apply in_map_iff. exists item. auto.
    + apply IH; [|exact Hrest].
      destruct Hnames as [->|Hnodup]; [left; reflexivity|right].
      simpl in Hnodup. apply NoDup_cons_1_2 in Hnodup. exact Hnodup.
Qed.

Lemma driver_loop_loads n_relations h_layers betas
    n_trials n_train_samples recall_k batch_size w :
  forall (items : list (nat * Relation)) rrs,
    Forall2 (fun item rr => checkpoints w !! name (snd item) = Some rr)
            items rrs ->
    for_each (relation_body n_relations h_layers betas n_trials
                n_train_samples recall_k batch_size true) items w =
    {| res := Ok rrs; final := w;
       trace :=
         flat_map
           (fun item =>
              [Log INFO (BeginRelation (name (snd item))
                           (Z.of_nat (fst item) + 1) (Z.of_nat n_relations));
               CallLoad (name (snd item)) true;
               Log INFO (LoadedPrevious (name (snd item)))])
           items |}.
Proof.
  intros items rrs Hall.
  induction Hall as [|[ri relation] rr items rrs Hrr Hall IH]; [reflexivity|].
  simpl. erewrite bind_run; [|apply relation_body_loaded; exact Hrr].
  erewrite bind_run; [|exact IH].
  simpl. rewrite app_nil_r. reflexivity.
Qed.

Lemma sweep_faithfulness_final dataset h_layers betas
    n_trials n_train_samples recall_k batch_size resume w sr :
  res (sweep_faithfulness dataset h_layers betas n_trials n_train_samples
         recall_k batch_size resume w) = Ok sr ->
  final (sweep_faithfulness dataset h_layers betas n_trials n_train_samples
           recall_k batch_size resume w) =
  final (for_each
           (relation_body (length (relations dataset))
              (match h_layers with Some l => l | None => determine_layers end)
              (match betas with Some l => l | None => default_betas end)
              n_trials n_train_samples recall_k batch_size resume)
           (enumerate (relations dataset)) w).
Proof.
  unfold sweep_faithfulness. cbv zeta.
  erewrite bind_run; [|reflexivity].
  match goal with |- context [bind ?m ?f w] =>
    destruct (bind_cases m f w) as [(rrs & Hrrs & ->)|(e & He & ->)] end;
    simpl; [|discriminate].
  reflexivity.
Qed.

Lemma resumed_sweep_run dataset h_layers betas
    n_trials n_train_samples recall_k batch_size w rrs :
  Forall2 (fun item rr => checkpoints w !! name (snd item) = Some rr)
          (enumerate (relations dataset)) rrs ->
  let o := sweep_faithfulness dataset h_layers betas n_trials n_train_samples
             recall_k batch_size true w in
  res o = Ok {| sweep_relations := rrs |} /\
  final o = w /\
  Forall is_bookkeeping (trace o).
Proof.
  intros Hall. unfold sweep_faithfulness. cbv zeta.
  erewrite bind_run; [|reflexivity].
  erewrite bind_run; [|apply driver_loop_loads; exact Hall].
  simpl. repeat split.
  constructor; [exact Logic.I|].
  rewrite app_nil_r. clear Hall.
  induction (enumerate (relations dataset)) as [|item items IH]; simpl.
  - constructor.
  - repeat (constructor; [exact Logic.I|]). exact IH.
Qed.

Lemma resume_after_sweep dataset h_layers betas
    n_trials n_train_samples recall_k batch_size resume w sr :
  resume = true \/ NoDup (map name (relations dataset)) ->
  res (sweep_faithfulness dataset h_layers betas n_trials n_train_samples
         recall_k batch_size resume w) = Ok sr ->
  forall h_layers' betas' n_trials' n_train_samples' recall_k' batch_size' w',
    checkpoints w' =
      checkpoints
        (final (sweep_faithfulness dataset h_layers betas n_trials
                  n_train_samples recall_k batch_size resume w)) ->
    let o' := sweep_faithfulness dataset h_layers' betas' n_trials'
                n_train_samples' recall_k' batch_size' true w' in
    res o' = Ok sr /\ final o' = w' /\ Forall is_bookkeeping (trace o').
Proof.
  intros Hnames Hrun h_layers' betas' n_trials' n_train_samples' recall_k'
    batch_size' w' Hstore.
  rewrite (sweep_faithfulness_final _ _ _ _ _ _ _ _ _ _ Hrun) in Hstore.
  apply sweep_faithfulness_results in Hrun.
  apply driver_loop_saved in Hrun as Hsaved.
  - rewrite <- Hstore in Hsaved.
    destruct sr as [rrs]. simpl in *.
    apply resumed_sweep_run. exact Hsaved.
  - destruct Hnames as [->|Hnodup]; [left; reflexivity|right].
    rewrite <- (map_snd_enumerate (relations dataset)) in Hnodup.
    rewrite map_map in Hnodup. exact Hnodup.
Qed.

(** C7 (amended). When the sweep resumes and the checkpoint store holds
    a result under a relation's name, the driver returns that result as
    it is, leaves the world unchanged and does nothing but log and read
    the store. Hence, after a successful sweep that itself resumed or
    whose dataset has pairwise distinct relation names, a second sweep of
    the dataset with [resume = true] on the store the first one left
    returns the same sweep result, changes nothing, and performs no trial
    computation, whatever its other arguments. *)
Theorem resume_returns_stored_results :
  (forall n_relations h_layers betas n_trials n_train_samples recall_k
          batch_size ri relation w rr,
     checkpoints w !! name relation = Some rr ->
     relation_body n_relations h_layers betas n_trials n_train_samples
       recall_k batch_size true (ri, relation) w =
     {| res := Ok rr; final := w;
        trace := [Log INFO (BeginRelation (name relation) (Z.of_nat ri + 1)
                              (Z.of_nat n_relations));
                  CallLoad (name relation) true;
                  Log INFO (LoadedPrevious (name relation))] |}) /\
  (forall dataset h_layers betas n_trials n_train_samples recall_k batch_size
          resume w sr,
     resume = true \/ NoDup (map name (relations dataset)) ->
     res (sweep_faithfulness dataset h_layers betas n_trials n_train_samples
            recall_k batch_size resume w) = Ok sr ->
     forall h_layers' betas' n_trials' n_train_samples' recall_k' batch_size' w',
       checkpoints w' =
         checkpoints
           (final (sweep_faithfulness dataset h_layers betas n_trials
                     n_train_samples recall_k batch_size resume w)) ->
       let o' := sweep_faithfulness dataset h_layers' betas' n_trials'
                   n_train_samples' recall_k' batch_size' true w' in
       res o' = Ok sr /\ final o' = w' /\ Forall is_bookkeeping (trace o')).
Proof.
  split.
  - intros. apply relation_body_loaded. assumption.
  - intros. eapply resume_after_sweep; eassumption.
Qed.

(** ** The prompt template *)

Lemma bind_ext {A B} (m m' : M A) (f f' : A -> M B) (w : world) :
  m w = m' w ->
  (forall a w', f a w' = f' a w') ->
  bind m f w = bind m' f' w.
Proof.
  intros Hm Hf. unfold bind. rewrite Hm.
  destruct (res (m' w)); [rewrite Hf|]; reflexivity.
Qed.

Lemma for_each_opt_ext {A B} (body body' : A -> M (option B)) (l : list A) :
  (forall x w, body x w = body' x w) ->
  forall w, for_each_opt body l w = for_each_opt body' l w.
Proof.
  intros Hbody. induction l as [|x l IH]; intros w; [reflexivity|].
  simpl. apply bind_ext; [apply Hbody|].
  intros y w'. apply bind_ext; [apply IH|reflexivity].
Qed.

(** A trial reads the relation's name and samples, nothing else. *)
Lemma trial_body_reads_name_and_samples relation relation' prompt_template
    h_layers betas n_trials n_train_samples recall_k batch_size trial w :
  name relation' = name relation ->
  samples relation' = samples relation ->
  trial_body relation' prompt_template h_layers betas
    n_trials n_train_samples recall_k batch_size trial w =
  trial_body relation prompt_template h_layers betas
    n_trials n_train_samples recall_k batch_size trial w.
Proof.
  destruct relation as [n ts ss], relation' as [n' ts' ss']. simpl.
  intros -> ->. unfold trial_body. simpl.
  apply bind_ext; [reflexivity|]. intros _ w1.
  destruct (Z.of_nat (length ss) <=? n_train_samples)%Z; [reflexivity|].
  match goal with |- bind ?m' ?k' w1 = bind ?m ?k w1 =>
    set (K' := k'); set (K := k) end.
  unfold bind, Relation_split. cbn [samples name prompt_templates].
  destruct (draw_split (random w1) ss n_train_samples) as [[[train test]|e] g];
    cbn [res final trace rbind]; [|reflexivity].
  subst K K'. cbv beta iota. unfold Relation_set. cbn [samples name].
  reflexivity.
Qed.

Lemma sweep_relation_reads_first_template relation relation' t
    h_layers betas n_trials n_train_samples recall_k batch_size w :
  name relation' = name relation ->
  samples relation' = samples relation ->
  hd_error (prompt_templates relation) = Some t ->
  hd_error (prompt_templates relation') = Some t ->
  sweep_relation relation' h_layers betas
    n_trials n_train_samples recall_k batch_size w =
  sweep_relation relation h_layers betas
    n_trials n_train_samples recall_k batch_size w.
Proof.
  intros Hname Hsamples Ht Ht'. unfold sweep_relation.
  destruct (prompt_templates relation) as [|t0 rest]; [discriminate|].
  destruct (prompt_templates relation') as [|t0' rest']; [discriminate|].
  simpl in Ht, Ht'. injection Ht as ->. injection Ht' as ->.
  rewrite !py_index_head.
  apply bind_ext; [reflexivity|]. intros pt w1.
  apply bind_ext.
  - unfold trial_loop. apply for_each_opt_ext. intros trial w2.
    apply trial_body_reads_name_and_samples; assumption.
  - intros trs w2. rewrite Hname. reflexivity.
Qed.

Lemma sweep_relation_uses_template relation t rest
    h_layers betas n_trials n_train_samples recall_k batch_size w :
  prompt_templates relation = t :: rest ->
  let o := sweep_relation relation h_layers betas
             n_trials n_train_samples recall_k batch_size w in
  Forall (uses_template t) (trace o) /\
  (forall rr, res o = Ok rr ->
     Forall (fun y => trial_prompt_template y = t) (trials rr)).
Proof.
  intros Hts.
  assert (Hhead : forall pt, py_index (prompt_templates relation) 0 = Ok pt ->
                             pt = t).
  { intros pt. rewrite Hts, py_index_head. congruence. }
  destruct (sweep_relation_sat (fun _ _ => True) (uses_template t)
              ltac:(side) ltac:(side) ltac:(side) ltac:(side)
              ltac:(side) ltac:(side) ltac:(side) ltac:(side)
              ltac:(side) ltac:(side)
              relation h_layers betas n_trials n_train_samples recall_k
              batch_size ltac:(side) ltac:(side) ltac:(side)
              ltac:(intros pt Hpt; apply Hhead in Hpt; subst pt; split; side)
              w)
    as (_ & Htrace & Hres).
  split; [exact Htrace|].
  intros rr Hrr. apply (Hres rr Hrr t). rewrite Hts. apply py_index_head.
Qed.

(** C9. The driver reads the relation's prompt templates only through
    the first one, [t]: replacing the other templates changes nothing of
    what the driver returns, does to the world, or emits. Every prompt it
    renders is rendered from [t], every estimator is fitted on a relation
    whose template list is [[t]], and, when the relation is swept rather
    than loaded from the store, every trial result records [t]. *)
Theorem only_first_prompt_template_used n_relations h_layers betas
    n_trials n_train_samples recall_k batch_size resume ri
    relation relation' t w :
  name relation' = name relation ->
  samples relation' = samples relation ->
  hd_error (prompt_templates relation) = Some t ->
  hd_error (prompt_templates relation') = Some t ->
  let o := relation_body n_relations h_layers betas n_trials n_train_samples
             recall_k batch_size resume (ri, relation) w in
  relation_body n_relations h_layers betas n_trials n_train_samples
    recall_k batch_size resume (ri, relation') w = o /\
  Forall (uses_template t) (trace o) /\
  (resume = false \/ checkpoints w !! name relation = None ->
   forall rr, res o = Ok rr ->
     Forall (fun y => trial_prompt_template y = t) (trials rr)).
Proof.
  intros Hname Hsamples Ht Ht' o. subst o.
  assert (Hts : exists rest, prompt_templates relation = t :: rest).
  { destruct (prompt_templates relation) as [|t0 rest]; [discriminate|].
    injection Ht as ->. eauto. }
  destruct Hts as [rest Hts].
  destruct (sweep_relation_uses_template relation t rest h_layers betas
              n_trials n_train_samples recall_k batch_size w Hts)
    as [Htrace Hres].
  split; [|split].
  - unfold relation_body. rewrite Hname.
    apply bind_ext; [reflexivity|]. intros _ w1.
    apply bind_ext; [reflexivity|]. intros [rr|] w2; [reflexivity|].
    eapply sweep_relation_reads_first_template; eassumption.
  - assert (Hcases :
      (exists rr, resume = true /\ checkpoints w !! name relation = Some rr) \/
      (resume = false \/ checkpoints w !! name relation = None)).
    { destruct resume; [|right; left; reflexivity].
      destruct (checkpoints w !! name relation) as [rr|]; eauto. }
    destruct Hcases as [(rr & -> & Hrr)|Hnone].
    + erewrite relation_body_loaded by exact Hrr. simpl.
      repeat (constructor; [exact Logic.I|]). constructor.
    + rewrite relation_body_not_loaded by exact Hnone. simpl.
      repeat (constructor; [exact Logic.I|]). exact Htrace.
  - intros Hnone rr. rewrite relation_body_not_loaded by exact Hnone.
    simpl. apply Hres.
Qed.

(** ** What a trial passes to the precompute stage and to the estimator *)

Lemma make_prompt_calls_app (tr1 tr2 : list event) :
  make_prompt_calls (tr1 ++ tr2) = make_prompt_calls tr1 ++ make_prompt_calls tr2.
Proof. apply flat_map_app. Qed.

Lemma tokenizer_calls_app (tr1 tr2 : list event) :
  tokenizer_calls (tr1 ++ tr2) = tokenizer_calls tr1 ++ tokenizer_calls tr2.
Proof. apply flat_map_app. Qed.

Lemma estimator_calls_app (tr1 tr2 : list event) :
  estimator_calls (tr1 ++ tr2) = estimator_calls tr1 ++ estimator_calls tr2.
Proof. apply flat_map_app. Qed.

Lemma after_tokenizing_calls (rel : Relation) (tr : list event) :
  Forall (after_tokenizing rel) tr ->
  make_prompt_calls tr = [] /\
  tokenizer_calls tr = [] /\
  Forall (fun call => snd call = rel) (estimator_calls tr).
Proof.
  induction 1 as [|ev tr Hev _ (IH1 & IH2 & IH3)]; [repeat split; constructor|].
  destruct ev; simpl in *; try contradiction; repeat split; auto.
Qed.

Lemma fits_nothing_calls (tr : list event) :
  Forall fits_nothing tr -> estimator_calls tr = [].
Proof.
  induction 1 as [|ev tr Hev _ IH]; [reflexivity|].
  destruct ev; simpl in *; try contradiction; auto.
Qed.

Lemma make_prompt_calls_rendered (prompt_template : string)
    (examples : option (list RelationSample)) (subjects : list string) :
  make_prompt_calls
    (map (fun subj => CallMakePrompt prompt_template subj examples) subjects)
  = map (fun subj => (prompt_template, subj, examples)) subjects /\
  tokenizer_calls
    (map (fun subj => CallMakePrompt prompt_template subj examples) subjects)
  = [] /\
  estimator_calls
    (map (fun subj => CallMakePrompt prompt_template subj examples) subjects)
  = [].
Proof.
  induction subjects as [|s l (IH1 & IH2 & IH3)]; [auto|].
  simpl. rewrite IH1. auto.
Qed.

Lemma call_estimator_trace (h_layer : Z) (relation : Relation) (w : world) :
  trace (call_estimator h_layer relation w) = [CallEstimator h_layer relation].
Proof.
  unfold call_estimator.
  erewrite bind_run; [|reflexivity]. simpl.
  unfold bind, lift. simpl.
  destruct (estimator h_layer relation) as [[wt [t|]]|e]; reflexivity.
Qed.

(** A layer calls the estimator exactly once, on the relation restricted
    to the train samples and the single prompt template. *)
Lemma layer_body_fits_once relation prompt_template train_samples test_relation
    hs_by_subj recall_k betas h_layer w :
  estimator_calls
    (trace (layer_body relation prompt_template train_samples test_relation
              hs_by_subj recall_k betas h_layer w))
  = [(h_layer, Relation_set relation train_samples [prompt_template])].
Proof.
  unfold layer_body.
  erewrite bind_run; [|reflexivity]. simpl.
  match goal with |- context [bind ?m ?f w] =>
    destruct (trace_bind_prefix m f w) as (rest & -> & Hrest) end.
  rewrite call_estimator_trace. simpl. f_equal.
  destruct Hrest as [->|(operator & Hop & ->)]; [reflexivity|].
  apply fits_nothing_calls.
  match goal with |- Forall _ (trace (?m ?w')) =>
    assert (Hsat : sat (fun _ _ => True) fits_nothing any m); [|apply Hsat] end.
  eapply (sat_bind (fun _ _ => True) fits_nothing ltac:(side) any).
  { apply evaluate_operator_sat; side. }
  intros rs _.
  eapply (sat_bind (fun _ _ => True) fits_nothing ltac:(side) any).
  { apply TrainResults_summarize_sat; side. }
  intros _ _. apply sat_ret; side.
Qed.

Lemma for_each_cons_trace {A B} (body : A -> M B) (x : A) (l : list A)
    (w : world) (ys : list B) :
  res (for_each body (x :: l) w) = Ok ys ->
  trace (for_each body (x :: l) w) =
  trace (body x w) ++ trace (for_each body l (final (body x w))).
Proof.
  simpl. intros H.
  destruct (bind_cases (body x)
              (fun y => ys0 <- for_each body l;; ret (y :: ys0)) w)
    as [(y & Hy & Heq)|(e & He & Heq)]; rewrite Heq in H |- *; simpl in *;
    [|discriminate].
  destruct (bind_cases (for_each body l) (fun ys0 => ret (y :: ys0))
              (final (body x w)))
    as [(ys' & Hys & Heq')|(e & He & Heq')]; rewrite Heq' in H |- *; simpl in *;
    [|discriminate].
  rewrite app_nil_r. reflexivity.
Qed.

Lemma layer_loop_fits_each relation prompt_template train_samples test_relation
    hs_by_subj recall_k betas :
  forall h_layers w lrs,
    res (layer_loop relation prompt_template train_samples test_relation
           hs_by_subj recall_k betas h_layers w) = Ok lrs ->
    estimator_calls
      (trace (layer_loop relation prompt_template train_samples test_relation
                hs_by_subj recall_k betas h_layers w))
    = map (fun h_layer =>
             (h_layer, Relation_set relation train_samples [prompt_template]))
          h_layers.
Proof.
  unfold layer_loop.
  induction h_layers as [|h_layer h_layers IH]; intros w lrs Hrun;
    [reflexivity|].
  rewrite (for_each_cons_trace _ _ _ _ _ Hrun).
  apply for_each_cons_ok in Hrun.
  destruct Hrun as (lr & lrs' & _ & _ & Hrest & _).
  rewrite estimator_calls_app, layer_body_fits_once, (IH _ _ Hrest).
  reflexivity.
Qed.

Lemma Relation_split_run relation n w train test g :
  draw_split (random w) (samples relation) n = (Ok (train, test), g) ->
  Relation_split relation n w =
  {| res := Ok (Relation_set relation train (prompt_templates relation),
                Relation_set relation test (prompt_templates relation));
     final := {| checkpoints := checkpoints w; random := g;
                 heap := heap w; next_loc := next_loc w |};
     trace := [CallSplit (samples relation) n] |}.
Proof. intros H. unfold Relation_split. rewrite H. reflexivity. Qed.

(** C6. In a trial that is not skipped, with [train] the train samples
    the split returned: the prompts of the precompute stage are rendered
    with the in-context examples [train[:-1]], one prompt per sample of
    the whole relation, in order; the tokenizer is called once, on these
    prompts, so the cache is built once and covers every subject of the
    relation; every estimator call is on the relation restricted to all
    of [train] and to the single prompt template; and when the trial
    completes, there was one such call per layer, in layer order, and the
    trial records [train]. *)
Theorem trial_passes_train_split relation prompt_template h_layers betas
    n_trials n_train_samples recall_k batch_size trial w train test g :
  (n_train_samples < Z.of_nat (length (samples relation)))%Z ->
  draw_split (random w) (samples relation) n_train_samples
    = (Ok (train, test), g) ->
  let o := trial_body relation prompt_template h_layers betas
             n_trials n_train_samples recall_k batch_size trial w in
  make_prompt_calls (trace o) =
    map (fun x => (prompt_template, subject x, Some (py_drop_last train)))
        (samples relation) /\
  tokenizer_calls (trace o) =
    [map (fun x => make_prompt prompt_template (subject x)
                     (Some (py_drop_last train)))
         (samples relation)] /\
  Forall (fun call =>
            snd call = Relation_set relation train [prompt_template] /\
            samples (snd call) = train)
         (estimator_calls (trace o)) /\
  (forall y, res o = Ok (Some y) ->
     trial_train_samples y = train /\
     estimator_calls (trace o) =
       map (fun h_layer =>
              (h_layer, Relation_set relation train [prompt_template]))
           h_layers).
Proof.
  intros Hlarge Hdraw o. subst o. unfold trial_body.
  erewrite bind_run; [|reflexivity].
  destruct (Z.leb_spec (Z.of_nat (length (samples relation))) n_train_samples)
    as [Hle|_]; [lia|].
  erewrite bind_run; [|apply Relation_split_run; exact Hdraw].
  cbn [res final trace].
  erewrite bind_run; [|reflexivity].
  erewrite bind_run; [|reflexivity].
  cbn [res final trace samples Relation_set].
  set (rel := Relation_set relation train [prompt_template]).
  set (w1 := {| checkpoints := checkpoints w; random := g;
                heap := heap w; next_loc := next_loc w |}).
  set (E := fun ev => after_tokenizing rel ev /\ fits_nothing ev).
  destruct (precompute_trace (fun _ _ => True) E
              ltac:(side) ltac:(side)
              ltac:(subst E; split; exact Logic.I)
              ltac:(subst E; split; exact Logic.I)
              prompt_template (map subject (samples relation))
              (Some (py_drop_last train)) batch_size w1)
    as (_ & rest_pre & Hpre & Hrest_pre).
  assert (Hpre1 : Forall (after_tokenizing rel) rest_pre).
  { eapply Forall_impl; [exact Hrest_pre|]. intros ev [H _]. exact H. }
  assert (Hpre2 : Forall fits_nothing rest_pre).
  { eapply Forall_impl; [exact Hrest_pre|]. intros ev [_ H]. exact H. }
  destruct (after_tokenizing_calls rel rest_pre Hpre1) as (Hp1 & Hp2 & _).
  pose proof (fits_nothing_calls rest_pre Hpre2) as Hp3.
  destruct (make_prompt_calls_rendered prompt_template
              (Some (py_drop_last train)) (map subject (samples relation)))
    as (Hr1 & Hr2 & Hr3).
  match goal with |- context [bind ?m ?f w1] =>
    destruct (bind_cases m f w1) as [(cache & Hcache & ->)|(e & He & ->)] end;
    cbn [res final trace]; rewrite Hpre.
  - set (w2 := final (_precompute_hs prompt_template
                        (map subject (samples relation))
                        (Some (py_drop_last train)) batch_size w1)).
    assert (Hloop : Forall (after_tokenizing rel)
              (trace (layer_loop relation prompt_template train
                        (Relation_set relation test (prompt_templates relation))
                        cache recall_k betas h_layers w2))).
    { apply (layer_loop_sat (fun _ _ => True) (after_tokenizing rel));
        try solve [side]. }
    destruct (after_tokenizing_calls rel _ Hloop) as (Hl1 & Hl2 & Hl3).
    match goal with |- context [bind ?m ?f w2] =>
      destruct (bind_cases m f w2) as [(lrs & Hlrs & ->)|(e & He & ->)] end;
      cbn [res final trace ret];
      repeat rewrite ?make_prompt_calls_app, ?tokenizer_calls_app,
        ?estimator_calls_app, ?app_nil_r;
      cbn [make_prompt_calls tokenizer_calls estimator_calls flat_map app];
      fold (make_prompt_calls rest_pre) (tokenizer_calls rest_pre)
        (estimator_calls rest_pre);
      rewrite ?Hp1, ?Hp2, ?Hp3, ?Hr1, ?Hr2, ?Hr3, ?Hl1, ?Hl2, ?app_nil_r,
        ?map_map; cbn [app].
    + repeat split; try reflexivity.
      * eapply Forall_impl; [exact Hl3|]. intros call ->. auto.
      * injection H as <-. reflexivity.
      * eapply layer_loop_fits_each. exact Hlrs.
    + repeat split; try reflexivity; try discriminate.
      eapply Forall_impl; [exact Hl3|]. intros call ->. auto.
  - repeat rewrite ?make_prompt_calls_app, ?tokenizer_calls_app,
      ?estimator_calls_app, ?app_nil_r;
    cbn [make_prompt_calls tokenizer_calls estimator_calls flat_map app];
    fold (make_prompt_calls rest_pre) (tokenizer_calls rest_pre)
      (estimator_calls rest_pre);
    rewrite ?Hp1, ?Hp2, ?Hp3, ?Hr1, ?Hr2, ?Hr3, ?app_nil_r, ?map_map;
    cbn [app].
    repeat split; try reflexivity; try discriminate. constructor.
Qed.

(** ** The beta grid *)

Lemma predictions_run (operator : Operator) (lb : nat) (cur : list Q)
    (recall_k : Z) (pairs : list (string * hvec)) (w : world) :
  op_bias operator = Some lb ->
  heap w !! lb = Some cur ->
  for_each (fun '(subj, h) => call_operator operator subj h recall_k) pairs w =
  {| res := Ok (map (fun '(subj, h) =>
                       predict (op_weight operator) (Some cur) subj h recall_k)
                    pairs);
     final := w;
     trace := map (fun '(subj, h) => CallOperator (Some cur) subj h recall_k)
                  pairs |}.
Proof.
  intros Hop Hcur. induction pairs as [|[subj h] pairs IH]; [reflexivity|].
  simpl. erewrite bind_run.
  2:{ unfold call_operator. rewrite Hop.
      erewrite bind_run.
      2:{ erewrite bind_run; [reflexivity|].
          unfold tensor_read. rewrite Hcur. reflexivity. }
      reflexivity. }
  erewrite bind_run; [|exact IH].
  simpl. rewrite app_nil_r. reflexivity.
Qed.

Lemma beta_body_run operator lb bias test_subjects test_hs test_objects
    recall_k beta b0 w :
  op_bias operator = Some lb ->
  heap w !! bias = Some b0 ->
  beta_body operator lb bias test_subjects test_hs test_objects recall_k beta w =
  let preds :=
    map (fun '(subj, h) =>
           predict (op_weight operator) (Some (tensor_scale b0 beta))
                   subj h recall_k)
        (combine test_subjects test_hs) in
  {| res := Ok {| br_beta := beta; br_recall := recall preds test_objects |};
     final := with_bias w lb (tensor_scale b0 beta);
     trace :=
       map (fun '(subj, h) =>
              CallOperator (Some (tensor_scale b0 beta)) subj h recall_k)
           (combine test_subjects test_hs)
       ++ [CallRecall preds test_objects] |}.
Proof.
  intros Hop Hb0. unfold beta_body.
  erewrite bind_run; [|unfold tensor_read; rewrite Hb0; reflexivity].
  erewrite bind_run; [|reflexivity].
  erewrite bind_run.
  2:{ apply predictions_run with (lb := lb) (cur := tensor_scale b0 beta);
        [exact Hop|]. simpl. apply lookup_insert_eq. }
  erewrite bind_run; [|reflexivity].
  simpl. reflexivity.
Qed.

Lemma last_cons_default {A} (x y : A) (l : list A) (d d' : A) :
  List.last (x :: l) d = List.last (y :: x :: l) d'.
Proof.
  revert x. induction l as [|z l IH]; intros x; [reflexivity|].
  change (List.last (z :: l) d = List.last (z :: l) d'). apply IH.
Qed.

(** The beta grid, run: one result per beta, each computed with the
    operator's bias set to the clone's content times that beta; the
    clone keeps its content, the operator's bias ends on the last
    product. *)
Lemma beta_loop_run operator lb bias test_subjects test_hs test_objects
    recall_k b0 :
  op_bias operator = Some lb ->
  lb <> bias ->
  forall betas w,
    heap w !! bias = Some b0 ->
    let o := beta_loop operator lb bias test_subjects test_hs test_objects
               recall_k betas w in
    res o =
      Ok (map (beta_result_at operator b0 test_subjects test_hs test_objects
                 recall_k) betas) /\
    trace o =
      flat_map (beta_events_at operator b0 test_subjects test_hs test_objects
                  recall_k) betas /\
    heap (final o) !! bias = Some b0 /\
    heap (final o) !! lb =
      List.last (map (fun beta => Some (tensor_scale b0 beta)) betas)
                (heap w !! lb) /\
    next_loc (final o) = next_loc w.
Proof.
  intros Hop Hne. unfold beta_loop.
  induction betas as [|beta betas IH]; intros w Hb0.
  - simpl. repeat split; auto.
  - simpl for_each.
    erewrite bind_run; [|apply beta_body_run; [exact Hop|exact Hb0]].
    cbv zeta.
    assert (Hb0' : heap (with_bias w lb (tensor_scale b0 beta)) !! bias = Some b0).
    { simpl. rewrite lookup_insert_ne by exact Hne. exact Hb0. }
    destruct (IH _ Hb0') as (Hres & Htrace & Hclone & Hbias & Hnext).
    match goal with |- context [bind ?m ?f ?w'] =>
      destruct (bind_cases m f w') as [(rs & Hrs & ->)|(e & He & ->)] end;
      [|rewrite Hres in He; discriminate].
    cbn [res final trace ret].
    rewrite Hres in Hrs. injection Hrs as <-.
    split; [reflexivity|]. split; [|split; [exact Hclone|split]].
    + rewrite app_nil_r, Htrace. reflexivity.
    + rewrite Hbias. simpl heap. rewrite lookup_insert_eq.
      destruct betas as [|beta' betas]; [reflexivity|].
      change (map ?f (beta :: beta' :: betas))
        with (f beta :: map f (beta' :: betas)).
      simpl map. apply last_cons_default.
    + rewrite Hnext. reflexivity.
Qed.

Lemma tensor_clone_run (l : nat) (t : list Q) (w : world) :
  heap w !! l = Some t ->
  tensor_clone l w =
  {| res := Ok (next_loc w);
     final := {| checkpoints := checkpoints w; random := random w;
                 heap := <[next_loc w := t]> (heap w);
                 next_loc := S (next_loc w) |};
     trace := [] |}.
Proof.
  intros Ht. unfold tensor_clone.
  erewrite bind_run; [|unfold tensor_read; rewrite Ht; reflexivity].
  reflexivity.
Qed.

(** Lines 209 to 231, run on an operator whose bias tensor [lb] holds
    [b0], in a heap whose allocated locations are below [next_loc]. *)
Lemma evaluate_operator_run operator test_relation hs_by_subj h_layer recall_k
    betas lb b0 test_hs w :
  op_bias operator = Some lb ->
  heap w !! lb = Some b0 ->
  (lb < next_loc w)%nat ->
  rmap (cache_lookup hs_by_subj h_layer) (samples test_relation) = Ok test_hs ->
  let o := evaluate_operator operator test_relation hs_by_subj h_layer
             recall_k betas w in
  res o =
    Ok (map (beta_result_at operator b0 (map subject (samples test_relation))
               test_hs (map object (samples test_relation)) recall_k)
            betas) /\
  trace o =
    flat_map (beta_events_at operator b0 (map subject (samples test_relation))
                test_hs (map object (samples test_relation)) recall_k)
             betas /\
  heap (final o) !! next_loc w = Some b0 /\
  heap (final o) !! lb =
    List.last (map (fun beta => Some (tensor_scale b0 beta)) betas) (Some b0).
Proof.
  intros Hop Hb0 Hlt Hhs. unfold evaluate_operator. rewrite Hop.
  erewrite bind_run; [|reflexivity].
  erewrite bind_run; [|apply tensor_clone_run; exact Hb0].
  erewrite bind_run; [|unfold lift; rewrite Hhs; reflexivity].
  cbn [res final trace app].
  match goal with |- context [beta_loop _ _ _ _ _ _ _ _ ?w'] =>
    destruct (beta_loop_run operator lb (next_loc w)
                (map subject (samples test_relation)) test_hs
                (map object (samples test_relation)) recall_k b0
                Hop ltac:(lia) betas w')
      as (Hres & Htrace & Hclone & Hbias & _)
  end.
  { simpl. apply lookup_insert_eq. }
  simpl heap in Hbias. rewrite lookup_insert_ne in Hbias by lia.
  rewrite Hb0 in Hbias. auto.
Qed.

(** C4. With [b0] the bias the operator was fitted with and [test_hs]
    the cached hidden states of the test subjects, the beta grid returns
    exactly one result per beta, in the order of the input list, and the
    result for each beta is the recall of the predictions made with the
    operator's bias equal to [b0] times that beta: always a product with
    the untouched [b0], never with an already scaled bias. The layer
    loop, when it completes, returns one layer result per input layer,
    in input order. *)
Theorem beta_and_layer_results_follow_input_order :
  (forall operator test_relation hs_by_subj h_layer recall_k betas lb b0
          test_hs w,
     op_bias operator = Some lb ->
     heap w !! lb = Some b0 ->
     (lb < next_loc w)%nat ->
     rmap (cache_lookup hs_by_subj h_layer) (samples test_relation)
       = Ok test_hs ->
     let o := evaluate_operator operator test_relation hs_by_subj h_layer
                recall_k betas w in
     res o =
       Ok (map (beta_result_at operator b0
                  (map subject (samples test_relation)) test_hs
                  (map object (samples test_relation)) recall_k)
               betas) /\
     trace o =
       flat_map (beta_events_at operator b0
                   (map subject (samples test_relation)) test_hs
                   (map object (samples test_relation)) recall_k)
                betas) /\
  (forall relation prompt_template train_samples test_relation hs_by_subj
          recall_k betas h_layers w lrs,
     res (layer_loop relation prompt_template train_samples test_relation
            hs_by_subj recall_k betas h_layers w) = Ok lrs ->
     map lr_layer lrs = h_layers).
Proof.
  split.
  - intros operator test_relation hs_by_subj h_layer recall_k betas lb b0
      test_hs w Hop Hb0 Hlt Hhs.
    destruct (evaluate_operator_run operator test_relation hs_by_subj h_layer
                recall_k betas lb b0 test_hs w Hop Hb0 Hlt Hhs)
      as (Hres & Htrace & _).
    split; assumption.
  - intros relation prompt_template train_samples test_relation hs_by_subj
      recall_k betas h_layers w lrs Hrun.
    unfold layer_loop in Hrun.
    apply (for_each_Forall2 (fun h_layer lr => lr_layer lr = h_layer)) in Hrun.
    + induction Hrun as [|h lr hs lrs' Hh _ IH]; [reflexivity|].
      simpl. rewrite Hh, IH. reflexivity.
    + intros h_layer w0 lr Hlr.
      exact (proj2 (proj2 (layer_body_sat (fun _ _ => True) (fun _ => True)
               ltac:(side) ltac:(side) ltac:(side) ltac:(side) ltac:(side)
               ltac:(side) relation prompt_template train_samples
               test_relation hs_by_subj recall_k betas h_layer ltac:(side) w0))
             lr Hlr).
Qed.

(** C2 (amended). After the beta grid has been evaluated, the clone
    taken before the loop still holds the bias the operator was fitted
    with, and it is a different tensor from the operator's stored bias.
    The operator's stored bias is the tensor the loop overwrites: it
    ends as the fitted bias times the last beta of the grid, and keeps
    the fitted bias only when the grid is empty. *)
Theorem beta_grid_keeps_clone_overwrites_operator_bias
    operator test_relation hs_by_subj h_layer recall_k betas lb b0 test_hs w
    clone :
  op_bias operator = Some lb ->
  heap w !! lb = Some b0 ->
  (lb < next_loc w)%nat ->
  rmap (cache_lookup hs_by_subj h_layer) (samples test_relation) = Ok test_hs ->
  res (tensor_clone lb w) = Ok clone ->
  let o := evaluate_operator operator test_relation hs_by_subj h_layer
             recall_k betas w in
  clone <> lb /\
  heap (final o) !! clone = Some b0 /\
  heap (final o) !! lb =
    List.last (map (fun beta => Some (tensor_scale b0 beta)) betas) (Some b0).
Proof.
  intros Hop Hb0 Hlt Hhs Hclone.
  rewrite (tensor_clone_run lb b0 w Hb0) in Hclone.
  simpl in Hclone. injection Hclone as <-.
  destruct (evaluate_operator_run operator test_relation hs_by_subj h_layer
              recall_k betas lb b0 test_hs w Hop Hb0 Hlt Hhs)
    as (_ & _ & Hkept & Hbias).
  repeat split; [lia|exact Hkept|exact Hbias].
Qed.

(** ** Batches of the precompute stage *)

Lemma combine_skipn {A B} (l : list A) (l' : list B) (n : nat) :
  combine (skipn n l) (skipn n l') = skipn n (combine l l').
Proof.
  revert l l'. induction n as [|n IH]; intros l l'; [reflexivity|].
  destruct l as [|x l]; [reflexivity|].
  destruct l' as [|y l']; simpl.
  - destruct (skipn n l); reflexivity.
  - apply IH.
Qed.

Lemma py_slice_combine {A B} (l : list A) (l' : list B) (i : nat) (size : Z) :
  combine (py_slice l i size) (py_slice l' i size) =
  py_slice (combine l l') i size.
Proof.
  unfold py_slice. rewrite <- List.combine_firstn, combine_skipn. reflexivity.
Qed.

(** The batches cut by [range(0, n, step)] are the rows, in order. *)
Lemma batches_cover_rows {A} (rows : list A) (n step : nat) :
  (1 <= step)%nat ->
  (length rows <= n)%nat ->
  forall fuel i,
    (n <= fuel + i)%nat ->
    concat (map (fun j => firstn step (skipn j rows))
                (range_from fuel i n step))
    = skipn i rows.
Proof.
  intros Hstep Hn. induction fuel as [|fuel IH]; intros i Hfuel.
  - simpl. symmetry. apply List.skipn_all2. lia.
  - simpl. destruct (Nat.ltb_spec i n) as [Hi|Hi].
    + simpl. rewrite IH by lia.
      replace (i + step)%nat with (step + i)%nat by lia.
      rewrite <- (List.skipn_skipn step i rows).
      apply List.firstn_skipn.
    + simpl. symmetry. apply List.skipn_all2. lia.
Qed.

Lemma zip_app_map {A L} (f g : L -> list A) (layers : list L) :
  zip_app (map f layers) (map g layers) = map (fun l => f l ++ g l) layers.
Proof.
  induction layers as [|l layers IH]; [reflexivity|].
  simpl. rewrite IH. reflexivity.
Qed.

(** Concatenating, along the rows, batches that were computed row by
    row gives what the whole input computes row by row. *)
Lemma torch_cat_dim1_batches {R A L} (g : L -> R -> A) (layers : list L)
    (chunk : nat -> list R) (starts : list nat) :
  starts <> [] ->
  torch_cat_dim1
    (map (fun i => map (fun l => map (g l) (chunk i)) layers) starts)
  = Ok (map (fun l => map (g l) (concat (map chunk starts))) layers).
Proof.
  induction starts as [|i starts IH]; [congruence|]. intros _.
  destruct starts as [|j starts].
  - simpl. rewrite app_nil_r. reflexivity.
  - change (torch_cat_dim1
              (map (fun i => map (fun l => map (g l) (chunk i)) layers)
                   (i :: j :: starts)))
      with (let? rest :=
              torch_cat_dim1
                (map (fun i => map (fun l => map (g l) (chunk i)) layers)
                     (j :: starts)) in
            if (length (map (fun l => map (g l) (chunk i)) layers)
                =? length rest)%nat
            then Ok (zip_app (map (fun l => map (g l) (chunk i)) layers) rest)
            else Raise RuntimeError).
    rewrite IH by congruence. simpl rbind.
    rewrite !length_map, Nat.eqb_refl, zip_app_map.
    f_equal. apply map_ext. intros l.
    change (concat (map chunk (i :: j :: starts)))
      with (chunk i ++ concat (map chunk (j :: starts))).
    symmetry. apply List.map_app.
Qed.

Lemma res_bind {A B} (m : M A) (f : A -> M B) (w : world) :
  res (bind m f w) =
  match res (m w) with
  | Ok a => res (f a (final (m w)))
  | Raise e => Raise e
  end.
Proof. unfold bind. destruct (res (m w)); reflexivity. Qed.

Lemma for_each_pure {A B} (body : A -> M B) (f : A -> B) :
  (forall x w, res (body x w) = Ok (f x) /\ final (body x w) = w) ->
  forall l w,
    res (for_each body l w) = Ok (map f l) /\ final (for_each body l w) = w.
Proof.
  intros Hbody. induction l as [|x l IH]; intros w; [split; reflexivity|].
  destruct (Hbody x w) as [Hx Hw]. destruct (IH w) as [Hl Hw'].
  simpl. rewrite (bind_ok _ _ _ _ Hx). cbn [res final]. rewrite Hw.
  rewrite (bind_ok _ _ _ _ Hl). cbn [res final ret]. rewrite Hw'.
  split; reflexivity.
Qed.

Lemma forward_batch_rowwise (n_hidden : nat)
    (layer_hs : nat -> list Z * list Z -> list hvec)
    (inputs : BatchEncoding) (batch_size : Z) (i : nat) (w : world) :
  rowwise_model n_hidden layer_hs ->
  res (forward_batch inputs batch_size i w) =
    match n_hidden with
    | O => Raise RuntimeError
    | S k =>
        Ok (map (fun l =>
                   map (layer_hs l)
                       (py_slice (combine (input_ids inputs)
                                          (attention_mask inputs))
                                 i batch_size))
                (seq 1 k))
    end /\
  final (forward_batch inputs batch_size i w) = w.
Proof.
  intros Hrow. unfold forward_batch, call_model.
  erewrite bind_run; [|reflexivity].
  rewrite Hrow, py_slice_combine.
  destruct n_hidden as [|k]; split; reflexivity.
Qed.

(** The result of the inference part of [_precompute_hs], followed by
    any continuation [K], for a row-wise model and a positive batch
    size: it does not mention the batch size. *)
Lemma precompute_hidden_states_res {A} (n_hidden : nat)
    (layer_hs : nat -> list Z * list Z -> list hvec)
    (inputs : BatchEncoding) (batch_size : Z)
    (K : list (list (list hvec)) -> M A) (w : world) :
  (1 <= batch_size)%Z ->
  rowwise_model n_hidden layer_hs ->
  res ((starts <- lift (py_range_step (length (input_ids inputs)) batch_size) ;;
        batched_hidden_states <- for_each (forward_batch inputs batch_size) starts ;;
        hidden_states <- lift (torch_cat_dim1 batched_hidden_states) ;;
        K hidden_states) w) =
  match length (input_ids inputs), n_hidden with
  | O, _ => Raise RuntimeError
  | S _, O => Raise RuntimeError
  | S _, S k =>
      res (K (map (fun l =>
                     map (layer_hs l)
                         (combine (input_ids inputs) (attention_mask inputs)))
                  (seq 1 k))
             w)
  end.
Proof.
  intros Hb Hrow.
  set (rows := combine (input_ids inputs) (attention_mask inputs)).
  assert (Hrows : (length rows <= length (input_ids inputs))%nat).
  { subst rows. rewrite List.length_combine. lia. }
  rewrite res_bind. cbn [lift res final].
  unfold py_range_step.
  destruct (Z.eqb_spec batch_size 0) as [?|_]; [lia|].
  destruct (Z.ltb_spec batch_size 0) as [?|_]; [lia|].
  destruct (length (input_ids inputs)) as [|n'] eqn:Hn; [reflexivity|].
  rewrite res_bind.
  destruct n_hidden as [|k].
  - simpl range_from. simpl for_each. rewrite res_bind.
    rewrite (proj1 (forward_batch_rowwise 0 layer_hs inputs batch_size 0 w Hrow)).
    reflexivity.
  - set (starts := range_from (S n') 0 (S n') (Z.to_nat batch_size)).
    destruct (for_each_pure (forward_batch inputs batch_size)
                (fun i => map (fun l => map (layer_hs l)
                                            (py_slice rows i batch_size))
                              (seq 1 k))
                (fun i w0 => forward_batch_rowwise (S k) layer_hs inputs
                               batch_size i w0 Hrow)
                starts w) as [Hres Hfinal].
    rewrite Hres, Hfinal, res_bind. cbn [lift res final].
    rewrite (torch_cat_dim1_batches layer_hs (seq 1 k)
               (fun i => py_slice rows i batch_size) starts)
      by (subst starts; simpl; discriminate).
    unfold py_slice. subst starts.
    rewrite (batches_cover_rows rows (S n') (Z.to_nat batch_size))
      by lia.
    reflexivity.
Qed.

Lemma precompute_res_after_tokenizing (prompt_template : string)
    (subjects : list string) (examples : option (list RelationSample))
    (batch_size : Z) (w : world) :
  res (_precompute_hs prompt_template subjects examples batch_size w) =
  let prompts :=
    map (fun subj => make_prompt prompt_template subj examples) subjects in
  let inputs := tokenizer prompts in
  res ((starts <- lift (py_range_step (length (input_ids inputs)) batch_size) ;;
        batched_hidden_states <- for_each (forward_batch inputs batch_size) starts ;;
        hidden_states <- lift (torch_cat_dim1 batched_hidden_states) ;;
        fold_each (cache_subject hidden_states (offset_mapping inputs)) ∅
                  (enumerate (combine subjects prompts))) w).
Proof.
  unfold _precompute_hs.
  erewrite bind_run; [|apply make_prompts_run].
  erewrite bind_run; [|reflexivity].
  reflexivity.
Qed.

(** C8. For a model whose forward pass treats the rows of a batch
    independently and any batch size [b >= 1], [_precompute_hs] returns
    with batch size [b] exactly what it returns with batch size 1, the
    same cache or the same exception, for the same template, subjects
    and examples; and it leaves the world as it found it. *)
Theorem precompute_batch_size_invariant (n_hidden : nat)
    (layer_hs : nat -> list Z * list Z -> list hvec)
    (prompt_template : string) (subjects : list string)
    (examples : option (list RelationSample)) (batch_size : Z) (w : world) :
  (1 <= batch_size)%Z ->
  rowwise_model n_hidden layer_hs ->
  res (_precompute_hs prompt_template subjects examples batch_size w) =
  res (_precompute_hs prompt_template subjects examples 1 w) /\
  final (_precompute_hs prompt_template subjects examples batch_size w) = w.
Proof.
  intros Hb Hrow. split.
  - rewrite !precompute_res_after_tokenizing.
    set (prompts := map (fun subj => make_prompt prompt_template subj examples)
                        subjects).
    etransitivity.
    + exact (precompute_hidden_states_res n_hidden layer_hs (tokenizer prompts)
               batch_size
               (fun hidden_states =>
                  fold_each (cache_subject hidden_states
                               (offset_mapping (tokenizer prompts)))
                            ∅ (enumerate (combine subjects prompts)))
               w Hb Hrow).
    + symmetry.
      exact (precompute_hidden_states_res n_hidden layer_hs (tokenizer prompts)
               1
               (fun hidden_states =>
                  fold_each (cache_subject hidden_states
                               (offset_mapping (tokenizer prompts)))
                            ∅ (enumerate (combine subjects prompts)))
               w ltac:(lia) Hrow).
  - apply (precompute_sat same_world any ltac:(side) ltac:(side) ltac:(side)
             ltac:(side) prompt_template subjects examples batch_size
             ltac:(side) ltac:(side) w).
Qed.

End Driver.

(** * The properties at work in the small concrete setting *)

Lemma TrainResults_best_first_argmax_witness :
  exists i b,
    SweepFaithfulnessTrainResults_best
      {| tr_samples := [];
         tr_betas := [ {| br_beta := 0 # 1; br_recall := [1 # 2; 1 # 1]%Q |};
                       {| br_beta := 1 # 2; br_recall := [3 # 4; 1 # 1]%Q |};
                       {| br_beta := 1 # 1; br_recall := [3 # 4; 1 # 1]%Q |} ] |}
      1 = Ok b /\
    nth_error
      [ {| br_beta := 0 # 1; br_recall := [1 # 2; 1 # 1]%Q |};
        {| br_beta := 1 # 2; br_recall := [3 # 4; 1 # 1]%Q |};
        {| br_beta := 1 # 1; br_recall := [3 # 4; 1 # 1]%Q |} ] i = Some b /\
    (forall x,
       In x [ {| br_beta := 0 # 1; br_recall := [1 # 2; 1 # 1]%Q |};
              {| br_beta := 1 # 2; br_recall := [3 # 4; 1 # 1]%Q |};
              {| br_beta := 1 # 1; br_recall := [3 # 4; 1 # 1]%Q |} ] ->
       (recall_at 1 x <= recall_at 1 b)%Q) /\
    (forall j x,
       (j < i)%nat ->
       nth_error
         [ {| br_beta := 0 # 1; br_recall := [1 # 2; 1 # 1]%Q |};
           {| br_beta := 1 # 2; br_recall := [3 # 4; 1 # 1]%Q |};
           {| br_beta := 1 # 1; br_recall := [3 # 4; 1 # 1]%Q |} ] j = Some x ->
       (recall_at 1 x < recall_at 1 b)%Q).
Proof.
  apply (TrainResults_best_first_argmax
           {| tr_samples := [];
              tr_betas := [ {| br_beta := 0 # 1; br_recall := [1 # 2; 1 # 1]%Q |};
                            {| br_beta := 1 # 2; br_recall := [3 # 4; 1 # 1]%Q |};
                            {| br_beta := 1 # 1; br_recall := [3 # 4; 1 # 1]%Q |} ] |}
           1).
  - lia.
  - discriminate.
  - intros x [<-|[<-|[<-|[]]]]; simpl; lia.
Defined.

Lemma trial_loop_skips_small_relation_witness :
  trial_loop (C := toy) capitals "{} is the capital of" [0%Z] [(1 # 2)%Q]
    2 5 1 64 toy_world =
  {| res := Ok []; final := toy_world;
     trace :=
       [Log INFO (BeginTrial 1 2);
        Log WARNING (NotEnoughSamples 3 "capital of" 5);
        Log INFO (BeginTrial 2 2);
        Log WARNING (NotEnoughSamples 3 "capital of" 5)] |}.
Proof.
  apply (trial_loop_skips_small_relation (C := toy) capitals
           "{} is the capital of" [0%Z] [(1 # 2)%Q] 2 5 1 64 toy_world).
  simpl. lia.
Defined.

Lemma small_relation_recorded_empty_witness :
  (let o := relation_body (C := toy) 1 [0%Z] [(1 # 2)%Q] 1 5 1 64 false
              (0%nat, capitals) toy_world in
   res o = Ok (empty_results capitals) /\
   checkpoints (final o) =
     <["capital of"%string := empty_results capitals]> ∅ /\
   In (CallSave "capital of" (empty_results capitals)) (trace o) /\
   res (load_results_file (C := toy) "capital of" true (final o)) =
     Ok (Some (empty_results capitals))) /\
  nth_error [empty_results capitals] 0 = Some (empty_results capitals).
Proof.
  destruct (small_relation_recorded_empty (C := toy)) as [Hbody Hsweep].
  split.
  - apply (Hbody 1%nat [0%Z] [(1 # 2)%Q] 1%Z 5%Z 1%Z 64%Z false 0%nat
             capitals toy_world).
    + simpl. lia.
    + discriminate.
    + left. reflexivity.
  - apply (Hsweep {| relations := [capitals] |} (Some [0%Z])
             (Some [(1 # 2)%Q]) 1%Z 5%Z 1%Z 64%Z false toy_world
             {| sweep_relations := [empty_results capitals] |} 0%nat capitals).
    + vm_compute. reflexivity.
    + reflexivity.
    + simpl. lia.
    + discriminate.
    + left. reflexivity.
Defined.

Lemma resume_returns_stored_results_witness :
  exists sr,
    let o := sweep_faithfulness (C := toy) {| relations := [capitals] |}
               (Some [0; 1]%Z) (Some [(1 # 2)%Q; (1 # 1)%Q]) 1 2 1 64 true
               toy_world in
    res o = Ok sr /\
    (let o' := relation_body (C := toy) 1 [0%Z] [] 3 2 1 64 true
                 (0%nat, capitals)
                 (@Build_world toy
                    {[ "capital of"%string := empty_results capitals ]}
                    0%nat ∅ 0%nat) in
     res o' = Ok (empty_results capitals)) /\
    (let o' := sweep_faithfulness (C := toy) {| relations := [capitals] |}
                 None None 3 2 1 1 true (final o) in
     res o' = Ok sr /\ final o' = final o /\
     Forall is_bookkeeping (trace o')).
Proof.
  destruct (resume_returns_stored_results (C := toy)) as [Hbody Hsweep].
  eexists. cbv zeta. split; [vm_compute; reflexivity|]. split.
  - rewrite (Hbody 1%nat [0%Z] [] 3%Z 2%Z 1%Z 64%Z 0%nat capitals
               (@Build_world toy
                  {[ "capital of"%string := empty_results capitals ]}
                  0%nat ∅ 0%nat)
               (empty_results capitals)); reflexivity.
  - apply (Hsweep {| relations := [capitals] |} (Some [0; 1]%Z)
             (Some [(1 # 2)%Q; (1 # 1)%Q]) 1%Z 2%Z 1%Z 64%Z true toy_world).
    + left. reflexivity.
    + vm_compute. reflexivity.
    + reflexivity.
Defined.

Lemma only_first_prompt_template_used_witness :
  let o := relation_body (C := toy) 1 [0; 1]%Z [(1 # 2)%Q] 1 2 1 64 false
             (0%nat, capitals) toy_world in
  relation_body (C := toy) 1 [0; 1]%Z [(1 # 2)%Q] 1 2 1 64 false
    (0%nat, capitals_reworded) toy_world = o /\
  Forall (uses_template "{} is the capital of") (trace o) /\
  (false = false \/ checkpoints toy_world !! name capitals = None ->
   forall rr, res o = Ok rr ->
     Forall (fun y => trial_prompt_template y = "{} is the capital of"%string)
            (trials rr)).
Proof.
  apply (only_first_prompt_template_used (C := toy) 1%nat [0; 1]%Z [(1 # 2)%Q]
           1%Z 2%Z 1%Z 64%Z false 0%nat capitals capitals_reworded
           "{} is the capital of" toy_world); reflexivity.
Defined.

Lemma trial_passes_train_split_witness :
  let o := trial_body (C := toy) capitals "{} is the capital of" [0; 1]%Z
             [(1 # 2)%Q] 1 2 1 64 0 toy_world in
  make_prompt_calls (trace o) =
    [("{} is the capital of", "Paris", Some [sample "Paris" "France"]);
     ("{} is the capital of", "Rome", Some [sample "Paris" "France"]);
     ("{} is the capital of", "Madrid", Some [sample "Paris" "France"])]%string /\
  tokenizer_calls (trace o) =
    [["{} is the capital ofParis"; "{} is the capital ofRome";
      "{} is the capital ofMadrid"]%string] /\
  Forall (fun call =>
            snd call =
              Relation_set capitals
                [sample "Paris" "France"; sample "Rome" "Italy"]
                ["{} is the capital of"%string] /\
            samples (snd call) =
              [sample "Paris" "France"; sample "Rome" "Italy"])
         (estimator_calls (trace o)) /\
  (forall y, res o = Ok (Some y) ->
     trial_train_samples y = [sample "Paris" "France"; sample "Rome" "Italy"] /\
     estimator_calls (trace o) =
       map (fun h_layer =>
              (h_layer,
               Relation_set capitals
                 [sample "Paris" "France"; sample "Rome" "Italy"]
                 ["{} is the capital of"%string]))
           [0; 1]%Z).
Proof.
  apply (trial_passes_train_split (C := toy) capitals "{} is the capital of"
           [0; 1]%Z [(1 # 2)%Q] 1%Z 2%Z 1%Z 64%Z 0%Z toy_world
           [sample "Paris" "France"; sample "Rome" "Italy"]
           [sample "Madrid" "Spain"] 1%nat).
  - simpl. lia.
  - reflexivity.
Defined.

Lemma beta_and_layer_results_follow_input_order_witness :
  (let o := evaluate_operator (C := toy) toy_operator rome_only rome_cache
              0 1 [(1 # 2)%Q; (1 # 4)%Q] fitted_world in
   res o =
     Ok (map (beta_result_at (C := toy) toy_operator [2 # 1; 4 # 1]%Q
                ["Rome"%string] [5%Z] ["Italy"%string] 1)
             [(1 # 2)%Q; (1 # 4)%Q]) /\
   trace o =
     flat_map (beta_events_at (C := toy) toy_operator [2 # 1; 4 # 1]%Q
                 ["Rome"%string] [5%Z] ["Italy"%string] 1)
              [(1 # 2)%Q; (1 # 4)%Q]) /\
  (exists lrs,
     res (layer_loop (C := toy) capitals "{} is the capital of"
            [sample "Paris" "France"] rome_only rome_cache 1
            [(1 # 2)%Q] [1; 0]%Z toy_world) = Ok lrs /\
     map lr_layer lrs = [1; 0]%Z).
Proof.
  destruct (beta_and_layer_results_follow_input_order (C := toy))
    as [Hbetas Hlayers].
  split.
  - apply (Hbetas toy_operator rome_only rome_cache 0%Z 1%Z
             [(1 # 2)%Q; (1 # 4)%Q] 0%nat [2 # 1; 4 # 1]%Q [5%Z] fitted_world).
    + reflexivity.
    + reflexivity.
    + simpl. lia.
    + reflexivity.
  - eexists. split; [vm_compute; reflexivity|].
    eapply (Hlayers capitals "{} is the capital of"%string
              [sample "Paris" "France"] rome_only rome_cache 1%Z
              [(1 # 2)%Q] [1; 0]%Z toy_world).
    vm_compute. reflexivity.
Defined.

Lemma beta_grid_keeps_clone_overwrites_operator_bias_witness :
  let o := evaluate_operator (C := toy) toy_operator rome_only rome_cache
             0 1 [(1 # 2)%Q; (1 # 4)%Q] fitted_world in
  1%nat <> 0%nat /\
  heap (final o) !! 1%nat = Some [2 # 1; 4 # 1]%Q /\
  heap (final o) !! 0%nat =
    List.last (map (fun beta => Some (tensor_scale [2 # 1; 4 # 1]%Q beta))
                   [(1 # 2)%Q; (1 # 4)%Q])
              (Some [2 # 1; 4 # 1]%Q).
Proof.
  apply (beta_grid_keeps_clone_overwrites_operator_bias (C := toy)
           toy_operator rome_only rome_cache 0%Z 1%Z [(1 # 2)%Q; (1 # 4)%Q]
           0%nat [2 # 1; 4 # 1]%Q [5%Z] fitted_world 1%nat).
  - reflexivity.
  - reflexivity.
  - simpl. lia.
  - reflexivity.
  - reflexivity.
Defined.

Lemma toy_model_rowwise : rowwise_model (C := toy) 3 toy_layer_hs.
Proof.
  intros ids mask. change (@mt_model toy ids mask) with (toy_model ids mask).
  unfold toy_model.
  apply List.map_ext. intros l. apply List.map_ext. intros [r m]. reflexivity.
Qed.

Lemma precompute_batch_size_invariant_witness :
  res (_precompute_hs (C := toy) "{} is the capital of"
         ["Paris"; "Rome"; "Madrid"]%string
         (Some [sample "Paris" "France"]) 2 toy_world) =
  res (_precompute_hs (C := toy) "{} is the capital of"
         ["Paris"; "Rome"; "Madrid"]%string
         (Some [sample "Paris" "France"]) 1 toy_world) /\
  final (_precompute_hs (C := toy) "{} is the capital of"
           ["Paris"; "Rome"; "Madrid"]%string
           (Some [sample "Paris" "France"]) 2 toy_world) = toy_world.
Proof.
  apply (precompute_batch_size_invariant (C := toy) 3 toy_layer_hs
           "{} is the capital of" ["Paris"; "Rome"; "Madrid"]%string
           (Some [sample "Paris" "France"]) 2%Z toy_world).
  - lia.
  - exact toy_model_rowwise.
Defined.

(** ** Where the stated properties fail *)

(** Against C2 as stated: the operator is fitted with bias [[2; 4]];
    after the grid [[1/2]] has been evaluated, the operator's stored
    bias holds [[1; 2]], not the bias it had before the sweep. *)
Lemma operator_bias_not_restored_after_grid :
  let o := evaluate_operator (C := toy) toy_operator rome_only rome_cache
             0 1 [(1 # 2)%Q] fitted_world in
  op_bias toy_operator = Some 0%nat /\
  heap fitted_world !! 0%nat = Some [2 # 1; 4 # 1]%Q /\
  (exists rs, res o = Ok rs) /\
  exists t, heap (final o) !! 0%nat = Some t /\
            ~ Forall2 Qeq t [2 # 1; 4 # 1]%Q.
Proof.
  cbv zeta. split; [reflexivity|]. split; [reflexivity|].
  split; [eexists; vm_compute; reflexivity|].
  exists [2 # 2; 4 # 2]%Q. split; [vm_compute; reflexivity|].
  intros H. inversion H as [|x y l l' Hxy _]; subst.
  unfold Qeq in Hxy. simpl in Hxy. lia.
Qed.

(** Against C7 as stated: two relations of the dataset bear the same
    name. The first sweep, not resuming, computes both and the second
    result overwrites the first in the store; the sweep that then
    resumes loads the second result for both relations and returns a
    different sweep result. *)
Lemma resume_differs_with_duplicate_names :
  let dataset := {| relations := [capitals_stub; capitals] |} in
  let o := sweep_faithfulness (C := toy) dataset (Some [0%Z])
             (Some [(1 # 2)%Q]) 1 2 1 64 false toy_world in
  let o' := sweep_faithfulness (C := toy) dataset (Some [0%Z])
              (Some [(1 # 2)%Q]) 1 2 1 64 true (final o) in
  (exists sr, res o = Ok sr) /\
  (exists sr', res o' = Ok sr') /\
  res o' <> res o.
Proof.
  cbv zeta. split; [eexists; vm_compute; reflexivity|].
  split; [eexists; vm_compute; reflexivity|].
  vm_compute. intros H. discriminate H.
Qed.

(** * Further properties of the result records *)

(** ** When [TrainResults.best] raises *)

Lemma py_index_raises_IndexError {A} (l : list A) (i : Z) (e : exn) :
  py_index l i = Raise e -> e = IndexError.
Proof.
  unfold py_index.
  destruct ((0 <=? _)%Z && _)%bool; [|congruence].
  destruct (nth_error l _); congruence.
Qed.

Lemma py_index_beyond {A} (l : list A) (i : Z) :
  (Z.of_nat (length l) <= i)%Z -> py_index l i = Raise IndexError.
Proof.
  intros Hi. unfold py_index.
  destruct (Z.ltb_spec i 0) as [Hneg|_]; [lia|].
  destruct (Z.ltb_spec i (Z.of_nat (length l))) as [Hlt|_]; [lia|].
  rewrite andb_false_r. reflexivity.
Qed.

(** [max_loop] raises what a key raises, when every key that raises
    raises the same exception. *)
Lemma max_loop_raises {A} (key : A -> result Q) (e : exn) :
  forall (l : list A) (m : A) (mk : Q),
    (exists x, In x l /\ key x = Raise e) ->
    (forall x e', In x l -> key x = Raise e' -> e' = e) ->
    max_loop key m mk l = Raise e.
Proof.
  induction l as [|item l IH]; intros m mk [x [Hx Hraise]] Hsame.
  - destruct Hx.
  - simpl. destruct (key item) as [k|e'] eqn:Hitem.
    + assert (Hin : exists x, In x l /\ key x = Raise e).
      { destruct Hx as [<-|Hx]; [congruence|eauto]. }
      assert (Hsame' : forall x e', In x l -> key x = Raise e' -> e' = e).
      { intros y e' Hy. apply Hsame. right. exact Hy. }
      simpl. destruct (Qgtb k mk); apply IH; assumption.
    + simpl. f_equal. eapply Hsame; [left; reflexivity|exact Hitem].
Qed.

Lemma py_max_raises {A} (key : A -> result Q) (e : exn) (l : list A) :
  (exists x, In x l /\ key x = Raise e) ->
  (forall x e', In x l -> key x = Raise e' -> e' = e) ->
  py_max l key = Raise e.
Proof.
  intros [x [Hx Hraise]] Hsame. destruct l as [|m l]; [destruct Hx|].
  simpl. destruct (key m) as [k|e'] eqn:Hm.
  - simpl. apply max_loop_raises.
    + destruct Hx as [<-|Hx]; [congruence|eauto].
    + intros y e' Hy. apply Hsame. right. exact Hy.
  - simpl. f_equal. eapply Hsame; [left; reflexivity|exact Hm].
Qed.

(** X1. [TrainResults.best(k)] on an empty beta list raises
    [ValueError]; for [k >= 1] and a non-empty list it raises
    [IndexError] as soon as one beta result recorded fewer than [k]
    recall positions, and returns a beta result otherwise. *)
Theorem TrainResults_best_outcome
    (self : SweepFaithfulnessTrainResults) (k : Z) :
  (tr_betas self = [] ->
   SweepFaithfulnessTrainResults_best self k = Raise ValueError) /\
  ((1 <= k)%Z ->
   (exists x, In x (tr_betas self) /\
              (Z.of_nat (length (br_recall x)) < k)%Z) ->
   SweepFaithfulnessTrainResults_best self k = Raise IndexError) /\
  ((1 <= k)%Z ->
   tr_betas self <> [] ->
   (forall x, In x (tr_betas self) ->
              (k <= Z.of_nat (length (br_recall x)))%Z) ->
   exists b, SweepFaithfulnessTrainResults_best self k = Ok b /\
             In b (tr_betas self)).
Proof.
  split; [apply TrainResults_best_empty|]. split.
  - intros Hk (x & Hx & Hshort). unfold SweepFaithfulnessTrainResults_best.
    apply py_max_raises.
    + exists x. split; [exact Hx|]. apply py_index_beyond. lia.
    + intros y e' _ Hy. eapply py_index_raises_IndexError. exact Hy.
  - intros Hk Hne Hlen. unfold SweepFaithfulnessTrainResults_best.
    destruct (tr_betas self) as [|m l]; [congruence|].
    assert (Hkey : forall x, In x (m :: l) ->
                   py_index (br_recall x) (k - 1) = Ok (recall_at k x)).
    { intros x Hx. apply recall_at_index. split; [exact Hk|apply Hlen, Hx]. }
    unfold py_max. rewrite (Hkey m (or_introl eq_refl)). simpl.
    destruct (max_loop_first_greatest
                (fun x => py_index (br_recall x) (k - 1)) (recall_at k) l m)
      as (i & b & Hres & Hnth & _).
    { intros x Hx. apply Hkey. right. exact Hx. }
    exists b. split; [exact Hres|]. exact (List.nth_error_In _ _ Hnth).
Qed.

(** ** [by_layer] groups the layer results by layer *)

Lemma rfold_app {A B} (f : B -> A -> result B) (l1 l2 : list A) (acc : B) :
  rfold f acc (l1 ++ l2) = (let? acc' := rfold f acc l1 in rfold f acc' l2).
Proof.
  revert acc. induction l1 as [|x l1 IH]; intros acc; [reflexivity|].
  simpl. destruct (f acc x) as [acc'|e]; simpl; [apply IH|reflexivity].
Qed.

Lemma rfold_flat_map {A B T} (f : B -> A -> result B) (g : T -> list A)
    (ts : list T) (acc : B) :
  rfold (fun acc t => rfold f acc (g t)) acc ts = rfold f acc (flat_map g ts).
Proof.
  revert acc. induction ts as [|t ts IH]; intros acc; [reflexivity|].
  simpl. rewrite rfold_app.
  destruct (rfold f acc (g t)) as [acc'|e]; simpl; [apply IH|reflexivity].
Qed.

Lemma by_layer_collect_contribution (k : Z) acc lr :
  by_layer_collect k acc lr =
  (let? c := layer_contribution k lr in
   Ok (defaultdict_append acc (contribution_layer c) c)).
Proof.
  unfold by_layer_collect, layer_contribution.
  destruct (SweepFaithfulnessTrainResults_best (lr_result lr) 1) as [best|e];
    [|reflexivity].
  simpl. destruct (py_index (br_recall best) (k - 1)); reflexivity.
Qed.

Lemma rfold_by_layer_collect (k : Z) (l : list SweepFaithfulnessLayerResults) :
  forall acc,
    rfold (by_layer_collect k) acc l =
    (let? cs := rmap (layer_contribution k) l in
     Ok (fold_left (fun d c => defaultdict_append d (contribution_layer c) c)
                   cs acc)).
Proof.
  induction l as [|lr l IH]; intros acc; [reflexivity|].
  simpl. rewrite by_layer_collect_contribution.
  destruct (layer_contribution k lr) as [c|e]; [|reflexivity].
  simpl. rewrite IH.
  destruct (rmap (layer_contribution k) l); reflexivity.
Qed.

Lemma existsb_eqb_In (x : Z) (l : list Z) :
  existsb (Z.eqb x) l = true <-> In x l.
Proof.
  rewrite existsb_exists. split.
  - intros (y & Hy & Heq). apply Z.eqb_eq in Heq. subst. exact Hy.
  - intros Hx. exists x. split; [exact Hx|apply Z.eqb_refl].
Qed.

Lemma first_occurrences_In (l : list Z) (y : Z) :
  In y (first_occurrences l) <-> In y l.
Proof.
  induction l as [|x l IH]; [reflexivity|].
  simpl. rewrite List.filter_In, IH, negb_true_iff, Z.eqb_neq.
  destruct (Z.eq_dec x y) as [->|Hne]; [tauto|].
  split; [tauto|]. intros [?|?]; [contradiction|]. right. split; congruence.
Qed.

Lemma first_occurrences_NoDup (l : list Z) : List.NoDup (first_occurrences l).
Proof.
  induction l as [|x l IH]; simpl; constructor.
  - rewrite List.filter_In, negb_true_iff, Z.eqb_neq. tauto.
  - apply List.NoDup_filter. exact IH.
Qed.

Lemma first_occurrences_snoc (l : list Z) (x : Z) :
  first_occurrences (l ++ [x]) =
  if existsb (Z.eqb x) l then first_occurrences l
  else first_occurrences l ++ [x].
Proof.
  induction l as [|a l IH]; [reflexivity|].
  simpl. rewrite IH.
  destruct (existsb (Z.eqb x) l).
  - rewrite orb_true_r. reflexivity.
  - rewrite orb_false_r, List.filter_app. simpl.
    destruct (x =? a)%Z; simpl; [rewrite app_nil_r|]; reflexivity.
Qed.

(** Appending to a dictionary that tabulates [f] over distinct keys. *)
Lemma defaultdict_append_tabulated {V} (f : Z -> list V) (key : Z) (v : V) :
  forall keys,
    List.NoDup keys ->
    defaultdict_append (map (fun layer => (layer, f layer)) keys) key v =
    if existsb (Z.eqb key) keys
    then map (fun layer =>
                (layer, if (layer =? key)%Z then f layer ++ [v] else f layer))
             keys
    else map (fun layer => (layer, f layer)) keys ++ [(key, [v])].
Proof.
  induction keys as [|a keys IH]; intros Hnodup; [reflexivity|].
  apply List.NoDup_cons_iff in Hnodup. destruct Hnodup as [Hnotin Hnodup].
  simpl. rewrite (Z.eqb_sym key a).
  destruct (Z.eqb_spec a key) as [->|Hne]; simpl.
  - f_equal. apply List.map_ext_in. intros layer Hlayer.
    destruct (Z.eqb_spec layer key) as [->|_]; [contradiction|reflexivity].
  - rewrite IH by exact Hnodup.
    destruct (existsb (Z.eqb key) keys); reflexivity.
Qed.

Lemma contributions_to_snoc (layer : Z) (cs : list (Z * Q * Q)) (c : Z * Q * Q) :
  contributions_to layer (cs ++ [c]) =
  contributions_to layer cs ++
  (if (contribution_layer c =? layer)%Z then [c] else []).
Proof. unfold contributions_to. rewrite List.filter_app. reflexivity. Qed.

Lemma contributions_to_absent (layer : Z) (cs : list (Z * Q * Q)) :
  ~ In layer (map contribution_layer cs) -> contributions_to layer cs = [].
Proof.
  intros Habsent. induction cs as [|c cs IH]; [reflexivity|].
  unfold contributions_to in *. simpl in *.
  destruct (Z.eqb_spec (contribution_layer c) layer) as [Heq|_]; [tauto|].
  apply IH. tauto.
Qed.

(** The dictionary that the loop of [by_layer] fills is the table of
    the contributions to each layer, the layers in order of first
    occurrence. *)
Lemma grouped_contributions (cs : list (Z * Q * Q)) :
  fold_left (fun d c => defaultdict_append d (contribution_layer c) c) cs [] =
  map (fun layer => (layer, contributions_to layer cs))
      (first_occurrences (map contribution_layer cs)).
Proof.
  induction cs as [|c cs IH] using rev_ind; [reflexivity|].
  rewrite fold_left_app. simpl. rewrite IH.
  rewrite defaultdict_append_tabulated by apply first_occurrences_NoDup.
  rewrite List.map_app. simpl. rewrite first_occurrences_snoc.
  assert (Hsame : existsb (Z.eqb (contribution_layer c))
                    (first_occurrences (map contribution_layer cs)) =
                  existsb (Z.eqb (contribution_layer c))
                    (map contribution_layer cs)).
  { apply eq_true_iff_eq. rewrite !existsb_eqb_In.
    apply first_occurrences_In. }
  rewrite Hsame.
  destruct (existsb (Z.eqb (contribution_layer c)) (map contribution_layer cs))
    eqn:Hseen.
  - apply List.map_ext. intros layer. rewrite contributions_to_snoc.
    rewrite (Z.eqb_sym layer).
    destruct (contribution_layer c =? layer)%Z;
      [reflexivity|rewrite app_nil_r; reflexivity].
  - assert (Habsent : ~ In (contribution_layer c) (map contribution_layer cs)).
    { rewrite <- existsb_eqb_In. intros H. rewrite H in Hseen.
      discriminate Hseen. }
    rewrite List.map_app. simpl. f_equal.
    + apply List.map_ext_in. intros layer Hlayer.
      apply (proj1 (first_occurrences_In _ _)) in Hlayer.
      rewrite contributions_to_snoc.
      destruct (Z.eqb_spec (contribution_layer c) layer) as [Heq|_];
        [exfalso; apply Habsent; rewrite Heq; exact Hlayer|].
      rewrite app_nil_r. reflexivity.
    + rewrite contributions_to_snoc, Z.eqb_refl.
      rewrite contributions_to_absent by exact Habsent. reflexivity.
Qed.

Lemma dict_get_tabulated {V} (f : Z -> V) (keys : list Z) (key : Z) :
  In key keys ->
  dict_get (map (fun layer => (layer, f layer)) keys) key = Ok (f key).
Proof.
  induction keys as [|a keys IH]; intros Hkey; [destruct Hkey|].
  simpl. destruct (Z.eqb_spec a key) as [->|Hne]; [reflexivity|].
  apply IH. destruct Hkey; [contradiction|assumption].
Qed.

Lemma rmap_all_ok {A B} (f : A -> result B) (g : A -> B) (l : list A) :
  (forall x, In x l -> f x = Ok (g x)) -> rmap f l = Ok (map g l).
Proof.
  induction l as [|x l IH]; intros Hok; [reflexivity|].
  simpl. rewrite (Hok x (or_introl eq_refl)). simpl.
  rewrite IH by (intros y Hy; apply Hok; right; exact Hy). reflexivity.
Qed.

Lemma by_layer_tabulates
    (self : SweepFaithfulnessRelationResults) (k : Z) :
  SweepFaithfulnessRelationResults_by_layer self k =
  (let? cs := rmap (layer_contribution k) (all_layer_results self) in
   Ok (map (fun layer => (layer, layer_summary_of cs layer))
           (first_occurrences (map contribution_layer cs)))).
Proof.
  unfold SweepFaithfulnessRelationResults_by_layer, all_layer_results.
  rewrite rfold_flat_map, rfold_by_layer_collect.
  destruct (rmap (layer_contribution k) (flat_map trial_layers (trials self)))
    as [cs|e]; [|reflexivity].
  cbn [rbind]. rewrite grouped_contributions.
  set (keys := first_occurrences (map contribution_layer cs)).
  unfold dict_keys. rewrite !List.map_map. cbn [fst].
  rewrite List.map_id.
  apply rmap_all_ok. intros layer Hlayer.
  rewrite (dict_get_tabulated
             (fun layer => aggregate (map (fun x => snd (fst x))
                                          (contributions_to layer cs)))
             keys layer Hlayer).
  rewrite (dict_get_tabulated
             (fun layer => aggregate (map snd (contributions_to layer cs)))
             keys layer Hlayer).
  reflexivity.
Qed.

(** X2. [by_layer(k)] computes, for every layer result of every trial in
    order, its contribution (layer, best beta, recall at [k] of the best
    beta result), raising what the first failing contribution raises;
    it then returns one summary per distinct layer, keyed by the layer
    and in order of the layer's first occurrence, that aggregates the
    betas and the recalls of exactly the contributions to that layer. *)
Theorem by_layer_groups_by_layer
    (self : SweepFaithfulnessRelationResults) (k : Z) :
  SweepFaithfulnessRelationResults_by_layer self k =
  (let? cs := rmap (layer_contribution k) (all_layer_results self) in
   Ok (map (fun layer => (layer, layer_summary_of cs layer))
           (first_occurrences (map contribution_layer cs)))).
Proof. apply by_layer_tabulates. Qed.

(** ** What [RelationResults.best] returns *)

(** X3. With [d] the by-layer summaries at recall position 1:
    [RelationResults.best(k)] raises [ValueError] when [d] is empty (in
    particular when no trial recorded any layer), and otherwise returns,
    for every [k], the first summary of [d] whose mean recall is
    greatest: every summary has a mean recall at most its own, every
    earlier one a strictly smaller one. Whatever [by_layer] raises,
    [best] raises. *)
Theorem RelationResults_best_first_argmax_at_1
    (self : SweepFaithfulnessRelationResults) (k : Z) :
  (forall e, SweepFaithfulnessRelationResults_by_layer self 1 = Raise e ->
             SweepFaithfulnessRelationResults_best self k = Raise e) /\
  (all_layer_results self = [] ->
   SweepFaithfulnessRelationResults_best self k = Raise ValueError) /\
  (forall d,
     SweepFaithfulnessRelationResults_by_layer self 1 = Ok d ->
     (d = [] -> SweepFaithfulnessRelationResults_best self k = Raise ValueError) /\
     (d <> [] ->
      exists i layer s,
        SweepFaithfulnessRelationResults_best self k = Ok s /\
        nth_error d i = Some (layer, s) /\
        (forall layer' s', In (layer', s') d ->
                           (mean (ls_recall s') <= mean (ls_recall s))%Q) /\
        (forall j layer' s', (j < i)%nat -> nth_error d j = Some (layer', s') ->
                             (mean (ls_recall s') < mean (ls_recall s))%Q))).
Proof.
  unfold SweepFaithfulnessRelationResults_best.
  split; [intros e ->; reflexivity|].
  split.
  { intros Hnone. rewrite by_layer_tabulates, Hnone. reflexivity. }
  intros d Hd. rewrite Hd. cbn [rbind].
  split; [intros ->; reflexivity|]. intros Hne.
  rewrite by_layer_tabulates in Hd.
  destruct (rmap (layer_contribution 1) (all_layer_results self)) as [cs|e];
    [|discriminate].
  cbn [rbind] in Hd. injection Hd as <-.
  set (keys := first_occurrences (map contribution_layer cs)) in *.
  set (d := map (fun layer => (layer, layer_summary_of cs layer)) keys) in *.
  set (f := fun layer => mean (ls_recall (layer_summary_of cs layer))).
  assert (Hget : forall x, In x keys -> dict_get d x = Ok (layer_summary_of cs x)).
  { intros x Hx. apply dict_get_tabulated. exact Hx. }
  assert (Hkeys : dict_keys d = keys).
  { unfold dict_keys, d. rewrite List.map_map. apply List.map_id. }
  rewrite Hkeys.
  destruct keys as [|m l] eqn:Ekeys; [exfalso; apply Hne; reflexivity|].
  unfold py_max. rewrite (Hget m (or_introl eq_refl)). cbn [rbind].
  destruct (max_loop_first_greatest
              (fun x => let? s := dict_get d x in Ok (mean (ls_recall s)))
              f l m)
    as (i & b & Hres & Hnth & Hmax & Hfirst).
  { intros x Hx. rewrite (Hget x (or_intror Hx)). reflexivity. }
  fold (f m). rewrite Hres. cbn [rbind].
  assert (Hb : In b (m :: l)) by exact (List.nth_error_In _ _ Hnth).
  rewrite (Hget b Hb).
  exists i, b, (layer_summary_of cs b). split; [reflexivity|].
  split; [|split].
  - exact (List.map_nth_error
             (fun layer => (layer, layer_summary_of cs layer)) i (m :: l) Hnth).
  - intros layer' s' Hin.
    apply (proj1 (in_map_iff
                    (fun layer => (layer, layer_summary_of cs layer))
                    (m :: l) (layer', s'))) in Hin.
    destruct Hin as (x & [= <- <-] & Hx). apply (Hmax x Hx).
  - intros j layer' s' Hj Hnthj.
    assert (Hj' : option_map (fun layer => (layer, layer_summary_of cs layer))
                             (nth_error (m :: l) j) = Some (layer', s'))
      by (rewrite <- List.nth_error_map; exact Hnthj).
    destruct (nth_error (m :: l) j) as [x|] eqn:Hx; [|discriminate].
    simpl in Hj'. injection Hj' as <- <-. apply (Hfirst j x Hj Hx).
Qed.

(** * Further properties of the sweep *)

Section Further.

Context {C : Collaborators}.

Ltac side :=
  unfold same_checkpoints, same_world, any; simpl; intros;
  try exact Logic.I; try congruence; auto.

(** ** Inversion of successful runs *)

Lemma res_bind_inv {A B} (m : M A) (f : A -> M B) (w : world) (b : B) :
  res (bind m f w) = Ok b ->
  exists a, res (m w) = Ok a /\ res (f a (final (m w))) = Ok b.
Proof.
  rewrite res_bind. destruct (res (m w)) as [a|e]; [eauto|discriminate].
Qed.

Lemma final_bind {A B} (m : M A) (f : A -> M B) (w : world) :
  final (bind m f w) =
  match res (m w) with
  | Ok a => final (f a (final (m w)))
  | Raise _ => final (m w)
  end.
Proof. unfold bind. destruct (res (m w)); reflexivity. Qed.

Lemma for_each_opt_cons_ok {A B} (body : A -> M (option B)) (x : A)
    (l : list A) (w : world) (ys : list B) :
  res (for_each_opt body (x :: l) w) = Ok ys ->
  exists y ys',
    res (body x w) = Ok y /\
    res (for_each_opt body l (final (body x w))) = Ok ys' /\
    ys = match y with Some y' => y' :: ys' | None => ys' end.
Proof.
  simpl. intros H.
  apply res_bind_inv in H. destruct H as (y & Hy & H).
  apply res_bind_inv in H. destruct H as (ys' & Hys & H).
  simpl in H. injection H as <-. eauto.
Qed.

Lemma fold_each_cons_ok {A B} (body : B -> A -> M B) (x : A) (l : list A)
    (acc : B) (w : world) (r : B) :
  res (fold_each body acc (x :: l) w) = Ok r ->
  exists acc',
    res (body acc x w) = Ok acc' /\
    res (fold_each body acc' l (final (body acc x w))) = Ok r.
Proof. simpl. intros H. apply res_bind_inv in H. exact H. Qed.

(** ** The shape of a swept relation's result *)

Lemma beta_body_beta operator lb bias test_subjects test_hs test_objects
    recall_k beta w r :
  res (beta_body operator lb bias test_subjects test_hs test_objects
         recall_k beta w) = Ok r ->
  br_beta r = beta.
Proof.
  unfold beta_body. intros H.
  apply res_bind_inv in H. destruct H as (original & _ & H).
  apply res_bind_inv in H. destruct H as (u & _ & H).
  apply res_bind_inv in H. destruct H as (preds & _ & H).
  apply res_bind_inv in H. destruct H as (rc & _ & H).
  simpl in H. injection H as <-. reflexivity.
Qed.

Lemma evaluate_operator_betas operator test_relation hs_by_subj h_layer
    recall_k betas w rs :
  res (evaluate_operator operator test_relation hs_by_subj h_layer
         recall_k betas w) = Ok rs ->
  map br_beta rs = betas.
Proof.
  unfold evaluate_operator, beta_loop. intros H.
  apply res_bind_inv in H. destruct H as (lb & _ & H).
  apply res_bind_inv in H. destruct H as (bias & _ & H).
  apply res_bind_inv in H. destruct H as (test_hs & _ & H).
  apply (for_each_Forall2 (fun beta r => br_beta r = beta)) in H.
  - induction H as [|beta r betas' rs' Hbeta _ IH]; [reflexivity|].
    simpl. rewrite Hbeta, IH. reflexivity.
  - intros beta w0 r. apply beta_body_beta.
Qed.

Lemma layer_body_shape relation prompt_template train_samples test_relation
    hs_by_subj recall_k betas h_layer w lr :
  res (layer_body relation prompt_template train_samples test_relation
         hs_by_subj recall_k betas h_layer w) = Ok lr ->
  lr_layer lr = h_layer /\
  map br_beta (tr_betas (lr_result lr)) = betas /\
  tr_samples (lr_result lr) = train_samples.
Proof.
  unfold layer_body. intros H.
  apply res_bind_inv in H. destruct H as (u & _ & H).
  apply res_bind_inv in H. destruct H as (operator & _ & H).
  apply res_bind_inv in H. destruct H as (rs & Hrs & H).
  apply res_bind_inv in H. destruct H as (u' & _ & H).
  simpl in H. injection H as <-. simpl.
  apply evaluate_operator_betas in Hrs. auto.
Qed.

Lemma layer_loop_shape relation prompt_template train_samples test_relation
    hs_by_subj recall_k betas h_layers w lrs :
  res (layer_loop relation prompt_template train_samples test_relation
         hs_by_subj recall_k betas h_layers w) = Ok lrs ->
  map lr_layer lrs = h_layers /\
  Forall (fun lr =>
            map br_beta (tr_betas (lr_result lr)) = betas /\
            tr_samples (lr_result lr) = train_samples)
         lrs.
Proof.
  unfold layer_loop. intros H.
  apply (for_each_Forall2
           (fun h_layer lr =>
              lr_layer lr = h_layer /\
              map br_beta (tr_betas (lr_result lr)) = betas /\
              tr_samples (lr_result lr) = train_samples)) in H.
  - induction H as [|h lr hs lrs' (Hh & Hb & Hs) _ [IH1 IH2]];
      [split; constructor|].
    split; [simpl; rewrite Hh, IH1; reflexivity|].
    constructor; auto.
  - intros h_layer w0 lr. apply layer_body_shape.
Qed.

Lemma trial_body_shape relation prompt_template h_layers betas
    n_trials n_train_samples recall_k batch_size trial w o :
  res (trial_body relation prompt_template h_layers betas
         n_trials n_train_samples recall_k batch_size trial w) = Ok o ->
  if (Z.of_nat (length (samples relation)) <=? n_train_samples)%Z
  then o = None
  else exists t, o = Some t /\ grid_shaped h_layers betas t.
Proof.
  unfold trial_body. intros H.
  apply res_bind_inv in H. destruct H as (u & _ & H).
  destruct (Z.of_nat (length (samples relation)) <=? n_train_samples)%Z.
  - apply res_bind_inv in H. destruct H as (u' & _ & H).
    simpl in H. congruence.
  - apply res_bind_inv in H. destruct H as ([train_relation test_relation] & _ & H).
    apply res_bind_inv in H. destruct H as (u1 & _ & H).
    apply res_bind_inv in H. destruct H as (u2 & _ & H).
    apply res_bind_inv in H. destruct H as (hs_by_subj & _ & H).
    apply res_bind_inv in H. destruct H as (lrs & Hlrs & H).
    simpl in H. injection H as <-.
    apply layer_loop_shape in Hlrs. destruct Hlrs as [Hlayers Hbetas].
    eexists. split; [reflexivity|]. split; simpl; assumption.
Qed.

Lemma trial_loop_shape relation prompt_template h_layers betas
    n_trials n_train_samples recall_k batch_size :
  forall (l : list Z) w trs,
    res (for_each_opt (trial_body relation prompt_template h_layers betas
                         n_trials n_train_samples recall_k batch_size) l w)
    = Ok trs ->
    Forall (grid_shaped h_layers betas) trs /\
    length trs =
      if (Z.of_nat (length (samples relation)) <=? n_train_samples)%Z
      then 0%nat else length l.
Proof.
  induction l as [|trial l IH]; intros w trs H.
  - simpl in H. injection H as <-.
    split; [constructor|]. destruct (_ <=? _)%Z; reflexivity.
  - apply for_each_opt_cons_ok in H.
    destruct H as (o & trs' & Ho & Htrs' & ->).
    apply trial_body_shape in Ho. apply IH in Htrs'.
    destruct Htrs' as [Hall Hlen].
    destruct (Z.of_nat (length (samples relation)) <=? n_train_samples)%Z.
    + subst o. auto.
    + destruct Ho as (t & -> & Ht). split; [constructor; assumption|].
      simpl. rewrite Hlen. reflexivity.
Qed.

Lemma sweep_relation_shape relation h_layers betas
    n_trials n_train_samples recall_k batch_size w rr :
  res (sweep_relation relation h_layers betas
         n_trials n_train_samples recall_k batch_size w) = Ok rr ->
  relation_name rr = name relation /\
  Forall (grid_shaped h_layers betas) (trials rr) /\
  length (trials rr) =
    if (Z.of_nat (length (samples relation)) <=? n_train_samples)%Z
    then 0%nat else Z.to_nat n_trials.
Proof.
  unfold sweep_relation, trial_loop. intros H.
  apply res_bind_inv in H. destruct H as (pt & _ & H).
  apply res_bind_inv in H. destruct H as (trs & Htrs & H).
  apply res_bind_inv in H. destruct H as (u & _ & H).
  apply res_bind_inv in H. destruct H as (u' & _ & H).
  simpl in H. injection H as <-. simpl.
  apply trial_loop_shape in Htrs. destruct Htrs as [Hall Hlen].
  split; [reflexivity|]. split; [exact Hall|].
  rewrite Hlen. unfold py_range. rewrite length_map, length_seq. reflexivity.
Qed.

(** X4. When the sweep of a relation completes, its result is named
    after the relation; it holds no trial if the relation has at most
    [n_train_samples] samples and [n_trials] trials otherwise (none for a
    negative [n_trials]); and every trial has one layer result per layer
    of [h_layers], in order, each with one beta result per beta of
    [betas], in order, and with the trial's train samples. *)
Theorem swept_relation_result_shape relation h_layers betas
    n_trials n_train_samples recall_k batch_size w rr :
  res (sweep_relation relation h_layers betas
         n_trials n_train_samples recall_k batch_size w) = Ok rr ->
  relation_name rr = name relation /\
  Forall (grid_shaped h_layers betas) (trials rr) /\
  length (trials rr) =
    if (Z.of_nat (length (samples relation)) <=? n_train_samples)%Z
    then 0%nat else Z.to_nat n_trials.
Proof. apply sweep_relation_shape. Qed.

(** ** Names of the results and of the store's entries *)

Lemma sweep_faithfulness_final_always dataset h_layers betas
    n_trials n_train_samples recall_k batch_size resume w :
  final (sweep_faithfulness dataset h_layers betas n_trials n_train_samples
           recall_k batch_size resume w) =
  final (for_each
           (relation_body (length (relations dataset))
              (match h_layers with Some l => l | None => determine_layers end)
              (match betas with Some l => l | None => default_betas end)
              n_trials n_train_samples recall_k batch_size resume)
           (enumerate (relations dataset)) w).
Proof.
  unfold sweep_faithfulness. cbv zeta.
  erewrite bind_run; [|reflexivity]. cbn [final].
  rewrite final_bind.
  destruct (res (for_each _ _ w)); reflexivity.
Qed.

Lemma relation_body_cases n_relations h_layers betas
    n_trials n_train_samples recall_k batch_size resume ri relation w :
  let o := relation_body n_relations h_layers betas n_trials n_train_samples
             recall_k batch_size resume (ri, relation) w in
  (exists rr, resume = true /\ checkpoints w !! name relation = Some rr /\
              res o = Ok rr /\ final o = w) \/
  (res o = res (sweep_relation relation h_layers betas n_trials
                  n_train_samples recall_k batch_size w) /\
   final o = final (sweep_relation relation h_layers betas n_trials
                      n_train_samples recall_k batch_size w)).
Proof.
  cbv zeta.
  destruct resume; [destruct (checkpoints w !! name relation) as [rr|] eqn:Hrr|].
  - left. exists rr. erewrite relation_body_loaded by exact Hrr. auto.
  - right. rewrite relation_body_not_loaded by (right; exact Hrr). auto.
  - right. rewrite relation_body_not_loaded by (left; reflexivity). auto.
Qed.

Lemma relation_body_named n_relations h_layers betas
    n_trials n_train_samples recall_k batch_size resume ri relation w rr :
  resume = false \/ named_after_keys w ->
  res (relation_body n_relations h_layers betas n_trials n_train_samples
         recall_k batch_size resume (ri, relation) w) = Ok rr ->
  relation_name rr = name relation.
Proof.
  intros Hnamed Hrr.
  destruct (relation_body_cases n_relations h_layers betas n_trials
              n_train_samples recall_k batch_size resume ri relation w)
    as [(rr' & Hresume & Hstored & Hres & _)|[Hres _]].
  - rewrite Hres in Hrr. injection Hrr as <-.
    destruct Hnamed as [->|Hnamed]; [discriminate|].
    apply Hnamed. exact Hstored.
  - rewrite Hres in Hrr. apply sweep_relation_shape in Hrr. tauto.
Qed.

Lemma relation_body_keeps_naming n_relations h_layers betas
    n_trials n_train_samples recall_k batch_size resume item w :
  named_after_keys w ->
  named_after_keys
    (final (relation_body n_relations h_layers betas n_trials n_train_samples
              recall_k batch_size resume item w)).
Proof.
  intros Hnamed. destruct item as [ri relation].
  destruct (relation_body_cases n_relations h_layers betas n_trials
              n_train_samples recall_k batch_size resume ri relation w)
    as [(rr' & _ & _ & _ & ->)|[_ ->]]; [exact Hnamed|].
  destruct (sweep_relation_store relation h_layers betas n_trials
              n_train_samples recall_k batch_size w)
    as [[Hsame _]|(rr & Hrr & Hsaved)]; intros key v.
  - rewrite Hsame. apply Hnamed.
  - rewrite Hsaved. apply sweep_relation_shape in Hrr.
    destruct (decide (name relation = key)) as [<-|Hne].
    + rewrite lookup_insert_eq. intros [= <-]. tauto.
    + rewrite lookup_insert_ne by exact Hne. apply Hnamed.
Qed.

Lemma driver_loop_names n_relations h_layers betas
    n_trials n_train_samples recall_k batch_size resume :
  forall (items : list (nat * Relation)) w rrs,
    resume = false \/ named_after_keys w ->
    res (for_each (relation_body n_relations h_layers betas n_trials
                     n_train_samples recall_k batch_size resume) items w)
    = Ok rrs ->
    map relation_name rrs = map (fun item => name (snd item)) items.
Proof.
  induction items as [|[ri relation] items IH]; intros w rrs Hnamed Hrun.
  - simpl in Hrun. injection Hrun as <-. reflexivity.
  - apply for_each_cons_ok in Hrun.
    destruct Hrun as (rr & rrs' & -> & Hrr & Hrest & _).
    simpl. f_equal.
    + eapply relation_body_named; eassumption.
    + eapply IH; [|exact Hrest].
      destruct Hnamed as [->|Hnamed]; [left; reflexivity|right].
      apply relation_body_keeps_naming. exact Hnamed.
Qed.

(** X5. A sweep that starts from a checkpoint store whose entries are
    all stored under their own relation name leaves such a store,
    whether it completes or raises. When the sweep completes, and it did
    not resume or started from such a store, it returns exactly one
    result per relation of the dataset, in dataset order, each named
    after its relation. *)
Theorem sweep_results_named_after_relations dataset h_layers betas
    n_trials n_train_samples recall_k batch_size resume w :
  let o := sweep_faithfulness dataset h_layers betas n_trials n_train_samples
             recall_k batch_size resume w in
  (named_after_keys w -> named_after_keys (final o)) /\
  (resume = false \/ named_after_keys w ->
   forall sr, res o = Ok sr ->
     map relation_name (sweep_relations sr) = map name (relations dataset)).
Proof.
  cbv zeta. split.
  - rewrite sweep_faithfulness_final_always.
    refine (proj1 (sat_for_each
              (fun w w' => named_after_keys w -> named_after_keys w') any
              _ _ any _ _ _ w)).
    + auto.
    + auto.
    + intros item _ w0. split; [|split; [apply Forall_any|side]].
      apply relation_body_keeps_naming.
  - intros Hnamed sr Hrun. apply sweep_faithfulness_results in Hrun.
    apply driver_loop_names in Hrun; [|exact Hnamed].
    rewrite Hrun, <- List.map_map, map_snd_enumerate. reflexivity.
Qed.

(** ** What the sweep does to the checkpoint store *)

(** X6. When a sweep completes, and it resumed or the relation names of
    the dataset are pairwise distinct, the checkpoint store it leaves
    holds, under each relation's name, exactly the result the sweep
    returned for that relation. *)
Theorem sweep_persists_returned_results dataset h_layers betas
    n_trials n_train_samples recall_k batch_size resume w sr :
  resume = true \/ NoDup (map name (relations dataset)) ->
  let o := sweep_faithfulness dataset h_layers betas n_trials n_train_samples
             recall_k batch_size resume w in
  res o = Ok sr ->
  Forall2 (fun relation rr => checkpoints (final o) !! name relation = Some rr)
          (relations dataset) (sweep_relations sr).
Proof.
  intros Hnames o Hrun. subst o.
  rewrite sweep_faithfulness_final_always.
  apply sweep_faithfulness_results in Hrun.
  apply driver_loop_saved in Hrun.
  - rewrite <- (map_snd_enumerate (relations dataset)) at 1.
    apply Forall2_fmap_l. exact Hrun.
  - destruct Hnames as [->|Hnodup]; [left; reflexivity|right].
    rewrite <- (map_snd_enumerate (relations dataset)) in Hnodup.
    rewrite List.map_map in Hnodup. exact Hnodup.
Qed.

(** X7. Whether it completes or raises, a sweep never touches the
    entries of the checkpoint store under names that no relation of the
    dataset bears, and a resuming sweep never changes or removes an
    entry the store already held. *)
Theorem sweep_store_frame dataset h_layers betas
    n_trials n_train_samples recall_k batch_size resume w :
  let o := sweep_faithfulness dataset h_layers betas n_trials n_train_samples
             recall_k batch_size resume w in
  (forall key, ~ In key (map name (relations dataset)) ->
               checkpoints (final o) !! key = checkpoints w !! key) /\
  (resume = true ->
   forall key rr, checkpoints w !! key = Some rr ->
                  checkpoints (final o) !! key = Some rr).
Proof.
  cbv zeta. rewrite sweep_faithfulness_final_always. split.
  - intros key Hkey. apply driver_loop_other_keys.
    intros item Hitem ->. apply Hkey.
    rewrite <- (map_snd_enumerate (relations dataset)), List.map_map.
    apply in_map_iff. exists item. auto.
  - intros -> key rr Hrr. apply driver_loop_keeps_entries. exact Hrr.
Qed.

(** ** [_precompute_hs]: batch sizes it refuses *)

Lemma precompute_bad_batch_run prompt_template subjects
    examples batch_size w :
  let prompts :=
    map (fun subj => make_prompt prompt_template subj examples) subjects in
  (batch_size <= 0)%Z \/ input_ids (tokenizer prompts) = [] ->
  _precompute_hs prompt_template subjects examples batch_size w =
  {| res := Raise (if (batch_size =? 0)%Z then ValueError else RuntimeError);
     final := w;
     trace :=
       map (fun subj => CallMakePrompt prompt_template subj examples) subjects
       ++ [CallTokenizer prompts] |}.
Proof.
  intros prompts Hbad. unfold _precompute_hs.
  erewrite bind_run; [|apply make_prompts_run].
  erewrite bind_run; [|reflexivity].
  cbv zeta. fold prompts.
  set (rest := bind (lift (py_range_step _ batch_size)) _).
  assert (Hrest : rest w =
            {| res := Raise (if (batch_size =? 0)%Z then ValueError
                             else RuntimeError);
               final := w; trace := [] |}).
  { subst rest. unfold py_range_step.
    destruct (Z.eqb_spec batch_size 0) as [Hz|Hz]; [reflexivity|].
    destruct (Z.ltb_spec batch_size 0) as [Hneg|Hpos]; [reflexivity|].
    destruct Hbad as [Hle|Hrows]; [lia|].
    rewrite Hrows. reflexivity. }
  cbn [res final trace emit ret]. rewrite Hrest. reflexivity.
Qed.


(** ** [_precompute_hs]: the cache it returns *)


Lemma rmap_Forall2 {A B} (f : A -> result B) (l : list A) (l' : list B) :
  rmap f l = Ok l' -> Forall2 (fun x y => f x = Ok y) l l'.
Proof.
  revert l'. induction l as [|x l IH]; intros l' H; simpl in H.
  - injection H as <-. constructor.
  - destruct (f x) as [y|e] eqn:Hx; [|discriminate]. simpl in H.
    destruct (rmap f l) as [ys|e]; [|discriminate]. simpl in H.
    injection H as <-. constructor; [exact Hx|]. apply IH. reflexivity.
Qed.


(** What one successful step of the caching loop did. *)
Lemma cache_subject_ok hidden_states offsets acc i subj prompt w m :
  res (cache_subject hidden_states offsets acc (i, (subj, prompt)) w) = Ok m ->
  exists offsets_i start end_ h,
    py_index offsets (Z.of_nat i) = Ok offsets_i /\
    find_token_range prompt subj offsets_i = Ok (start, end_) /\
    rmap (fun layer =>
            let? row := py_index layer (Z.of_nat i) in
            py_index row (end_ - 1)%Z)
         hidden_states = Ok h /\
    m = <[subj := h]> acc.
Proof.
  unfold cache_subject. intros H.
  apply res_bind_inv in H. destruct H as (offsets_i & H1 & H).
  apply res_bind_inv in H. destruct H as ([start end_] & H2 & H).
  apply res_bind_inv in H. destruct H as (h & H3 & H).
  simpl in H1, H2, H3, H. injection H as <-.
  exists offsets_i, start, end_, h. auto.
Qed.

Lemma fold_cache_absent hidden_states offsets items : forall acc w m s,
  res (fold_each (cache_subject hidden_states offsets) acc items w) = Ok m ->
  ~ In s (map (fun it => fst (snd it)) items) ->
  m !! s = acc !! s.
Proof.
  induction items as [|[i [subj prompt]] items IH]; intros acc w m s H Hs.
  - simpl in H. injection H as <-. reflexivity.
  - apply fold_each_cons_ok in H. destruct H as (acc' & Hb & Hf).
    apply cache_subject_ok in Hb.
    destruct Hb as (offsets_i & start & end_ & h & _ & _ & _ & ->).
    rewrite (IH _ _ _ s Hf) by (intros Hin; apply Hs; right; exact Hin).
    apply lookup_insert_ne. intros ->. apply Hs. left. reflexivity.
Qed.







Lemma py_index_of_nat {A} (l : list A) (i : nat) :
  py_index l (Z.of_nat i) =
  match nth_error l i with
  | Some x => Ok x
  | None => Raise IndexError
  end.
Proof.
  unfold py_index.
  destruct (Z.ltb_spec (Z.of_nat i) 0) as [?|_]; [lia|].
  destruct (Z.leb_spec 0 (Z.of_nat i)) as [_|?]; [|lia].
  destruct (Z.ltb_spec (Z.of_nat i) (Z.of_nat (length l))) as [Hlt|Hge]; simpl.
  - rewrite Nat2Z.id. reflexivity.
  - assert (Hnone : nth_error l i = None) by (apply List.nth_error_None; lia).
    rewrite Hnone. reflexivity.
Qed.

Lemma nth_error_enumerate_from {A} (l : list A) : forall a j,
  nth_error (combine (seq a (length l)) l) j =
  option_map (fun x => ((a + j)%nat, x)) (nth_error l j).
Proof.
  induction l as [|x l IH]; intros a j.
  - destruct j; reflexivity.
  - destruct j as [|j]; simpl.
    + rewrite Nat.add_0_r. reflexivity.
    + rewrite IH. replace (S a + j)%nat with (a + S j)%nat by lia. reflexivity.
Qed.

Lemma nth_error_combine_map {A B} (f : A -> B) (l : list A) : forall j,
  nth_error (combine l (map f l)) j =
  option_map (fun x => (x, f x)) (nth_error l j).
Proof.
  induction l as [|x l IH]; intros j; [destruct j; reflexivity|].
  destruct j as [|j]; simpl; [reflexivity|apply IH].
Qed.

(** The entry of a subject is the one written at its last occurrence. *)
Lemma fold_cache_last hidden_states offsets items : forall acc w m j i s p,
  res (fold_each (cache_subject hidden_states offsets) acc items w) = Ok m ->
  nth_error items j = Some (i, (s, p)) ->
  (forall j' it, (j < j')%nat -> nth_error items j' = Some it ->
                 fst (snd it) <> s) ->
  exists offsets_i start end_ h,
    py_index offsets (Z.of_nat i) = Ok offsets_i /\
    find_token_range p s offsets_i = Ok (start, end_) /\
    rmap (fun layer =>
            let? row := py_index layer (Z.of_nat i) in
            py_index row (end_ - 1)%Z)
         hidden_states = Ok h /\
    m !! s = Some h.
Proof.
  induction items as [|x items IH]; intros acc w m j i s p H Hj Hlast.
  - destruct j; discriminate.
  - apply fold_each_cons_ok in H. destruct H as (acc' & Hb & Hf).
    destruct j as [|j].
    + simpl in Hj. injection Hj as ->.
      apply cache_subject_ok in Hb.
      destruct Hb as (offsets_i & start & end_ & h & H1 & H2 & H3 & ->).
      exists offsets_i, start, end_, h. repeat split; try assumption.
      rewrite (fold_cache_absent _ _ _ _ _ _ s Hf).
      * apply lookup_insert_eq.
      * intros Hin. apply in_map_iff in Hin. destruct Hin as (it & Hit & Hin).
        apply List.In_nth_error in Hin. destruct Hin as [n Hn].
        apply (Hlast (S n) it); [lia|exact Hn|exact Hit].
    + apply (IH _ _ _ j i s p Hf Hj).
      intros j' it Hlt Hit. apply (Hlast (S j') it); [lia|exact Hit].
Qed.

(** X10. For a model that treats the rows of a batch independently and
    a batch size of at least 1, the cache entry of a subject is read at
    the row of the subject's last occurrence [i] among the subjects: its
    component for layer [l] (the embedding layer is dropped, so [l]
    starts at 1) is the hidden state of that row at position [end - 1],
    where [(start, end)] is the token range located for the subject in
    the prompt rendered for it, with the offsets of row [i]. *)
Theorem precompute_entry_is_last_subject_token (n_hidden : nat)
    (layer_hs : nat -> list Z * list Z -> list hvec)
    prompt_template subjects examples batch_size w hs (i : nat) (s : string) :
  (1 <= batch_size)%Z ->
  rowwise_model n_hidden layer_hs ->
  res (_precompute_hs prompt_template subjects examples batch_size w) = Ok hs ->
  nth_error subjects i = Some s ->
  (forall j, (i < j)%nat -> nth_error subjects j <> Some s) ->
  let inputs :=
    tokenizer (map (fun subj => make_prompt prompt_template subj examples)
                   subjects) in
  exists offsets_i start end_ h,
    nth_error (offset_mapping inputs) i = Some offsets_i /\
    find_token_range (make_prompt prompt_template s examples) s offsets_i
      = Ok (start, end_) /\
    hs !! s = Some h /\
    Forall2 (fun l v =>
               exists row,
                 nth_error (combine (input_ids inputs) (attention_mask inputs)) i
                   = Some row /\
                 py_index (layer_hs l row) (end_ - 1)%Z = Ok v)
            (seq 1 (Nat.pred n_hidden)) h.
Proof.
  intros Hb Hrow Hrun Hi Hlast inputs.
  rewrite precompute_res_after_tokenizing in Hrun. cbv zeta in Hrun.
  set (prompts := map (fun subj => make_prompt prompt_template subj examples)
                      subjects) in *.
  fold inputs in Hrun.
  rewrite (precompute_hidden_states_res n_hidden layer_hs inputs batch_size
             (fun hidden_states =>
                fold_each (cache_subject hidden_states (offset_mapping inputs))
                          ∅ (enumerate (combine subjects prompts)))
             w Hb Hrow) in Hrun.
  destruct (length (input_ids inputs)) as [|n']; [discriminate|].
  destruct n_hidden as [|k]; [discriminate|].
  destruct (fold_cache_last _ _ _ _ _ _ i i s
              (make_prompt prompt_template s examples) Hrun)
    as (offsets_i & start & end_ & h & H1 & H2 & H3 & H4).
  - unfold enumerate.
    rewrite nth_error_enumerate_from. subst prompts.
    rewrite nth_error_combine_map, Hi. reflexivity.
  - intros j' it Hlt Hit Heq. unfold enumerate in Hit.
    rewrite nth_error_enumerate_from in Hit. subst prompts.
    rewrite nth_error_combine_map in Hit.
    destruct (nth_error subjects j') as [s'|] eqn:Hs'; [|discriminate].
    simpl in Hit. injection Hit as <-. simpl in Heq. subst s'.
    exact (Hlast j' Hlt Hs').
  - exists offsets_i, start, end_, h.
    rewrite py_index_of_nat in H1.
    destruct (nth_error (offset_mapping inputs) i) as [o|]; [|discriminate].
    injection H1 as ->.
    repeat split; try assumption; try reflexivity.
    apply rmap_Forall2 in H3. apply Forall2_fmap_l in H3.
    eapply Forall2_impl; [exact H3|].
    intros l v Hv. simpl in Hv.
    rewrite py_index_of_nat, List.nth_error_map in Hv.
    destruct (nth_error (combine (input_ids inputs) (attention_mask inputs)) i)
      as [row|]; [|discriminate].
    simpl in Hv. exists row. auto.
Qed.

(** ** An empty beta grid *)

(** With no beta to evaluate, the layer's train result has no beta
    result, and summarizing it asks for the best of an empty list. *)
Lemma layer_body_empty_grid relation prompt_template train_samples
    test_relation hs_by_subj recall_k h_layer w lr :
  res (layer_body relation prompt_template train_samples test_relation
         hs_by_subj recall_k [] h_layer w) <> Ok lr.
Proof.
  unfold layer_body. intros H.
  apply res_bind_inv in H. destruct H as (u & _ & H).
  apply res_bind_inv in H. destruct H as (operator & _ & H).
  apply res_bind_inv in H. destruct H as (rs & Hrs & H).
  apply res_bind_inv in H. destruct H as (u' & Hsum & _).
  apply evaluate_operator_betas in Hrs.
  destruct rs as [|r rs]; [|discriminate].
  unfold SweepFaithfulnessTrainResults_summarize in Hsum.
  apply res_bind_inv in Hsum. destruct Hsum as (best & Hbest & _).
  simpl in Hbest. discriminate.
Qed.

(** X11. With an empty list of betas, sweeping a relation that has more
    than [n_train_samples] samples, for at least one trial and at least
    one layer, never completes: it raises, and nothing is saved to the
    checkpoint store. *)
Theorem empty_beta_grid_never_completes relation h_layers
    n_trials n_train_samples recall_k batch_size w :
  (n_train_samples < Z.of_nat (length (samples relation)))%Z ->
  (1 <= n_trials)%Z ->
  h_layers <> [] ->
  let o := sweep_relation relation h_layers [] n_trials n_train_samples
             recall_k batch_size w in
  (exists e, res o = Raise e) /\ checkpoints (final o) = checkpoints w.
Proof.
  intros Hlarge Htrials Hlayers o.
  assert (Hno : forall rr, res o <> Ok rr).
  { intros rr H. subst o. unfold sweep_relation, trial_loop in H.
    apply res_bind_inv in H. destruct H as (pt & _ & H).
    apply res_bind_inv in H. destruct H as (trs & Htrs & _).
    unfold py_range in Htrs.
    destruct (Z.to_nat n_trials) as [|n] eqn:Hn; [lia|].
    simpl in Htrs. apply for_each_opt_cons_ok in Htrs.
    destruct Htrs as (y & ys' & Hy & _).
    unfold trial_body in Hy.
    apply res_bind_inv in Hy. destruct Hy as (u & _ & Hy).
    destruct (Z.leb_spec (Z.of_nat (length (samples relation))) n_train_samples)
      as [?|_]; [lia|].
    apply res_bind_inv in Hy. destruct Hy as ([train_relation test_relation] & _ & Hy).
    apply res_bind_inv in Hy. destruct Hy as (u1 & _ & Hy).
    apply res_bind_inv in Hy. destruct Hy as (u2 & _ & Hy).
    apply res_bind_inv in Hy. destruct Hy as (hs_by_subj & _ & Hy).
    apply res_bind_inv in Hy. destruct Hy as (lrs & Hlrs & _).
    destruct h_layers as [|h hs]; [congruence|].
    unfold layer_loop in Hlrs. apply for_each_cons_ok in Hlrs.
    destruct Hlrs as (lr & lrs' & _ & Hlr & _).
    exact (layer_body_empty_grid _ _ _ _ _ _ _ _ _ Hlr). }
  destruct (sweep_relation_store relation h_layers [] n_trials n_train_samples
              recall_k batch_size w) as [[Hkeep [e He]]|[rr [Hrr _]]].
  - split; [exists e; exact He|exact Hkeep].
  - exfalso. exact (Hno rr Hrr).
Qed.

(** ** [_precompute_hs]: the calls of a successful run *)

(** [range(i, n, step)] in closed form. *)
Lemma range_from_closed (n step : nat) :
  (1 <= step)%nat ->
  forall fuel i,
    (n <= fuel + i)%nat ->
    range_from fuel i n step =
    map (fun j => (i + j * step)%nat) (seq 0 ((n - i + step - 1) / step)).
Proof.
  intros Hstep. induction fuel as [|fuel IH]; intros i Hfuel.
  - replace (n - i + step - 1)%nat with (step - 1)%nat by lia.
    rewrite Nat.div_small by lia. reflexivity.
  - simpl. destruct (Nat.ltb_spec i n) as [Hi|Hi].
    + rewrite IH by lia.
      assert (Hk : ((n - i + step - 1) / step =
                    S ((n - (i + step) + step - 1) / step))%nat).
      { destruct (Nat.le_gt_cases (i + step) n) as [Hle|Hgt].
        - replace (n - i + step - 1)%nat
            with ((n - (i + step) + step - 1) + 1 * step)%nat by lia.
          rewrite Nat.div_add by lia. lia.
        - replace (n - (i + step) + step - 1)%nat with (step - 1)%nat by lia.
          rewrite (Nat.div_small (step - 1)) by lia.
          symmetry. apply (Nat.div_unique _ _ _ (n - i - 1)); lia. }
      rewrite Hk. simpl seq. simpl map. rewrite Nat.add_0_r. f_equal.
      rewrite <- List.seq_shift, List.map_map.
      apply List.map_ext. intros j. simpl. lia.
    + replace (n - i + step - 1)%nat with (step - 1)%nat by lia.
      rewrite Nat.div_small by lia. reflexivity.
Qed.

Lemma bind_ok_inv {A B} (m : M A) (f : A -> M B) (w : world) (b : B) :
  res (bind m f w) = Ok b ->
  exists a,
    res (m w) = Ok a /\
    res (f a (final (m w))) = Ok b /\
    trace (bind m f w) = trace (m w) ++ trace (f a (final (m w))).
Proof.
  destruct (bind_cases m f w) as [(a & Ha & ->)|(e & He & ->)]; simpl;
    [eauto|discriminate].
Qed.

Lemma forward_batch_trace (inputs : BatchEncoding) (batch_size : Z) (i : nat)
    (w : world) :
  trace (forward_batch inputs batch_size i w) =
    [CallModel (py_slice (input_ids inputs) i batch_size)
               (py_slice (attention_mask inputs) i batch_size)] /\
  final (forward_batch inputs batch_size i w) = w.
Proof.
  unfold forward_batch, call_model.
  erewrite bind_run; [|reflexivity].
  destruct (mt_model _ _); split; reflexivity.
Qed.

Lemma for_each_trace_ok {A B} (body : A -> M B) (ev : A -> event) :
  (forall x w, trace (body x w) = [ev x] /\ final (body x w) = w) ->
  forall l w ys,
    res (for_each body l w) = Ok ys ->
    trace (for_each body l w) = map ev l.
Proof.
  intros Hbody. induction l as [|x l IH]; intros w ys H; [reflexivity|].
  rewrite (for_each_cons_trace _ _ _ _ _ H).
  apply for_each_cons_ok in H. destruct H as (y & ys' & _ & _ & Hl & _).
  rewrite (IH _ _ Hl), (proj1 (Hbody x w)). reflexivity.
Qed.

Lemma for_each_final_same {A B} (body : A -> M B) :
  (forall x w, final (body x w) = w) ->
  forall l w, final (for_each body l w) = w.
Proof.
  intros Hbody. induction l as [|x l IH]; intros w; [reflexivity|].
  simpl. rewrite final_bind. destruct (res (body x w)); [|apply Hbody].
  rewrite final_bind, Hbody. destruct (res (for_each body l w)); [|apply IH].
  simpl. apply IH.
Qed.

Lemma cache_subject_trace hidden_states offsets acc i subj prompt w m :
  res (cache_subject hidden_states offsets acc (i, (subj, prompt)) w) = Ok m ->
  trace (cache_subject hidden_states offsets acc (i, (subj, prompt)) w) =
    [CallFindTokenRange prompt subj (nth i offsets [])].
Proof.
  unfold cache_subject, call_find_token_range, bind, lift, emit, ret.
  cbn [res final trace]. rewrite py_index_of_nat.
  destruct (nth_error offsets i) as [o|] eqn:Ho; cbn [res final trace];
    [|discriminate].
  rewrite (List.nth_error_nth _ _ [] Ho).
  destruct (find_token_range prompt subj o) as [[start end_]|e];
    cbn [res final trace]; [|discriminate].
  destruct (rmap _ hidden_states); cbn [res final trace]; [|discriminate].
  reflexivity.
Qed.

Lemma fold_each_cons_trace {A B} (body : B -> A -> M B) (x : A) (l : list A)
    (acc : B) (w : world) (r : B) :
  res (fold_each body acc (x :: l) w) = Ok r ->
  exists acc',
    res (body acc x w) = Ok acc' /\
    res (fold_each body acc' l (final (body acc x w))) = Ok r /\
    trace (fold_each body acc (x :: l) w) =
      trace (body acc x w) ++ trace (fold_each body acc' l (final (body acc x w))).
Proof. simpl. intros H. apply bind_ok_inv in H. exact H. Qed.

Lemma fold_cache_trace hidden_states offsets items : forall acc w m,
  res (fold_each (cache_subject hidden_states offsets) acc items w) = Ok m ->
  trace (fold_each (cache_subject hidden_states offsets) acc items w) =
  map (fun it =>
         CallFindTokenRange (snd (snd it)) (fst (snd it))
                            (nth (fst it) offsets []))
      items.
Proof.
  induction items as [|[i [subj prompt]] items IH]; intros acc w m H;
    [reflexivity|].
  apply fold_each_cons_trace in H.
  destruct H as (acc' & Hb & Hf & ->).
  rewrite (cache_subject_trace _ _ _ _ _ _ _ _ Hb), (IH _ _ _ Hf).
  reflexivity.
Qed.

Lemma enumerate_combine_map {A B} (f : A -> B) (l : list A) : forall a,
  combine (seq a (length (combine l (map f l)))) (combine l (map f l)) =
  map (fun it => (fst it, (snd it, f (snd it)))) (combine (seq a (length l)) l).
Proof.
  induction l as [|x l IH]; intros a; [reflexivity|].
  simpl. rewrite IH. reflexivity.
Qed.

(** X12. The calls of a [_precompute_hs] that returns, in order: one
    prompt rendered per subject; one call to the tokenizer, on all the
    prompts; one call to the model per batch, on the rows
    [j * batch_size] to [(j + 1) * batch_size] of the encoding, for
    [j] from 0 to [ceil(rows / batch_size) - 1]; one token-range lookup
    per subject, for the [i]-th subject in its own prompt with the
    [i]-th row of the offsets. The world is left as it was. *)
Theorem precompute_calls_of_successful_run prompt_template subjects examples
    batch_size w hs :
  res (_precompute_hs prompt_template subjects examples batch_size w) = Ok hs ->
  let prompts :=
    map (fun subj => make_prompt prompt_template subj examples) subjects in
  let inputs := tokenizer prompts in
  let step := Z.to_nat batch_size in
  let n := length (input_ids inputs) in
  (1 <= batch_size)%Z /\
  final (_precompute_hs prompt_template subjects examples batch_size w) = w /\
  trace (_precompute_hs prompt_template subjects examples batch_size w) =
    map (fun subj => CallMakePrompt prompt_template subj examples) subjects ++
    [CallTokenizer prompts] ++
    map (fun j =>
           CallModel (py_slice (input_ids inputs) (j * step) batch_size)
                     (py_slice (attention_mask inputs) (j * step) batch_size))
        (seq 0 ((n + step - 1) / step)) ++
    map (fun it =>
           CallFindTokenRange (make_prompt prompt_template (snd it) examples)
                              (snd it)
                              (nth (fst it) (offset_mapping inputs) []))
        (enumerate subjects).
Proof.
  intros Hrun prompts inputs step n.
  assert (Hb : (1 <= batch_size)%Z).
  { destruct (Z.le_gt_cases 1 batch_size) as [?|Hbad]; [assumption|].
    rewrite (precompute_bad_batch_run prompt_template subjects examples
               batch_size w) in Hrun by (left; lia).
    discriminate. }
  split; [exact Hb|]. split.
  { apply (precompute_sat same_world any ltac:(side) ltac:(side) ltac:(side)
             ltac:(side) prompt_template subjects examples batch_size
             ltac:(side) ltac:(side) w). }
  revert Hrun. unfold _precompute_hs.
  erewrite bind_run; [|apply make_prompts_run].
  erewrite bind_run; [|reflexivity].
  cbv zeta. fold prompts. fold inputs.
  cbn [res final trace emit ret]. intros Hrun.
  f_equal. simpl. f_equal.
  apply bind_ok_inv in Hrun. destruct Hrun as (starts & Hstarts & Hrun & ->).
  cbn [lift res final trace app] in *.
  apply bind_ok_inv in Hrun. destruct Hrun as (batched & Hbatched & Hrun & ->).
  assert (Hw : final (for_each (forward_batch inputs batch_size) starts w) = w).
  { apply for_each_final_same. intros x w0. apply forward_batch_trace. }
  rewrite Hw in *.
  apply bind_ok_inv in Hrun. destruct Hrun as (hidden & Hhidden & Hrun & ->).
  cbn [lift res final trace app] in *.
  rewrite (for_each_trace_ok _ _ (forward_batch_trace inputs batch_size)
             _ _ _ Hbatched).
  rewrite (fold_cache_trace _ _ _ _ _ _ Hrun).
  unfold py_range_step in Hstarts.
  destruct (Z.eqb_spec batch_size 0) as [?|_]; [lia|].
  destruct (Z.ltb_spec batch_size 0) as [?|_]; [lia|].
  injection Hstarts as <-. fold n. fold step.
  rewrite (range_from_closed n step ltac:(lia) n 0 ltac:(lia)).
  rewrite Nat.sub_0_r, List.map_map. f_equal.
  unfold enumerate. subst prompts.
  rewrite enumerate_combine_map, List.map_map. reflexivity.
Qed.

(** ** The summary before saving *)








(** ** A sweep that fails *)







End Further.

(** * The further properties at work in the small concrete setting *)

Lemma TrainResults_best_outcome_witness :
  SweepFaithfulnessTrainResults_best {| tr_samples := []; tr_betas := [] |} 1
    = Raise ValueError /\
  SweepFaithfulnessTrainResults_best
    {| tr_samples := [];
       tr_betas := [ {| br_beta := 0 # 1; br_recall := [1 # 2; 1 # 1]%Q |};
                     {| br_beta := 1 # 2; br_recall := [3 # 4]%Q |} ] |} 2
    = Raise IndexError /\
  exists b,
    SweepFaithfulnessTrainResults_best
      {| tr_samples := [];
         tr_betas := [ {| br_beta := 0 # 1; br_recall := [1 # 2; 1 # 1]%Q |};
                       {| br_beta := 1 # 2; br_recall := [3 # 4; 1 # 3]%Q |} ] |} 2
      = Ok b /\
    In b [ {| br_beta := 0 # 1; br_recall := [1 # 2; 1 # 1]%Q |};
           {| br_beta := 1 # 2; br_recall := [3 # 4; 1 # 3]%Q |} ].
Proof.
  split; [|split].
  - apply (proj1 (TrainResults_best_outcome
                    {| tr_samples := []; tr_betas := [] |} 1)).
    reflexivity.
  - apply (proj1 (proj2 (TrainResults_best_outcome
             {| tr_samples := [];
                tr_betas := [ {| br_beta := 0 # 1; br_recall := [1 # 2; 1 # 1]%Q |};
                              {| br_beta := 1 # 2; br_recall := [3 # 4]%Q |} ] |}
             2))).
    + lia.
    + exists {| br_beta := 1 # 2; br_recall := [3 # 4]%Q |}.
      split; [right; left; reflexivity|simpl; lia].
  - apply (proj2 (proj2 (TrainResults_best_outcome
             {| tr_samples := [];
                tr_betas := [ {| br_beta := 0 # 1; br_recall := [1 # 2; 1 # 1]%Q |};
                              {| br_beta := 1 # 2; br_recall := [3 # 4; 1 # 3]%Q |} ] |}
             2))).
    + lia.
    + discriminate.
    + intros x [<-|[<-|[]]]; simpl; lia.
Defined.

Lemma RelationResults_best_first_argmax_at_1_witness :
  SweepFaithfulnessRelationResults_best
    {| relation_name := "capital of"; trials := [] |} 2 = Raise ValueError /\
  exists d,
    SweepFaithfulnessRelationResults_by_layer two_layer_results 1 = Ok d /\
    exists i layer s,
      SweepFaithfulnessRelationResults_best two_layer_results 2 = Ok s /\
      nth_error d i = Some (layer, s) /\
      (forall layer' s', In (layer', s') d ->
                         (mean (ls_recall s') <= mean (ls_recall s))%Q) /\
      (forall j layer' s', (j < i)%nat -> nth_error d j = Some (layer', s') ->
                           (mean (ls_recall s') < mean (ls_recall s))%Q).
Proof.
  split.
  - apply (proj1 (proj2 (RelationResults_best_first_argmax_at_1
                           {| relation_name := "capital of"; trials := [] |} 2))).
    reflexivity.
  - eexists. split; [vm_compute; reflexivity|].
    refine (proj2 (proj2 (proj2 (RelationResults_best_first_argmax_at_1
                                   two_layer_results 2)) _ _) _).
    + vm_compute. reflexivity.
    + discriminate.
Defined.

Lemma swept_relation_result_shape_witness :
  exists rr,
    res (sweep_relation (C := toy) capitals [0; 1]%Z [(1 # 2)%Q; (1 # 1)%Q]
           1 2 1 64 toy_world) = Ok rr /\
    relation_name rr = "capital of"%string /\
    Forall (grid_shaped [0; 1]%Z [(1 # 2)%Q; (1 # 1)%Q]) (trials rr) /\
    length (trials rr) = 1%nat.
Proof.
  eexists. split; [vm_compute; reflexivity|].
  apply (swept_relation_result_shape (C := toy) capitals [0; 1]%Z
           [(1 # 2)%Q; (1 # 1)%Q] 1 2 1 64 toy_world).
  vm_compute. reflexivity.
Defined.

Lemma sweep_results_named_after_relations_witness :
  let o := sweep_faithfulness (C := toy) {| relations := [capitals] |}
             (Some [0; 1]%Z) (Some [(1 # 2)%Q; (1 # 1)%Q]) 1 2 1 64 true
             toy_world in
  named_after_keys toy_world /\
  named_after_keys (final o) /\
  exists sr, res o = Ok sr /\
             map relation_name (sweep_relations sr) = ["capital of"%string].
Proof.
  cbv zeta.
  assert (Hnamed : named_after_keys toy_world).
  { intros key rr Hrr. vm_compute in Hrr. discriminate. }
  destruct (sweep_results_named_after_relations (C := toy)
              {| relations := [capitals] |} (Some [0; 1]%Z)
              (Some [(1 # 2)%Q; (1 # 1)%Q]) 1 2 1 64 true toy_world)
    as [Hstore Hresults].
  split; [exact Hnamed|]. split; [exact (Hstore Hnamed)|].
  eexists. split; [vm_compute; reflexivity|].
  apply (Hresults (or_intror Hnamed)). vm_compute. reflexivity.
Defined.

Lemma sweep_persists_returned_results_witness :
  let o := sweep_faithfulness (C := toy) {| relations := [capitals] |}
             (Some [0; 1]%Z) (Some [(1 # 2)%Q; (1 # 1)%Q]) 1 2 1 64 true
             toy_world in
  exists sr,
    res o = Ok sr /\
    Forall2 (fun relation rr => checkpoints (final o) !! name relation = Some rr)
            [capitals] (sweep_relations sr).
Proof.
  cbv zeta. eexists. split; [vm_compute; reflexivity|].
  apply (sweep_persists_returned_results (C := toy)
           {| relations := [capitals] |} (Some [0; 1]%Z)
           (Some [(1 # 2)%Q; (1 # 1)%Q]) 1 2 1 64 true toy_world).
  - left. reflexivity.
  - vm_compute. reflexivity.
Defined.

Lemma sweep_store_frame_witness :
  let w := @Build_world toy {[ "plays"%string := empty_results capitals_stub ]}
             0%nat ∅ 0%nat in
  let o := sweep_faithfulness (C := toy) {| relations := [capitals] |}
             (Some [0; 1]%Z) (Some [(1 # 2)%Q; (1 # 1)%Q]) 1 2 1 64 true w in
  checkpoints (final o) !! "plays"%string = checkpoints w !! "plays"%string /\
  checkpoints (final o) !! "plays"%string = Some (empty_results capitals_stub).
Proof.
  cbv zeta.
  destruct (sweep_store_frame (C := toy)
              {| relations := [capitals] |} (Some [0; 1]%Z)
              (Some [(1 # 2)%Q; (1 # 1)%Q]) 1 2 1 64 true
              (@Build_world toy
                 {[ "plays"%string := empty_results capitals_stub ]}
                 0%nat ∅ 0%nat))
    as [Hother Hkept].
  split.
  - apply Hother. simpl. intros [Heq|[]]. discriminate.
  - apply Hkept; [reflexivity|vm_compute; reflexivity].
Defined.



Lemma precompute_entry_is_last_subject_token_witness :
  exists hs,
    res (_precompute_hs (C := toy) "{} is the capital of"
           ["Paris"; "Rome"]%string None 1 toy_world) = Ok hs /\
    let inputs :=
      tokenizer (Collaborators := toy)
        (map (fun subj => make_prompt (Collaborators := toy)
                            "{} is the capital of" subj None)
             ["Paris"; "Rome"]%string) in
    exists offsets_i start end_ h,
      nth_error (offset_mapping inputs) 1 = Some offsets_i /\
      find_token_range (Collaborators := toy)
        (make_prompt (Collaborators := toy) "{} is the capital of" "Rome" None)
        "Rome" offsets_i = Ok (start, end_) /\
      hs !! "Rome"%string = Some h /\
      Forall2 (fun l v =>
                 exists row,
                   nth_error (combine (input_ids inputs) (attention_mask inputs)) 1
                     = Some row /\
                   py_index (toy_layer_hs l row) (end_ - 1)%Z = Ok v)
              (seq 1 (Nat.pred 3)) h.
Proof.
  eexists. split; [vm_compute; reflexivity|].
  apply (precompute_entry_is_last_subject_token (C := toy) 3 toy_layer_hs
           "{} is the capital of" ["Paris"; "Rome"]%string None 1 toy_world).
  - lia.
  - exact toy_model_rowwise.
  - vm_compute. reflexivity.
  - reflexivity.
  - intros j Hj. destruct j as [|[|[|j]]]; simpl; (lia || discriminate).
Defined.

Lemma empty_beta_grid_never_completes_witness :
  let o := sweep_relation (C := toy) capitals [0%Z] [] 1 2 1 64 toy_world in
  (exists e, res o = Raise e) /\ checkpoints (final o) = checkpoints toy_world.
Proof.
  apply (empty_beta_grid_never_completes (C := toy) capitals [0%Z] 1 2 1 64
           toy_world).
  - simpl. lia.
  - lia.
  - discriminate.
Defined.

Lemma precompute_calls_of_successful_run_witness :
  exists hs,
    res (_precompute_hs (C := toy) "{} is the capital of"
           ["Paris"; "Rome"; "Madrid"]%string None 2 toy_world) = Ok hs /\
    (1 <= 2)%Z /\
    final (_precompute_hs (C := toy) "{} is the capital of"
             ["Paris"; "Rome"; "Madrid"]%string None 2 toy_world) = toy_world /\
    trace (_precompute_hs (C := toy) "{} is the capital of"
             ["Paris"; "Rome"; "Madrid"]%string None 2 toy_world) =
      [CallMakePrompt "{} is the capital of" "Paris" None;
       CallMakePrompt "{} is the capital of" "Rome" None;
       CallMakePrompt "{} is the capital of" "Madrid" None;
       CallTokenizer ["{} is the capital ofParis"; "{} is the capital ofRome";
                      "{} is the capital ofMadrid"]%string;
       CallModel [[25; 7]; [24; 7]]%Z [[1; 1]; [1; 1]]%Z;
       CallModel [[26; 7]]%Z [[1; 1]]%Z;
       CallFindTokenRange "{} is the capital ofParis" "Paris" [(0, 1); (1, 2)]%Z;
       CallFindTokenRange "{} is the capital ofRome" "Rome" [(0, 1); (1, 2)]%Z;
       CallFindTokenRange "{} is the capital ofMadrid" "Madrid" [(0, 1); (1, 2)]%Z].
Proof.
  eexists. split; [vm_compute; reflexivity|].
  eapply (precompute_calls_of_successful_run (C := toy) "{} is the capital of"
            ["Paris"; "Rome"; "Madrid"]%string None 2 toy_world).
  vm_compute. reflexivity.
Defined.


